(** * AssemblyKitEnv: the per-step decision core of the assembly-kit task

    A shallow embedding of
    [source/isaaclab_tasks/isaaclab_tasks/direct/assembly_kit/assembly_kit_env.py].

    Conventions of the embedding.
    - A float tensor entry is a real number: float32 rounding, NaN and
      infinities are idealised away.  Where torch would produce a NaN (the
      [%] of the rotation check at a symmetry period of 0) the statements
      exclude the input by hypothesis.
    - A tensor whose leading dimension is the batch is a [list] of rows; a
      3-vector is a triple, a quaternion a quadruple in (w, x, y, z) order,
      the first seven columns of a root state a [Pose].
    - Python exceptions are the [Raise] outcomes of [res]; methods which
      assign attributes of [self] live in the state monad [M], and keep the
      assignments made before an exception.
    - torch's global random generator is replaced by the draws it delivers
      to one call ([Draws]), and the memory [torch.empty] hands out by its
      contents ([Uninitialised]).
    - What the environment takes from its collaborators is an argument: the
      USD stage ([Stage]), the kit files as loaded and the objects the
      simulation makes of a configuration ([SceneSources]), the camera
      image.  Setup code returns an [outcome], which also knows the
      exceptions of Python's own arithmetic and lists. *)

From Stdlib Require Import Reals Lra Lia ZArith.
From stdpp Require Import base decidable option list strings pretty gmap.

Local Open Scope R_scope.

(** ** Vectors, quaternions, poses *)

Abbreviation Vec2 := (R * R)%type (only parsing).
Abbreviation Vec3 := (R * R * R)%type (only parsing).
Abbreviation Quat := (R * R * R * R)%type (only parsing).
Abbreviation Pose := (R * R * R * (R * R * R * R))%type (only parsing).

Definition vx (v : Vec3) : R := v.1.1.
Definition vy (v : Vec3) : R := v.1.2.
Definition vz (v : Vec3) : R := v.2.

Definition vadd (a b : Vec3) : Vec3 := (vx a + vx b, vy a + vy b, vz a + vz b).
Definition vsub (a b : Vec3) : Vec3 := (vx a - vx b, vy a - vy b, vz a - vz b).

(** [t[:, :2]] on a row. *)
Definition xy (v : Vec3) : Vec2 := (vx v, vy v).
Definition vsub2 (a b : Vec2) : Vec2 := (a.1 - b.1, a.2 - b.2).
(** [torch.norm(_, dim=1)] on a row of two columns. *)
Definition norm2 (d : Vec2) : R := sqrt (d.1 * d.1 + d.2 * d.2).

Definition quat_identity : Quat := (1, 0, 0, 0).
Definition vzero : Vec3 := (0, 0, 0).

Global Instance Rlt_decision (x y : R) : Decision (x < y) := Rlt_dec x y.
Global Instance Rgt_decision (x y : R) : Decision (x > y) := Rgt_dec x y.

(** Elementwise [<] and [>] of float tensors. *)
Definition Rltb (x y : R) : bool := bool_decide (x < y).
Definition Rgtb (x y : R) : bool := bool_decide (x > y).

(** [torch.remainder], the [%] of float tensors: the result takes the sign
    of the divisor, [x - y * floor (x / y)].  This is the operation for a
    divisor other than 0.  For [y = 0] torch yields NaN, and every
    comparison with it is false; the reals have no such value (here
    [remainder x 0 = x]), so what is stated of a remainder, or of a
    comparison made with one, is stated for a divisor other than 0. *)
Definition remainder (x y : R) : R := x - y * IZR (Zfloor (x / y)).

(** [math.radians]. *)
Definition radians (deg : R) : R := deg * PI / 180.

(** ** Outcomes and tensor primitives *)

Inductive exn : Type := IndexError | RuntimeError.

Inductive res (A : Type) : Type :=
| Ok (a : A)
| Raise (e : exn).
Arguments Ok {A} a.
Arguments Raise {A} e.

Definition res_bind {A B} (r : res A) (f : A -> res B) : res B :=
  match r with
  | Ok a => f a
  | Raise e => Raise e
  end.

Definition of_option {A} (e : exn) (o : option A) : res A :=
  match o with
  | Some a => Ok a
  | None => Raise e
  end.

Declare Scope res_scope.
Delimit Scope res_scope with res.
Notation "x <- r ;; k" := (res_bind r (fun x => k))
  (at level 100, r at next level, right associativity) : res_scope.

(** [mapM]: the first row that raises decides the outcome. *)
Fixpoint res_map {A B} (f : A -> res B) (l : list A) : res (list B) :=
  match l with
  | [] => Ok []
  | a :: l' =>
      match f a with
      | Raise e => Raise e
      | Ok b =>
          match res_map f l' with
          | Raise e => Raise e
          | Ok bs => Ok (b :: bs)
          end
      end
  end.

(** [t[i]] for one non-negative index. *)
Definition at_index {A} (t : list A) (i : nat) : res A :=
  of_option IndexError (t !! i).

(** [t[idx]] for a long tensor [idx] of non-negative indices. *)
Definition index_rows {A} (t : list A) (idx : list nat) : res (list A) :=
  res_map (at_index t) idx.

(** [t[rows, cols]] for two long tensors of the same length. *)
Definition index_pairs {A} (t : list (list A)) (rows cols : list nat)
  : res (list A) :=
  res_map (fun rc : nat * nat =>
             res_bind (at_index t rc.1) (fun row => at_index row rc.2))
          (zip rows cols).

(** [t[idx, cols] = vals], where [upd row v] stores [v] in the columns
    [cols] of [row]; an index past the end raises.  Rows are stored in
    order, so that the last of two writes to one row wins (torch leaves that
    order open when an index repeats). *)
Fixpoint index_put_with {A V} (upd : A -> V -> A) (t : list A)
    (idx : list nat) (vals : list V) : res (list A) :=
  match idx, vals with
  | i :: idx', v :: vals' =>
      match t !! i with
      | Some row => index_put_with upd (<[i := upd row v]> t) idx' vals'
      | None => Raise IndexError
      end
  | [], [] => Ok t
  | _, _ => Raise RuntimeError
  end.

(** [t[idx] = vals] on whole rows. *)
Definition index_put {A} (t : list A) (idx : list nat) (vals : list A)
  : res (list A) :=
  index_put_with (fun _ v => v) t idx vals.

(** [t[rows, cols] = v] for one value [v]. *)
Fixpoint index_put2 {A} (t : list (list A)) (rows cols : list nat) (v : A)
  : res (list (list A)) :=
  match rows, cols with
  | r :: rows', c :: cols' =>
      match t !! r with
      | Some row =>
          if (c <? length row)%nat
          then index_put2 (<[r := <[c := v]> row]> t) rows' cols' v
          else Raise IndexError
      | None => Raise IndexError
      end
  | [], [] => Ok t
  | _, _ => Raise IndexError
  end.

(** [flat.view(rows, cols)]. *)
Definition view {A} (rows cols : nat) (flat : list A) : res (list (list A)) :=
  if (length flat =? rows * cols)%nat
  then Ok ((fun r => take cols (drop (r * cols) flat)) <$> seq 0 rows)
  else Raise RuntimeError.

(** [t.shape[1]] of a tensor kept as a list of rows. *)
Definition shape1 {A} (t : list (list A)) : res nat :=
  match t with
  | [] => Raise IndexError
  | row :: _ => Ok (length row)
  end.

(** In-place [a -= b] and the like: [b] is broadcast to the shape of [a]. *)
Definition broadcast_inplace {A B} (f : A -> B -> A) (a : list A) (b : list B)
  : res (list A) :=
  if (length a =? length b)%nat then Ok (zip_with f a b)
  else match b with
       | [y] => Ok ((fun x => f x y) <$> a)
       | _ => Raise RuntimeError
       end.

(** [t[mask]] for a boolean mask over the leading dimension; the source
    applies a mask only to tensors of its own leading size. *)
Fixpoint select {A} (mask : list bool) (t : list A) : list A :=
  match mask, t with
  | b :: mask', a :: t' => if b then a :: select mask' t' else select mask' t'
  | _, _ => []
  end.

(** [mask.any()]. *)
Definition any (mask : list bool) : bool := existsb (fun b => b) mask.

(** Broadcasting of an elementwise binary operation along the leading
    dimension: equal sizes pair up, a size of one is repeated, anything
    else raises. *)
Definition broadcast {A B C} (f : A -> B -> C) (a : list A) (b : list B)
  : res (list C) :=
  if (length a =? length b)%nat then Ok (zip_with f a b)
  else match a, b with
       | [x], _ => Ok (f x <$> b)
       | _, [y] => Ok ((fun x => f x y) <$> a)
       | _, _ => Raise RuntimeError
       end.

(** [torch.randint(low, high, (size,))]: raises unless [low < high];
    otherwise the [k]-th entry is the [k]-th raw draw brought into
    [[low, high)]. *)
Definition randint (low high size : nat) (raw : nat -> nat) : res (list nat) :=
  if (low <? high)%nat
  then Ok ((fun k => low + raw k mod (high - low))%nat <$> seq 0 size)
  else Raise RuntimeError.

(** [torch.rand(size)]. *)
Definition rand (size : nat) (raw : nat -> R) : list R := raw <$> seq 0 size.

(** [input.gather(1, index).squeeze(1)] for an index of one column:
    row [i] of the result is [input[i][index[i]]]. *)
Definition gather1 (input : list (list nat)) (index : list nat)
  : res (list nat) :=
  if (length index <=? length input)%nat
  then res_map (fun ri : list nat * nat => of_option RuntimeError (ri.1 !! ri.2))
               (zip (take (length index) input) index)
  else Raise RuntimeError.

(** ** Frame math

    [tf_combine] (isaacsim) and the Euler conversions (isaaclab.utils.math)
    are used by the environment through this interface. *)

Class FrameMath : Type := {
  (** [tf_combine(q1, t1, q2, t2)] returns [(q, t)]. *)
  tf_combine : Quat -> Vec3 -> Quat -> Vec3 -> Quat * Vec3;
  (** [quat_from_euler_xyz(roll, pitch, yaw)]. *)
  quat_from_euler_xyz : R -> R -> R -> Quat;
  (** [euler_xyz_from_quat(quat)] returns [(roll, pitch, yaw)]. *)
  euler_xyz_from_quat : Quat -> R * R * R
}.

(** ** The objects the environment holds *)

(** [RigidObject]: the first seven columns of [data.default_root_state]
    and of [data.root_state_w], one row per environment. *)
Record RigidObject : Type := {
  default_root_state : list Pose;
  root_state_w : list Pose
}.

(** [Articulation]: [data.body_pos_w] and [data.body_quat_w], indexed by
    environment, then by body. *)
Record Articulation : Type := {
  body_pos_w : list (list Vec3);
  body_quat_w : list (list Quat)
}.

Record AssemblyKitEnvCfg : Type := {
  table_offset : R
}.

Record InteractiveScene : Type := {
  env_origins : list Vec3
}.

Record AssemblyKitEnv : Type := {
  cfg : AssemblyKitEnvCfg;
  scene : InteractiveScene;
  num_envs : nat;
  max_episode_length : Z;
  episode_length_buf : list Z;
  symmetry : list R;
  robot : Articulation;
  robot_local_grasp_pos : list Vec3;
  robot_local_grasp_rot : list Quat;
  hand_link_idx : nat;
  kit : RigidObject;
  models : list RigidObject;
  kit_target_starting_pos : list (list Vec3);
  model_target_pos : list (list Vec3);
  model_target_rot : list (list R);
  kit_ids_per_env : list nat;
  (** the ["model_ids"] entry of each dict of [env_assets_info] *)
  env_assets_info : list (list nat);
  (** a tensor of one column, kept as that column *)
  _current_target : list nat;
  current_target_model_id : list nat;
  target_pos : list Vec3;
  target_quat : list Quat;
  target_goal_pos : list Vec3;
  target_goal_rot : list R
}.

(** Attribute assignments: [self.f = v]. *)

Definition set__current_target (v : list nat) (s : AssemblyKitEnv)
  : AssemblyKitEnv :=
  {| cfg := cfg s; scene := scene s; num_envs := num_envs s;
     max_episode_length := max_episode_length s;
     episode_length_buf := episode_length_buf s; symmetry := symmetry s;
     robot := robot s; robot_local_grasp_pos := robot_local_grasp_pos s;
     robot_local_grasp_rot := robot_local_grasp_rot s;
     hand_link_idx := hand_link_idx s; kit := kit s; models := models s;
     kit_target_starting_pos := kit_target_starting_pos s;
     model_target_pos := model_target_pos s;
     model_target_rot := model_target_rot s;
     kit_ids_per_env := kit_ids_per_env s;
     env_assets_info := env_assets_info s; _current_target := v;
     current_target_model_id := current_target_model_id s;
     target_pos := target_pos s; target_quat := target_quat s;
     target_goal_pos := target_goal_pos s;
     target_goal_rot := target_goal_rot s |}.

Definition set_current_target_model_id (v : list nat) (s : AssemblyKitEnv)
  : AssemblyKitEnv :=
  {| cfg := cfg s; scene := scene s; num_envs := num_envs s;
     max_episode_length := max_episode_length s;
     episode_length_buf := episode_length_buf s; symmetry := symmetry s;
     robot := robot s; robot_local_grasp_pos := robot_local_grasp_pos s;
     robot_local_grasp_rot := robot_local_grasp_rot s;
     hand_link_idx := hand_link_idx s; kit := kit s; models := models s;
     kit_target_starting_pos := kit_target_starting_pos s;
     model_target_pos := model_target_pos s;
     model_target_rot := model_target_rot s;
     kit_ids_per_env := kit_ids_per_env s;
     env_assets_info := env_assets_info s;
     _current_target := _current_target s; current_target_model_id := v;
     target_pos := target_pos s; target_quat := target_quat s;
     target_goal_pos := target_goal_pos s;
     target_goal_rot := target_goal_rot s |}.

Definition set_target_pos (v : list Vec3) (s : AssemblyKitEnv)
  : AssemblyKitEnv :=
  {| cfg := cfg s; scene := scene s; num_envs := num_envs s;
     max_episode_length := max_episode_length s;
     episode_length_buf := episode_length_buf s; symmetry := symmetry s;
     robot := robot s; robot_local_grasp_pos := robot_local_grasp_pos s;
     robot_local_grasp_rot := robot_local_grasp_rot s;
     hand_link_idx := hand_link_idx s; kit := kit s; models := models s;
     kit_target_starting_pos := kit_target_starting_pos s;
     model_target_pos := model_target_pos s;
     model_target_rot := model_target_rot s;
     kit_ids_per_env := kit_ids_per_env s;
     env_assets_info := env_assets_info s;
     _current_target := _current_target s;
     current_target_model_id := current_target_model_id s; target_pos := v;
     target_quat := target_quat s; target_goal_pos := target_goal_pos s;
     target_goal_rot := target_goal_rot s |}.

Definition set_target_quat (v : list Quat) (s : AssemblyKitEnv)
  : AssemblyKitEnv :=
  {| cfg := cfg s; scene := scene s; num_envs := num_envs s;
     max_episode_length := max_episode_length s;
     episode_length_buf := episode_length_buf s; symmetry := symmetry s;
     robot := robot s; robot_local_grasp_pos := robot_local_grasp_pos s;
     robot_local_grasp_rot := robot_local_grasp_rot s;
     hand_link_idx := hand_link_idx s; kit := kit s; models := models s;
     kit_target_starting_pos := kit_target_starting_pos s;
     model_target_pos := model_target_pos s;
     model_target_rot := model_target_rot s;
     kit_ids_per_env := kit_ids_per_env s;
     env_assets_info := env_assets_info s;
     _current_target := _current_target s;
     current_target_model_id := current_target_model_id s;
     target_pos := target_pos s; target_quat := v;
     target_goal_pos := target_goal_pos s;
     target_goal_rot := target_goal_rot s |}.

Definition set_target_goal_pos (v : list Vec3) (s : AssemblyKitEnv)
  : AssemblyKitEnv :=
  {| cfg := cfg s; scene := scene s; num_envs := num_envs s;
     max_episode_length := max_episode_length s;
     episode_length_buf := episode_length_buf s; symmetry := symmetry s;
     robot := robot s; robot_local_grasp_pos := robot_local_grasp_pos s;
     robot_local_grasp_rot := robot_local_grasp_rot s;
     hand_link_idx := hand_link_idx s; kit := kit s; models := models s;
     kit_target_starting_pos := kit_target_starting_pos s;
     model_target_pos := model_target_pos s;
     model_target_rot := model_target_rot s;
     kit_ids_per_env := kit_ids_per_env s;
     env_assets_info := env_assets_info s;
     _current_target := _current_target s;
     current_target_model_id := current_target_model_id s;
     target_pos := target_pos s; target_quat := target_quat s;
     target_goal_pos := v; target_goal_rot := target_goal_rot s |}.

Definition set_target_goal_rot (v : list R) (s : AssemblyKitEnv)
  : AssemblyKitEnv :=
  {| cfg := cfg s; scene := scene s; num_envs := num_envs s;
     max_episode_length := max_episode_length s;
     episode_length_buf := episode_length_buf s; symmetry := symmetry s;
     robot := robot s; robot_local_grasp_pos := robot_local_grasp_pos s;
     robot_local_grasp_rot := robot_local_grasp_rot s;
     hand_link_idx := hand_link_idx s; kit := kit s; models := models s;
     kit_target_starting_pos := kit_target_starting_pos s;
     model_target_pos := model_target_pos s;
     model_target_rot := model_target_rot s;
     kit_ids_per_env := kit_ids_per_env s;
     env_assets_info := env_assets_info s;
     _current_target := _current_target s;
     current_target_model_id := current_target_model_id s;
     target_pos := target_pos s; target_quat := target_quat s;
     target_goal_pos := target_goal_pos s; target_goal_rot := v |}.

Definition set_models (v : list RigidObject) (s : AssemblyKitEnv)
  : AssemblyKitEnv :=
  {| cfg := cfg s; scene := scene s; num_envs := num_envs s;
     max_episode_length := max_episode_length s;
     episode_length_buf := episode_length_buf s; symmetry := symmetry s;
     robot := robot s; robot_local_grasp_pos := robot_local_grasp_pos s;
     robot_local_grasp_rot := robot_local_grasp_rot s;
     hand_link_idx := hand_link_idx s; kit := kit s; models := v;
     kit_target_starting_pos := kit_target_starting_pos s;
     model_target_pos := model_target_pos s;
     model_target_rot := model_target_rot s;
     kit_ids_per_env := kit_ids_per_env s;
     env_assets_info := env_assets_info s;
     _current_target := _current_target s;
     current_target_model_id := current_target_model_id s;
     target_pos := target_pos s; target_quat := target_quat s;
     target_goal_pos := target_goal_pos s;
     target_goal_rot := target_goal_rot s |}.

(** ** The state monad of the methods of [self] *)

Definition M (A : Type) : Type := AssemblyKitEnv -> res A * AssemblyKitEnv.

Definition ret {A} (a : A) : M A := fun s => (Ok a, s).

Definition bind {A B} (m : M A) (f : A -> M B) : M B :=
  fun s =>
    match m s with
    | (Ok a, s') => f a s'
    | (Raise e, s') => (Raise e, s')
    end.

(** A read of [self], or a pure tensor expression, that may raise. *)
Definition attempt {A} (f : AssemblyKitEnv -> res A) : M A := fun s => (f s, s).

(** A read of [self] that cannot raise. *)
Definition read {A} (f : AssemblyKitEnv -> A) : M A := fun s => (Ok (f s), s).

(** An assignment to attributes of [self]. *)
Definition assign (f : AssemblyKitEnv -> AssemblyKitEnv) : M unit :=
  fun s => (Ok tt, f s).

Declare Scope M_scope.
Delimit Scope M_scope with M.
Notation "x <- m ;; k" := (bind m (fun x => k))
  (at level 100, m at next level, right associativity) : M_scope.
Notation "m ;;; k" := (bind m (fun _ => k))
  (at level 100, right associativity) : M_scope.

(** [for x in l: body x]. *)
Fixpoint for_each {A} (l : list A) (body : A -> M unit) : M unit :=
  match l with
  | [] => ret tt
  | x :: l' => bind (body x) (fun _ => for_each l' body)
  end.

Definition lift {A} (r : res A) : M A := fun s => (r, s).

(** ** Tolerance evaluator *)

Section Evaluator.
Context `{FrameMath}.

Definition zero_pose : Pose := (vzero, (0, 0, 0, 0)).

(** The loop [for idx, model in enumerate(target_models)] of
    [get_target_model_pose], from row [idx] on. *)
Fixpoint fill_target_rows (idx : nat) (target_models : list RigidObject)
    (target_model_pose : list Pose) : res (list Pose) :=
  match target_models with
  | [] => Ok target_model_pose
  | model :: rest =>
      (row <- at_index (root_state_w model) idx ;;
       if (idx <? length target_model_pose)%nat
       then fill_target_rows (S idx) rest (<[idx := row]> target_model_pose)
       else Raise IndexError)%res
  end.

Definition get_target_model_pose (self : AssemblyKitEnv) : res (list Pose) :=
  (target_models <- index_rows (models self) (_current_target self) ;;
   let target_model_pose := replicate (num_envs self) zero_pose in
   target_model_pose <- fill_target_rows 0 target_models target_model_pose ;;
   (* convert to env-local *)
   broadcast_inplace (fun (P : Pose) (o : Vec3) => ((vsub P.1 o, P.2) : Pose))
     target_model_pose (env_origins (scene self)))%res.

(** The blocks "Compute rotational difference considering symmetry" and
    "Adjust symmetry difference" of [is_success]: the final [rot_diff]. *)
Definition is_success_rot_diff (self : AssemblyKitEnv)
    (target_model_pose : list Pose) : res (list R) :=
  (let target_model_quat := snd <$> target_model_pose in
   let target_model_z_rot :=
     (fun q => (euler_xyz_from_quat q).2) <$> target_model_quat in
   let goal_z_rot := target_goal_rot self in
   abs_diff <- broadcast (fun a g => Rabs (a - g)) target_model_z_rot goal_z_rot ;;
   symmetry_val <- index_rows (symmetry self) (current_target_model_id self) ;;
   rot_diff <- broadcast remainder abs_diff symmetry_val ;;
   (* adjust symmetry difference *)
   symmetry_val <- index_rows (symmetry self) (current_target_model_id self) ;;
   let half_symmetry := (fun v => v / 2) <$> symmetry_val in
   cond <- broadcast Rgtb rot_diff half_symmetry ;;
   flipped <- broadcast Rminus symmetry_val rot_diff ;;
   picked <- broadcast (fun (c : bool) (x : R) => (c, x)) cond flipped ;;
   broadcast (fun (cx : bool * R) (y : R) => if cx.1 then cx.2 else y)
             picked rot_diff)%res.

Definition is_success (self : AssemblyKitEnv) (pos_eps rot_eps height_eps : R)
  : res (list bool) :=
  (target_model_pose <- get_target_model_pose self ;;
   (* positional difference (XY-plane) *)
   pos_diff <- broadcast vsub2 (xy <$> target_goal_pos self)
                               ((fun P : Pose => xy P.1) <$> target_model_pose) ;;
   let pos_diff_norm := norm2 <$> pos_diff in
   let pos_correct := (fun d => Rltb d pos_eps) <$> pos_diff_norm in
   (* rotational difference considering symmetry *)
   rot_diff <- is_success_rot_diff self target_model_pose ;;
   let rot_correct := (fun d => Rltb d rot_eps) <$> rot_diff in
   (* height: is the object placed in the slot *)
   let height_correct :=
     (fun P : Pose => Rltb (vz P.1) height_eps) <$> target_model_pose in
   pr <- broadcast andb pos_correct rot_correct ;;
   broadcast andb pr height_correct)%res.

(** The default tolerances of [is_success]. *)
Definition pos_eps_default : R := 0.02.
Definition rot_eps_default : R := radians 4.
Definition height_eps_default : R := 0.003.

Definition is_success_default (self : AssemblyKitEnv) : res (list bool) :=
  is_success self pos_eps_default rot_eps_default height_eps_default.

Definition compute_rewards (self : AssemblyKitEnv) : res (list Z) :=
  (success_mask <- is_success_default self ;;
   let ones := (fun _ : bool => 1%Z) <$> success_mask in
   Ok (zip_with (fun (c : bool) (o : Z) => if c then o else (- o)%Z)
                success_mask ones))%res.

Definition _get_rewards (self : AssemblyKitEnv) : res (list Z) :=
  compute_rewards self.

Definition _get_dones (self : AssemblyKitEnv) : res (list bool * list bool) :=
  let time_out :=
    (fun e => bool_decide (e >= max_episode_length self - 1)%Z)
      <$> episode_length_buf self in
  (terminated <- is_success_default self ;;
   Ok (terminated, time_out))%res.

(** ** TCP resolver *)

Definition _compute_tcp_world (self : AssemblyKitEnv) (env_ids : option (list nat))
  : res (list Vec3 * list Quat) :=
  let env_ids := default (seq 0 (num_envs self)) env_ids in
  (* read current wrist world-pose *)
  (hand_pos_world <-
     index_pairs (body_pos_w (robot self)) env_ids
                 (replicate (length env_ids) (hand_link_idx self)) ;;
   hand_rot_world <-
     index_pairs (body_quat_w (robot self)) env_ids
                 (replicate (length env_ids) (hand_link_idx self)) ;;
   (* combine with stored local grasps to get world TCP *)
   local_rot <- index_rows (robot_local_grasp_rot self) env_ids ;;
   local_pos <- index_rows (robot_local_grasp_pos self) env_ids ;;
   let global_tcp :=
     zip_with (fun (a b : Quat * Vec3) => tf_combine a.1 a.2 b.1 b.2)
              (zip hand_rot_world hand_pos_world) (zip local_rot local_pos) in
   let global_tcp_rot := fst <$> global_tcp in
   let global_tcp_pos_world := snd <$> global_tcp in
   (* convert world TCP pos to env-local TCP pos *)
   env_origins <- index_rows (env_origins (scene self)) env_ids ;;
   let tcp_pos_env := zip_with vsub global_tcp_pos_world env_origins in
   Ok (tcp_pos_env, global_tcp_rot))%res.

End Evaluator.

(** ** Episode sampler *)

(** The random numbers one call of [sample_models_for_envs] receives, by
    the call which draws them: [k] is the position in the batch. *)
Record Draws : Type := {
  draw_choice : nat -> nat;        (* randint(0, num_models) *)
  draw_sampled_idx : nat -> nat;   (* randint(0, starting positions) *)
  draw_rot_t : nat -> R;           (* rand, the target's yaw *)
  draw_do_pick : nat -> R;         (* rand, compared with 0.5 *)
  draw_cols : nat -> nat           (* randint(0, num_models - 1) *)
}.

(** Modelled from the spec: [RigidObject.write_root_pose_to_sim], which is
    not part of the task file; "write_pose(object_reference, env_subset,
    position, quaternion) to set an object's pose": row [k] of [root_pose]
    becomes the pose of environment [env_ids[k]]. *)
Definition write_root_pose_to_sim (model : RigidObject) (root_pose : list Pose)
    (env_ids : list nat) : res RigidObject :=
  (w <- index_put (root_state_w model) env_ids root_pose ;;
   Ok {| default_root_state := default_root_state model; root_state_w := w |})%res.

Section Sampler.
Context `{FrameMath}.

(** The staging offset [[-self.cfg.table_offset, 0.2, 0.1]]. *)
Definition side_pos (self : AssemblyKitEnv) : Vec3 :=
  (- table_offset (cfg self), 0.2, 0.1).

(** The body of [for model_idx in range(num_models)]. *)
Definition place_model (env_ids choice : list nat)
    (target_pos : list Vec3) (target_quat : list Quat)
    (envs_o_flat idx_o_flat : list nat) (pos_o_flat : list Vec3)
    (rot_o_flat : list R) (model_idx : nat) : M unit :=
  (model <- attempt (fun self => at_index (models self) model_idx) ;;
   default <- lift (index_rows (default_root_state model) env_ids) ;;
   let mask_t := (fun c => Nat.eqb c model_idx) <$> choice in
   default <-
     lift (if any mask_t then
             let envs_t := select mask_t env_ids in
             let poses_t := select mask_t target_pos in
             let quats_t := select mask_t target_quat in
             (d <- index_put_with (fun (P : Pose) v => (v, P.2)) default envs_t poses_t ;;
              index_put_with (fun (P : Pose) q => (P.1, q)) d envs_t quats_t)%res
           else Ok default) ;;
   let mask_o := (fun i => Nat.eqb i model_idx) <$> idx_o_flat in
   default <-
     lift (if any mask_o then
             let envs_o := select mask_o envs_o_flat in
             let poses_o := select mask_o pos_o_flat in
             let rots_o := select mask_o rot_o_flat in
             let quats_o := quat_from_euler_xyz 0 0 <$> rots_o in
             (d <- index_put_with (fun (P : Pose) v => (v, P.2)) default envs_o poses_o ;;
              index_put_with (fun (P : Pose) q => (P.1, q)) d envs_o quats_o)%res
           else Ok default) ;;
   written <- lift (write_root_pose_to_sim model default env_ids) ;;
   assign (fun self => set_models (<[model_idx := written]> (models self)) self))%M.

Definition sample_models_for_envs (rng : Draws) (env_ids : list nat) : M unit :=
  (let num_envs := length env_ids in
   num_models <- attempt (fun self => shape1 (model_target_pos self)) ;;
   (* determine kit positions *)
   kit_ids <- attempt (fun self => index_rows (kit_ids_per_env self) env_ids) ;;
   kit_def <- attempt (fun self => index_rows (default_root_state (kit self)) env_ids) ;;
   origins <- attempt (fun self => index_rows (env_origins (scene self)) env_ids) ;;
   let kit_pos_w := zip_with vadd (fst <$> kit_def) origins in
   (* pulling JSON target poses for the other model *)
   model_rel_pos <- attempt (fun self => index_rows (model_target_pos self) kit_ids) ;;
   model_rel_rot <- attempt (fun self => index_rows (model_target_rot self) kit_ids) ;;
   (* pick target model and compute other model indices *)
   choice <- lift (randint 0 num_models num_envs (draw_choice rng)) ;;
   current_target <- attempt (fun self => index_put (_current_target self) env_ids choice) ;;
   assign (set__current_target current_target) ;;;
   model_id <- attempt (fun self => gather1 (env_assets_info self) (_current_target self)) ;;
   assign (set_current_target_model_id model_id) ;;;
   let all_cols := (fun _ => seq 0 num_models) <$> choice in
   let others_mask :=
     zip_with (fun cols c => (fun j => negb (Nat.eqb j c)) <$> cols) all_cols choice in
   others_idx <-
     lift (view num_envs (num_models - 1)
                (select (concat others_mask) (concat all_cols))) ;;
   (* compute and target starting poses *)
   num_starts <- attempt (fun self => shape1 (kit_target_starting_pos self)) ;;
   sampled_idx <- lift (randint 0 num_starts num_envs (draw_sampled_idx rng)) ;;
   offsets <-
     attempt (fun self => index_pairs (kit_target_starting_pos self) kit_ids sampled_idx) ;;
   let target_pos := zip_with vadd kit_pos_w offsets in
   let rot_t := (fun u => u * 2 * PI) <$> rand num_envs (draw_rot_t rng) in
   let target_quat := quat_from_euler_xyz 0 0 <$> rot_t in
   (* Storing the target poses and orientations for observation and reward *)
   assign (set_target_pos offsets) ;;;
   assign (set_target_quat target_quat) ;;;
   goal_pos <- lift (index_pairs model_rel_pos (seq 0 (length model_rel_pos)) choice) ;;
   assign (set_target_goal_pos goal_pos) ;;;
   goal_rot <- lift (index_pairs model_rel_rot (seq 0 (length model_rel_pos)) choice) ;;
   assign (set_target_goal_rot goal_rot) ;;;
   (* compute world-space poses + rots for others models *)
   others_pos <-
     lift (res_map (fun ri : list Vec3 * list nat => index_rows ri.1 ri.2)
                   (zip model_rel_pos others_idx)) ;;
   others_rot <-
     lift (res_map (fun ri : list R * list nat => index_rows ri.1 ri.2)
                   (zip model_rel_rot others_idx)) ;;
   let mask_other_to_side := (fun row : list R => (fun _ => false) <$> row) <$> others_rot in
   let do_pick := (fun u => Rltb u 0.5) <$> rand num_envs (draw_do_pick rng) in
   cols <- lift (randint 0 (num_models - 1) num_envs (draw_cols rng)) ;;
   let rows := seq 0 num_envs in
   mask_other_to_side <-
     lift (index_put2 mask_other_to_side (select do_pick rows) (select do_pick cols) true) ;;
   side <- read side_pos ;;
   let others_pos :=
     zip_with (zip_with (fun (b : bool) (p : Vec3) => if b then side else p))
              mask_other_to_side others_pos in
   let others_pos_w := zip_with (fun kp row => vadd kp <$> row) kit_pos_w others_pos in
   let others_rot_w := others_rot in
   (* flatten for per-model grouping *)
   let envs_o_flat := concat ((fun e => replicate (num_models - 1) e) <$> env_ids) in
   let idx_o_flat := concat others_idx in
   let pos_o_flat := concat others_pos_w in
   let rot_o_flat := concat others_rot_w in
   for_each (seq 0 num_models)
     (place_model env_ids choice target_pos target_quat
                  envs_o_flat idx_o_flat pos_o_flat rot_o_flat))%M.

End Sampler.

(** ** The properties, in the words of the specification *)

(** "Take the angular difference between current and goal Z-rotation,
    reduce modulo the shape's symmetry period.  If the wrapped difference
    exceeds half the symmetry period, replace it with (period -
    difference)." *)
Definition wrapped_difference (raw period : R) : R := remainder raw period.

Definition fold_to_shorter_arc (raw period : R) : R :=
  let d := wrapped_difference raw period in
  if decide (d > period / 2) then period - d else d.

Definition folded_rot_error (current goal period : R) : R :=
  fold_to_shorter_arc (Rabs (current - goal)) period.

(** "Euclidean distance between target's current XY position and goal XY
    position." *)
Definition xy_distance (current goal : Vec3) : R :=
  sqrt ((vx current - vx goal) * (vx current - vx goal)
        + (vy current - vy goal) * (vy current - vy goal)).

(** The pose of the target object of environment [i], in
    environment-local coordinates. *)
Definition target_pose_of (self : AssemblyKitEnv) (i : nat) : option Pose :=
  slot ← _current_target self !! i;
  model ← models self !! slot;
  P ← root_state_w model !! i;
  o ← env_origins (scene self) !! i;
  Some (vsub P.1 o, P.2).

(** The world position of the kit of environment [e]. *)
Definition kit_world_pos (self : AssemblyKitEnv) (e : nat) : option Vec3 :=
  P ← default_root_state (kit self) !! e;
  o ← env_origins (scene self) !! e;
  Some (vadd P.1 o).

(** The goal row of slot [slot] of the kit of environment [e]. *)
Definition kit_goal_pos (self : AssemblyKitEnv) (e slot : nat) : option Vec3 :=
  kit_id ← kit_ids_per_env self !! e;
  rows ← model_target_pos self !! kit_id;
  rows !! slot.

Definition kit_goal_rot (self : AssemblyKitEnv) (e slot : nat) : option R :=
  kit_id ← kit_ids_per_env self !! e;
  rows ← model_target_rot self !! kit_id;
  rows !! slot.

(** The pose recorded for object [slot] of environment [e]. *)
Definition object_pose (self : AssemblyKitEnv) (slot e : nat) : option Pose :=
  model ← models self !! slot;
  root_state_w model !! e.

(** The buffers the evaluator reads have one row per environment, and the
    indices they hold are in range. *)
Record evaluator_ready (self : AssemblyKitEnv) : Prop := {
  ready_current_target : length (_current_target self) = num_envs self;
  ready_slots : Forall (fun t => t < length (models self))%nat (_current_target self);
  ready_models :
    Forall (fun m => length (root_state_w m) = num_envs self) (models self);
  ready_origins : length (env_origins (scene self)) = num_envs self;
  ready_goal_pos : length (target_goal_pos self) = num_envs self;
  ready_goal_rot : length (target_goal_rot self) = num_envs self;
  ready_model_id : length (current_target_model_id self) = num_envs self;
  ready_symmetry :
    Forall (fun t => t < length (symmetry self))%nat (current_target_model_id self)
}.

(** The buffers the TCP resolver reads have one row per environment, each
    robot has the wrist link, and [env_ids] are environments. *)
Record tcp_ready (self : AssemblyKitEnv) (env_ids : list nat) : Prop := {
  tcp_env_ids : Forall (fun e => e < num_envs self)%nat env_ids;
  tcp_body_pos : length (body_pos_w (robot self)) = num_envs self;
  tcp_body_quat : length (body_quat_w (robot self)) = num_envs self;
  tcp_hand_pos :
    Forall (fun row => hand_link_idx self < length row)%nat (body_pos_w (robot self));
  tcp_hand_quat :
    Forall (fun row => hand_link_idx self < length row)%nat (body_quat_w (robot self));
  tcp_local_pos : length (robot_local_grasp_pos self) = num_envs self;
  tcp_local_rot : length (robot_local_grasp_rot self) = num_envs self;
  tcp_origins : length (env_origins (scene self)) = num_envs self
}.

(** A wrist at the identity transform combines to the local pose. *)
Definition identity_is_left_unit `{FrameMath} : Prop :=
  forall (q : Quat) (t : Vec3), tf_combine quat_identity vzero q t = (q, t).

(** ** The sampler over a prefix of the environments *)

(** The root state which one pass of the loop of [sample_models_for_envs]
    computes for the model of slot [model_idx] and writes: [place_model]
    without its reads and writes of [self]. *)
Definition place_rows `{FrameMath} (env_ids choice : list nat)
    (target_pos : list Vec3) (target_quat : list Quat)
    (envs_o_flat idx_o_flat : list nat) (pos_o_flat : list Vec3)
    (rot_o_flat : list R) (model_idx : nat) (model : RigidObject)
  : res RigidObject :=
  (default <- index_rows (default_root_state model) env_ids ;;
   let mask_t := (fun c => Nat.eqb c model_idx) <$> choice in
   default <-
     (if any mask_t then
        let envs_t := select mask_t env_ids in
        let poses_t := select mask_t target_pos in
        let quats_t := select mask_t target_quat in
        (d <- index_put_with (fun (P : Pose) v => (v, P.2)) default envs_t poses_t ;;
         index_put_with (fun (P : Pose) q => (P.1, q)) d envs_t quats_t)
      else Ok default) ;;
   let mask_o := (fun i => Nat.eqb i model_idx) <$> idx_o_flat in
   default <-
     (if any mask_o then
        let envs_o := select mask_o envs_o_flat in
        let poses_o := select mask_o pos_o_flat in
        let rots_o := select mask_o rot_o_flat in
        let quats_o := quat_from_euler_xyz 0 0 <$> rots_o in
        (d <- index_put_with (fun (P : Pose) v => (v, P.2)) default envs_o poses_o ;;
         index_put_with (fun (P : Pose) q => (P.1, q)) d envs_o quats_o)
      else Ok default) ;;
   write_root_pose_to_sim model default env_ids)%res.

(** The values an indexed store writes to row [i], in the order written. *)
Definition written_to {V} (i : nat) (idx : list nat) (vals : list V) : list V :=
  select ((fun e => Nat.eqb e i) <$> idx) vals.

(** The slot drawn as target of the environment at position [k] of the
    batch, among [K] slots. *)
Definition drawn_target (K : nat) (rng : Draws) (k : nat) : nat :=
  (0 + draw_choice rng k mod (K - 0))%nat.

(** The column drawn for staging, among the [K - 1] distractors. *)
Definition drawn_side_col (K : nat) (rng : Draws) (k : nat) : nat :=
  (0 + draw_cols rng k mod (K - 1 - 0))%nat.

(** The starting position drawn, among [n] candidates. *)
Definition drawn_start (n : nat) (rng : Draws) (k : nat) : nat :=
  (0 + draw_sampled_idx rng k mod (n - 0))%nat.

(** The distractor slots of an environment whose target is slot [c], in
    increasing order. *)
Definition distractor_slots (K c : nat) : list nat :=
  seq 0 c ++ seq (S c) (K - S c).

(** "Select exactly one distractor slot of that environment": the slot the
    staging draw of position [k] designates. *)
Definition staged_slot (K : nat) (rng : Draws) (k : nat) : option nat :=
  distractor_slots K (drawn_target K rng k) !! drawn_side_col K rng k.

(** The pose the sampler is to give object [j] of the environment at
    position [e] of the batch: the target goes to the kit's world position
    plus the starting offset drawn, a distractor to the kit's world position
    plus its goal row, or plus the staging offset if it is the one staged. *)
Definition sampled_pose `{FrameMath} (self : AssemblyKitEnv) (rng : Draws)
    (K n_starts e j : nat) : option Pose :=
  kp ← kit_world_pos self e;
  if decide (j = drawn_target K rng e) then
    kit_id ← kit_ids_per_env self !! e;
    starts ← kit_target_starting_pos self !! kit_id;
    offset ← starts !! drawn_start n_starts rng e;
    Some (vadd kp offset, quat_from_euler_xyz 0 0 (draw_rot_t rng e * 2 * PI))
  else
    g ← kit_goal_pos self e j;
    r ← kit_goal_rot self e j;
    let staged := Rltb (draw_do_pick rng e) 0.5
                  && bool_decide (staged_slot K rng e = Some j) in
    Some (vadd kp (if staged then side_pos self else g),
          quat_from_euler_xyz 0 0 r).

(** The buffers the sampler reads are those of [num_envs] environments
    whose kits have [K] slots and [n_starts] starting positions. *)
Record sampler_ready (self : AssemblyKitEnv) (K n_starts : nat) : Prop := {
  sr_pos_rows : model_target_pos self <> [];
  sr_pos_shape : Forall (fun row => length row = K) (model_target_pos self);
  sr_rot_kits : length (model_target_rot self) = length (model_target_pos self);
  sr_rot_shape : Forall (fun row => length row = K) (model_target_rot self);
  sr_start_kits :
    length (kit_target_starting_pos self) = length (model_target_pos self);
  sr_start_rows : (0 < n_starts)%nat;
  sr_start_shape :
    Forall (fun row => length row = n_starts) (kit_target_starting_pos self);
  sr_kit_ids : length (kit_ids_per_env self) = num_envs self;
  sr_kit_ids_range :
    Forall (fun i => i < length (model_target_pos self))%nat (kit_ids_per_env self);
  sr_kit : length (default_root_state (kit self)) = num_envs self;
  sr_origins : length (env_origins (scene self)) = num_envs self;
  sr_current_target : length (_current_target self) = num_envs self;
  sr_current_target_range : Forall (fun t => t < K)%nat (_current_target self);
  sr_assets : length (env_assets_info self) = num_envs self;
  sr_assets_shape : Forall (fun row => length row = K) (env_assets_info self);
  sr_models : length (models self) = K;
  sr_models_default :
    Forall (fun mo => length (default_root_state mo) = num_envs self) (models self);
  sr_models_state :
    Forall (fun mo => length (root_state_w mo) = num_envs self) (models self)
}.

(** ** A reference instance of the frame math

    The formulas of the two libraries, over the reals. *)

Definition quat_mul (a b : Quat) : Quat :=
  let '(w1, x1, y1, z1) := a in
  let '(w2, x2, y2, z2) := b in
  let ww := (z1 + x1) * (x2 + y2) in
  let yy := (w1 - y1) * (w2 + z2) in
  let zz := (w1 + y1) * (w2 - z2) in
  let xx := ww + yy + zz in
  let qq := 0.5 * (xx + (z1 - x1) * (x2 - y2)) in
  (qq - ww + (z1 - y1) * (y2 - z2),
   qq - xx + (x1 + w1) * (x2 + w2),
   qq - yy + (w1 - x1) * (y2 + z2),
   qq - zz + (z1 + y1) * (w2 - x2)).

Definition cross (a b : Vec3) : Vec3 :=
  (vy a * vz b - vz a * vy b,
   vz a * vx b - vx a * vz b,
   vx a * vy b - vy a * vx b).

Definition quat_apply (a : Quat) (b : Vec3) : Vec3 :=
  let '(w, x, y, z) := a in
  let xyz : Vec3 := (x, y, z) in
  let c := cross xyz b in
  let t : Vec3 := (vx c * 2, vy c * 2, vz c * 2) in
  let u := cross xyz t in
  (vx b + w * vx t + vx u, vy b + w * vy t + vy u, vz b + w * vz t + vz u).

Definition atan2 (y x : R) : R :=
  if decide (x > 0) then atan (y / x)
  else if decide (x < 0)
       then (if decide (y < 0) then atan (y / x) - PI else atan (y / x) + PI)
       else if decide (y > 0) then PI / 2
            else if decide (y < 0) then - PI / 2 else 0.

Definition copysign (m s : R) : R := if decide (s < 0) then - Rabs m else Rabs m.

Definition isaac_quat_from_euler_xyz (roll pitch yaw : R) : Quat :=
  let cy := cos (yaw * 0.5) in
  let sy := sin (yaw * 0.5) in
  let cr := cos (roll * 0.5) in
  let sr := sin (roll * 0.5) in
  let cp := cos (pitch * 0.5) in
  let sp := sin (pitch * 0.5) in
  (cy * cr * cp + sy * sr * sp,
   cy * sr * cp - sy * cr * sp,
   cy * cr * sp + sy * sr * cp,
   sy * cr * cp - cy * sr * sp).

Definition isaac_euler_xyz_from_quat (quat : Quat) : R * R * R :=
  let '(q_w, q_x, q_y, q_z) := quat in
  let sin_roll := 2 * (q_w * q_x + q_y * q_z) in
  let cos_roll := 1 - 2 * (q_x * q_x + q_y * q_y) in
  let roll := atan2 sin_roll cos_roll in
  let sin_pitch := 2 * (q_w * q_y - q_z * q_x) in
  let pitch :=
    if decide (Rabs sin_pitch < 1) then asin sin_pitch
    else copysign (PI / 2) sin_pitch in
  let sin_yaw := 2 * (q_w * q_z + q_x * q_y) in
  let cos_yaw := 1 - 2 * (q_y * q_y + q_z * q_z) in
  let yaw := atan2 sin_yaw cos_yaw in
  (remainder roll (2 * PI), remainder pitch (2 * PI), remainder yaw (2 * PI)).

Definition isaac_frame_math : FrameMath := {|
  tf_combine q1 t1 q2 t2 := (quat_mul q1 q2, vadd (quat_apply q1 t2) t1);
  quat_from_euler_xyz := isaac_quat_from_euler_xyz;
  euler_xyz_from_quat := isaac_euler_xyz_from_quat
|}.

(** ** What setup hands to the sampler, and what a reset leaves alone *)

(** The catalogue, the kit and the objects are those of [num_envs]
    environments whose kits have [K] slots and [n_starts] starting
    positions: [sampler_ready] without the target column. *)
Record catalogue_ready (self : AssemblyKitEnv) (K n_starts : nat) : Prop := {
  cr_pos_rows : model_target_pos self <> [];
  cr_pos_shape : Forall (fun row => length row = K) (model_target_pos self);
  cr_rot_kits : length (model_target_rot self) = length (model_target_pos self);
  cr_rot_shape : Forall (fun row => length row = K) (model_target_rot self);
  cr_start_kits :
    length (kit_target_starting_pos self) = length (model_target_pos self);
  cr_start_rows : (0 < n_starts)%nat;
  cr_start_shape :
    Forall (fun row => length row = n_starts) (kit_target_starting_pos self);
  cr_kit_ids : length (kit_ids_per_env self) = num_envs self;
  cr_kit_ids_range :
    Forall (fun i => i < length (model_target_pos self))%nat (kit_ids_per_env self);
  cr_kit : length (default_root_state (kit self)) = num_envs self;
  cr_origins : length (env_origins (scene self)) = num_envs self;
  cr_assets : length (env_assets_info self) = num_envs self;
  cr_assets_shape : Forall (fun row => length row = K) (env_assets_info self);
  cr_models : length (models self) = K;
  cr_models_default :
    Forall (fun mo => length (default_root_state mo) = num_envs self) (models self);
  cr_models_state :
    Forall (fun mo => length (root_state_w mo) = num_envs self) (models self)
}.

(** The attributes [sample_models_for_envs] never assigns. *)
Record same_setup (self self' : AssemblyKitEnv) : Prop := {
  same_cfg : cfg self' = cfg self;
  same_scene : scene self' = scene self;
  same_num_envs : num_envs self' = num_envs self;
  same_max_episode_length : max_episode_length self' = max_episode_length self;
  same_episode_length_buf : episode_length_buf self' = episode_length_buf self;
  same_symmetry : symmetry self' = symmetry self;
  same_robot : robot self' = robot self;
  same_robot_local_grasp_pos : robot_local_grasp_pos self' = robot_local_grasp_pos self;
  same_robot_local_grasp_rot : robot_local_grasp_rot self' = robot_local_grasp_rot self;
  same_hand_link_idx : hand_link_idx self' = hand_link_idx self;
  same_kit : kit self' = kit self;
  same_kit_target_starting_pos :
    kit_target_starting_pos self' = kit_target_starting_pos self;
  same_model_target_pos : model_target_pos self' = model_target_pos self;
  same_model_target_rot : model_target_rot self' = model_target_rot self;
  same_kit_ids_per_env : kit_ids_per_env self' = kit_ids_per_env self;
  same_env_assets_info : env_assets_info self' = env_assets_info self
}.

(** The shape id of the slot recorded as target of environment [e]. *)
Definition target_shape_of (self : AssemblyKitEnv) (e : nat) : option nat :=
  row ← env_assets_info self !! e;
  slot ← _current_target self !! e;
  row !! slot.

(** ** Observations *)

(** The columns of a position, of a quaternion, and of the first seven
    columns of a root state. *)
Definition vec3_cols (v : Vec3) : list R := [vx v; vy v; vz v].
Definition quat_cols (q : Quat) : list R := [q.1.1.1; q.1.1.2; q.1.2; q.2].
Definition pose_cols (P : Pose) : list R := vec3_cols P.1 ++ quat_cols P.2.

(** [torch.nn.functional.one_hot(index, num_classes=num_classes).float()]
    for class values which are not negative: a class value which is not
    smaller than [num_classes] raises. *)
Definition one_hot (index : list nat) (num_classes : nat) : res (list (list R)) :=
  if forallb (fun c => c <? num_classes)%nat index
  then Ok ((fun c => (fun j => if (j =? c)%nat then 1 else 0) <$> seq 0 num_classes)
             <$> index)
  else Raise RuntimeError.

(** [torch.cat(tensors, dim=-1)] of tensors of two dimensions: the rows are
    joined, and every tensor must have as many rows as the first. *)
Definition cat (tensors : list (list (list R))) : res (list (list R)) :=
  match tensors with
  | [] => Raise RuntimeError
  | t :: ts =>
      if forallb (fun t' => length t' =? length t)%nat ts
      then Ok (foldl (zip_with app) t ts)
      else Raise RuntimeError
  end.

(** What [_get_observations] returns under the key ["policy"]: the state
    tensor, or the camera image of every environment (rows of pixels of
    three channels). *)
Inductive PolicyObs : Type :=
| StateObs (state_obs : list (list R))
| PixelObs (pixels : list (list (list (R * R * R)))).

(** [rgb.to(torch.float32) / 255.0] on the three channels of a pixel. *)
Definition to_unit (px : Z * Z * Z) : R * R * R :=
  (IZR px.1.1 / 255, IZR px.1.2 / 255, IZR px.2 / 255).

Section Observations.
Context `{FrameMath}.

(** [num_shape_types] is [self.num_shape_types], [obs_mode] is
    [self.cfg.obs_mode], and [rgb] the ["rgb"] output of the camera of the
    scene, bytes kept as integers. *)
Definition _get_observations (self : AssemblyKitEnv) (num_shape_types : nat)
    (obs_mode : string) (rgb : list (list (list (Z * Z * Z)))) : res PolicyObs :=
  (tcp <- _compute_tcp_world self None ;;
   let tcp_pos_env := tcp.1 in
   let tcp_rot := tcp.2 in
   target_model_pose <- get_target_model_pose self ;;
   shape_one_hot <- one_hot (current_target_model_id self) num_shape_types ;;
   to_tcp <- broadcast vsub (fst <$> target_model_pose) tcp_pos_env ;;
   to_goal <- broadcast vsub (target_goal_pos self) (fst <$> target_model_pose) ;;
   state_obs <-
     cat [vec3_cols <$> tcp_pos_env;
          quat_cols <$> tcp_rot;
          pose_cols <$> target_model_pose;
          vec3_cols <$> to_tcp;
          vec3_cols <$> target_goal_pos self;
          (fun r : R => [r]) <$> target_goal_rot self;
          vec3_cols <$> to_goal;
          shape_one_hot] ;;
   let pixels := fmap (M := list) (fmap (M := list) (fmap (M := list) to_unit)) rgb in
   (* return according to obs_mode *)
   if String.eqb obs_mode "state" then Ok (StateObs state_obs)
   else Ok (PixelObs pixels))%res.

End Observations.

(** ** The local TCP, computed once *)

(** [tf_inverse] (isaacsim) joins the frame math. *)
Class FrameInverse : Type := {
  (** [tf_inverse(q, t)] returns [(q_inv, t_inv)]. *)
  tf_inverse : Quat -> Vec3 -> Quat * Vec3
}.

(** The USD stage as [get_env_local_pose] reads it: the translation and
    the rotation quaternion (real part first) of the local-to-world
    transform of the prim at a path. *)
Definition Stage : Type := string -> Vec3 * Quat.

Section LocalTcp.
Context `{FrameMath} `{FrameInverse}.

Definition get_env_local_pose (stage : Stage) (env_origin : Vec3)
    (prim_path : string) : Pose :=
  let world_tf := stage prim_path in
  let world_pos := world_tf.1 in
  let world_quat := world_tf.2 in
  let px := vx world_pos - vx env_origin in
  let py := vy world_pos - vy env_origin in
  let pz := vz world_pos - vz env_origin in
  ((px, py, pz), world_quat).

Definition compute_local_tcp (stage : Stage) (env_origin : Vec3)
    (wrist_prim_path lfinger_prim_path rfinger_prim_path : string)
    (y_offset : R) : Vec3 * Quat :=
  (* 1) initial wrist, left-finger, right-finger poses in env-local coords *)
  let wrist_pose := get_env_local_pose stage env_origin wrist_prim_path in
  let lfinger_pose := get_env_local_pose stage env_origin lfinger_prim_path in
  let rfinger_pose := get_env_local_pose stage env_origin rfinger_prim_path in
  (* 2) midpoint-finger pose (env-local) *)
  let finger_mid : Pose :=
    (((vx lfinger_pose.1 + vx rfinger_pose.1) / 2,
      (vy lfinger_pose.1 + vy rfinger_pose.1) / 2,
      (vz lfinger_pose.1 + vz rfinger_pose.1) / 2),
     lfinger_pose.2) in
  (* 3) invert wrist pose *)
  let wrist_pos_env := wrist_pose.1 in
  let wrist_quat_env := wrist_pose.2 in
  let wrist_inv := tf_inverse wrist_quat_env wrist_pos_env in
  (* 4) combine wrist-inverse with finger_mid to get TCP in wrist-frame *)
  let local_grasp := tf_combine wrist_inv.1 wrist_inv.2 finger_mid.2 finger_mid.1 in
  (* 5) small offset along wrist-Y *)
  let local_grasp_pos := vadd local_grasp.2 (0, y_offset, 0) in
  (local_grasp_pos, local_grasp.1).

(** The default of [y_offset]. *)
Definition y_offset_default : R := 0.04.

(** The prim of a link of the robot of environment [i]. *)
Definition robot_prim_path (i : nat) (link : string) : string :=
  ("/World/envs/env_" +:+ pretty i +:+ "/Robot/" +:+ link)%string.

(** [torch.stack(rows, dim=0)]: an empty list of tensors raises. *)
Definition stack {A} (rows : list A) : res (list A) :=
  match rows with
  | [] => Raise RuntimeError
  | _ => Ok rows
  end.

(** The block "Compute and store local TCP once" of [__init__]: the two
    tensors it assigns to [self.robot_local_grasp_pos] and
    [self.robot_local_grasp_rot]. *)
Definition init_local_tcp (stage : Stage) (self : AssemblyKitEnv)
  : res (list Vec3 * list Quat) :=
  (let origins := env_origins (scene self) in
   local_list <-
     res_map (fun i =>
                env_origin <- at_index origins i ;;
                Ok (compute_local_tcp stage env_origin
                      (robot_prim_path i "panda_link7")
                      (robot_prim_path i "panda_leftfinger")
                      (robot_prim_path i "panda_rightfinger")
                      y_offset_default))
             (seq 0 (num_envs self)) ;;
   robot_local_grasp_pos <- stack (fst <$> local_list) ;;
   robot_local_grasp_rot <- stack (snd <$> local_list) ;;
   Ok (robot_local_grasp_pos, robot_local_grasp_rot))%res.

(** [self] once [__init__] has stored the two tensors. *)
Definition with_local_tcp (local : list Vec3 * list Quat) (s : AssemblyKitEnv)
  : AssemblyKitEnv :=
  {| cfg := cfg s; scene := scene s; num_envs := num_envs s;
     max_episode_length := max_episode_length s;
     episode_length_buf := episode_length_buf s; symmetry := symmetry s;
     robot := robot s; robot_local_grasp_pos := local.1;
     robot_local_grasp_rot := local.2;
     hand_link_idx := hand_link_idx s; kit := kit s; models := models s;
     kit_target_starting_pos := kit_target_starting_pos s;
     model_target_pos := model_target_pos s;
     model_target_rot := model_target_rot s;
     kit_ids_per_env := kit_ids_per_env s;
     env_assets_info := env_assets_info s;
     _current_target := _current_target s;
     current_target_model_id := current_target_model_id s;
     target_pos := target_pos s; target_quat := target_quat s;
     target_goal_pos := target_goal_pos s;
     target_goal_rot := target_goal_rot s |}.

End LocalTcp.

(** [quat_conjugate] and [tf_inverse], by the formulas of the library. *)
Definition quat_conjugate (a : Quat) : Quat :=
  let '(w, x, y, z) := a in (w, - x, - y, - z).

Definition isaac_tf_inverse (q : Quat) (t : Vec3) : Quat * Vec3 :=
  let q_inv := quat_conjugate q in
  let r := quat_apply q_inv t in
  (q_inv, (- vx r, - vy r, - vz r)).

Definition isaac_frame_inverse : FrameInverse := {| tf_inverse := isaac_tf_inverse |}.

(** ** Scene setup: the kit catalogue and the lookup tables *)

(** Exceptions of the setup code: two of Python's own, and those of tensor
    indexing. *)
Inductive py_exn : Type :=
| ZeroDivisionError
| ValueError
| Exn (e : exn).

Inductive outcome (A : Type) : Type :=
| Returns (a : A)
| Raises (e : py_exn).
Arguments Returns {A} a.
Arguments Raises {A} e.

Definition outcome_bind {A B} (r : outcome A) (f : A -> outcome B) : outcome B :=
  match r with
  | Returns a => f a
  | Raises e => Raises e
  end.

Definition of_res {A} (r : res A) : outcome A :=
  match r with
  | Ok a => Returns a
  | Raise e => Raises (Exn e)
  end.

Declare Scope outcome_scope.
Delimit Scope outcome_scope with outcome.
Notation "x <- r ;; k" := (outcome_bind r (fun x => k))
  (at level 100, r at next level, right associativity) : outcome_scope.

(** A list comprehension whose element expression may raise. *)
Fixpoint outcome_map {A B} (f : A -> outcome B) (l : list A) : outcome (list B) :=
  match l with
  | [] => Returns []
  | a :: l' =>
      match f a with
      | Raises e => Raises e
      | Returns b =>
          match outcome_map f l' with
          | Raises e => Raises e
          | Returns bs => Returns (b :: bs)
          end
      end
  end.

(** [a % b] on Python integers which are not negative. *)
Definition py_mod (a b : nat) : outcome nat :=
  if (b =? 0)%nat then Raises ZeroDivisionError else Returns (a mod b)%nat.

(** A dict of [env_assets_info]. *)
Record AssetsInfo : Type := {
  kit_id : nat;
  model_ids : list nat
}.

Definition _get_assets_info_per_env (self : AssemblyKitEnv)
    (kit_usd_paths : list string) (kit_model_ids : list (list nat))
  : outcome (list AssetsInfo) :=
  let n_envs := num_envs self in
  let num_kits := length kit_usd_paths in
  outcome_map
    (fun env_id =>
       (k <- py_mod env_id num_kits ;;
        k' <- py_mod env_id num_kits ;;
        ids <- of_res (at_index kit_model_ids k') ;;
        Returns {| kit_id := k; model_ids := ids |})%outcome)
    (seq 0 n_envs).

(** [torch.tensor(rows)] for a list of lists: rows of unequal length
    raise. *)
Definition tensor {A} (rows : list (list A)) : outcome (list (list A)) :=
  match rows with
  | [] => Returns []
  | row :: rest =>
      if forallb (fun r => length r =? length row)%nat rest then Returns rows
      else Raises ValueError
  end.

(** [t.max().item()]: a tensor without elements raises. *)
Definition tensor_max (t : list (list nat)) : outcome nat :=
  match concat t with
  | [] => Raises (Exn RuntimeError)
  | x :: xs => Returns (foldl Nat.max x xs)
  end.

(** What [torch.empty] finds in the memory it hands out, by position. *)
Record Uninitialised : Type := {
  empty_current_target : nat -> nat;
  empty_current_others : nat -> nat -> nat
}.

(** The attributes [_init_model_sampling] assigns besides
    [self._current_target]. *)
Record ModelSampling : Type := {
  model_ids_matrix_per_env : list (list nat);
  num_shape_types : nat;
  _current_others : list (list nat)
}.

Definition _init_model_sampling (self : AssemblyKitEnv) (mem : Uninitialised)
  : outcome (AssemblyKitEnv * ModelSampling) :=
  (let model_ids_list := env_assets_info self in
   matrix <- tensor model_ids_list ;;
   largest <- tensor_max matrix ;;
   let shape_types := (largest + 1)%nat in
   let n_envs := length matrix in
   K <- of_res (shape1 matrix) ;;
   let current_target := empty_current_target mem <$> seq 0 n_envs in
   let current_others :=
     (fun e => empty_current_others mem e <$> seq 0 (K - 1)) <$> seq 0 n_envs in
   Returns (set__current_target current_target self,
            {| model_ids_matrix_per_env := matrix;
               num_shape_types := shape_types;
               _current_others := current_others |}))%outcome.

(** A quaternion of norm one. *)
Definition unit_quat (q : Quat) : Prop :=
  q.1.1.1 * q.1.1.1 + q.1.1.2 * q.1.1.2 + q.1.2 * q.1.2 + q.2 * q.2 = 1.

(** *** The kit files and the configurations of the objects *)

(** An entry of ["objects"] of a kit file: its keys ["object_id"], ["pos"]
    and ["rot"]. *)
Record KitObject : Type := {
  object_id : nat;
  pos : Vec3;
  rot : R
}.

(** A kit file as [json.load] returns it: its keys ["objects"] and
    ["start_pos_proposal"]. *)
Record KitJson : Type := {
  objects : list KitObject;
  start_pos_proposal : list Vec3
}.

Record RigidBodyPropertiesCfg : Type := {
  kinematic_enabled : bool;
  disable_gravity : bool;
  enable_gyroscopic_forces : bool;
  solver_position_iteration_count : nat;
  solver_velocity_iteration_count : nat;
  sleep_threshold : R;
  stabilization_threshold : R;
  max_depenetration_velocity : R
}.

Record PreviewSurfaceCfg : Type := {
  diffuse_color : R * R * R;
  emissive_color : R * R * R;
  roughness : R;
  metallic : R;
  opacity : R
}.

Record MultiUsdFileCfg : Type := {
  usd_path : list string;
  random_choice : bool;
  rigid_props : RigidBodyPropertiesCfg;
  visual_material : PreviewSurfaceCfg;
  scale : option Vec3
}.

(** [RigidObjectCfg.InitialStateCfg]: its [pos] and [rot]. *)
Record InitialStateCfg : Type := {
  init_pos : Vec3;
  init_rot : Quat
}.

Record RigidObjectCfg : Type := {
  prim_path : string;
  spawn : MultiUsdFileCfg;
  init_state : InitialStateCfg
}.

Definition _get_kit_cfg (kit_usd_paths : list string) : RigidObjectCfg :=
  {| prim_path := "/World/envs/env_.*/Kit";
     spawn :=
       {| usd_path := kit_usd_paths;
          random_choice := false;
          rigid_props :=
            {| kinematic_enabled := true;
               disable_gravity := false;
               enable_gyroscopic_forces := true;
               solver_position_iteration_count := 8;
               solver_velocity_iteration_count := 0;
               sleep_threshold := 0.005;
               stabilization_threshold := 0.0025;
               max_depenetration_velocity := 1000 |};
          visual_material :=
            {| diffuse_color := (0.27807487, 0.20855615, 0.16934046);
               emissive_color := (0, 0, 0);
               roughness := 0.5;
               metallic := 0;
               opacity := 1 |};
          scale := None |};
     init_state := {| init_pos := (0.55, 0, 0.007); init_rot := (0, 0, 0, 1) |} |}.

(** [random.randint(a, b)], both ends included, from the raw draw the
    generator delivers: an empty range raises. *)
Definition py_randint (a b : Z) (raw : nat) : outcome Z :=
  if (b <? a)%Z then Raises ValueError
  else Returns (a + Z.of_nat raw mod (b - a + 1))%Z.

(** [l[i]] on a Python list, for an index which is not negative. *)
Definition py_index {A} (l : list A) (i : Z) : outcome A :=
  of_res (at_index l (Z.to_nat i)).

(** [color] is [self.color], the palette of the episode file, and [raw]
    the draw [random] delivers to this call. *)
Definition _get_model_cfg (color : list (R * R * R * R)) (raw : nat)
    (model_paths : list string) (model_idx : nat) : outcome RigidObjectCfg :=
  (i <- py_randint 0 (Z.of_nat (length color) - 1) raw ;;
   rgba <- py_index color i ;;
   let '(r, g, b, a) := rgba in
   Returns
     {| prim_path := "/World/envs/env_.*/Model_" +:+ pretty model_idx;
        spawn :=
          {| usd_path := model_paths;
             random_choice := false;
             rigid_props :=
               {| kinematic_enabled := false;
                  disable_gravity := false;
                  enable_gyroscopic_forces := true;
                  solver_position_iteration_count := 8;
                  solver_velocity_iteration_count := 0;
                  sleep_threshold := 0.005;
                  stabilization_threshold := 0.0025;
                  max_depenetration_velocity := 1000 |};
             visual_material :=
               {| diffuse_color := (r, g, b);
                  emissive_color := (0, 0, 0);
                  roughness := 0.5;
                  metallic := 0;
                  opacity := a |};
             scale := Some (0.98, 0.98, 1) |};
        init_state := {| init_pos := (0.55, 0, 0.1); init_rot := (0, 0, 0, 1) |} |})%outcome.

(** *** [_setup_scene] *)

(** [zip] of the unpacked rows: the columns, as many as the shortest row
    has. *)
Definition zip_star {A} (rows : list (list A)) : list (list A) :=
  match rows with
  | [] => []
  | row :: rest =>
      let n := foldr Nat.min (length row) (length <$> rest) in
      (fun j => omap (fun r : list A => r !! j) rows) <$> seq 0 n
  end.

(** [f"{n:02d}"]. *)
Definition format_02d (n : nat) : string :=
  if (n <? 10)%nat then "0" +:+ pretty n else pretty n.

(** [self.model_dir], and the file of a model below it. *)
Definition model_dir : string := "/home/johann/Downloads/assembly_kit_noremesh/models".

Definition model_usd_path (model_id : nat) : string :=
  model_dir +:+ "/model_" +:+ format_02d model_id
            +:+ "/model_" +:+ format_02d model_id +:+ ".usda".

(** [torch.arange(n) % k] for a [k] which is not zero (what torch does with
    a zero depends on the device). *)
Definition arange_mod (n k : nat) : list nat := (fun e => e mod k)%nat <$> seq 0 n.

(** What [_setup_scene] takes from its collaborators: the kit directories
    and the kit files it lists, both sorted by the number in their name; the
    palette of the episode file; the objects the simulation makes of a
    configuration; the draws of [random]; and the memory [torch.empty]
    hands out. *)
Record SceneSources : Type := {
  kit_usd_paths : list string;
  kit_jsons : list KitJson;
  color : list (R * R * R * R);
  make_rigid_object : RigidObjectCfg -> RigidObject;
  random_raw : nat -> nat;
  memory : Uninitialised
}.

(** [_setup_scene], from "Collecting all the kit USD paths" to
    [self._init_model_sampling()]: the table scene, the registration of the
    objects with the scene and the collision filter are left to the
    simulation. *)
Definition _setup_scene (self : AssemblyKitEnv) (src : SceneSources)
  : outcome (AssemblyKitEnv * ModelSampling) :=
  (let kit_usd_paths := kit_usd_paths src in
   (* importing the kits *)
   let kit_cfg := _get_kit_cfg kit_usd_paths in
   let kit := make_rigid_object src kit_cfg in
   (* parsing the kit JSON files: the object IDs and the goal poses *)
   let kit_model_ids := (fun kit_json => object_id <$> objects kit_json) <$> kit_jsons src in
   let kit_object_positions := (fun kit_json => pos <$> objects kit_json) <$> kit_jsons src in
   let kit_object_rots := (fun kit_json => rot <$> objects kit_json) <$> kit_jsons src in
   let kit_target_starting_pos := start_pos_proposal <$> kit_jsons src in
   starts <- tensor kit_target_starting_pos ;;
   positions <- tensor kit_object_positions ;;
   rots <- tensor kit_object_rots ;;
   (* which kit each env got *)
   let kit_ids := arange_mod (num_envs self) (length kit_usd_paths) in
   (* grouping the model paths *)
   let kit_models_paths :=
     (fun group : list nat => model_usd_path <$> group) <$> zip_star kit_model_ids in
   (* importing the models *)
   models <-
     outcome_map
       (fun ip : nat * list string =>
          model_cfg <- _get_model_cfg (color src) (random_raw src ip.1) ip.2 ip.1 ;;
          Returns (make_rigid_object src model_cfg))
       (zip (seq 0 (length kit_models_paths)) kit_models_paths) ;;
   (* the asset lookup table of the environment instances *)
   infos <- _get_assets_info_per_env self kit_usd_paths kit_model_ids ;;
   let self :=
     {| cfg := cfg self; scene := scene self; num_envs := num_envs self;
        max_episode_length := max_episode_length self;
        episode_length_buf := episode_length_buf self; symmetry := symmetry self;
        robot := robot self; robot_local_grasp_pos := robot_local_grasp_pos self;
        robot_local_grasp_rot := robot_local_grasp_rot self;
        hand_link_idx := hand_link_idx self; kit := kit; models := models;
        kit_target_starting_pos := starts;
        model_target_pos := positions;
        model_target_rot := rots;
        kit_ids_per_env := kit_ids;
        env_assets_info := model_ids <$> infos;
        _current_target := _current_target self;
        current_target_model_id := current_target_model_id self;
        target_pos := target_pos self; target_quat := target_quat self;
        target_goal_pos := target_goal_pos self;
        target_goal_rot := target_goal_rot self |} in
   _init_model_sampling self (memory src))%outcome.

(** Sources [_setup_scene] can work with: as many kit files as kit
    directories, at least one; every kit with [K] objects and [n_starts]
    starting positions; a palette; and a simulation whose objects have one
    root state per environment. *)
Record sources_ready (self : AssemblyKitEnv) (src : SceneSources)
    (K n_starts : nat) : Prop := {
  src_envs : (0 < num_envs self)%nat;
  src_origins : length (env_origins (scene self)) = num_envs self;
  src_kits : kit_jsons src <> [];
  src_paths : length (kit_usd_paths src) = length (kit_jsons src);
  src_objects : Forall (fun kit_json => length (objects kit_json) = K) (kit_jsons src);
  src_slots : (0 < K)%nat;
  src_starts :
    Forall (fun kit_json => length (start_pos_proposal kit_json) = n_starts)
           (kit_jsons src);
  src_start_rows : (0 < n_starts)%nat;
  src_color : color src <> [];
  src_made_default :
    forall c, length (default_root_state (make_rigid_object src c)) = num_envs self;
  src_made_state :
    forall c, length (root_state_w (make_rigid_object src c)) = num_envs self
}.

(** *** [_get_kit_goals] *)

(** The two dicts [_get_kit_goals] builds of a kit file it has loaded: the
    goal position and the goal rotation about Z, by object id.  A dict
    comprehension stores its items in order, so that of two objects with
    one id the later is kept. *)
Definition _get_kit_goals (kit_json : KitJson) : gmap nat Vec3 * gmap nat R :=
  let model_goal_pos :=
    foldl (fun (d : gmap nat Vec3) o => <[object_id o := pos o]> d) ∅ (objects kit_json) in
  let model_goal_rot :=
    foldl (fun (d : gmap nat R) o => <[object_id o := rot o]> d) ∅ (objects kit_json) in
  (model_goal_pos, model_goal_rot).

(** ** Concrete scenes *)

(** The initial root states of the configuration: the kit at
    [(0.55, 0.0, 0.007)], every model at [(0.55, 0, 0.1)], both with
    [rot = (0, 0, 0, 1)]. *)
Definition kit_init_state : Pose := ((0.55, 0, 0.007), (0, 0, 0, 1)).
Definition model_init_state : Pose := ((0.55, 0, 0.1), (0, 0, 0, 1)).

(** Two environments, two units apart, sharing one kit variant. *)
Definition two_origins : InteractiveScene :=
  {| env_origins := [(0, 0, 0); (2, 0, 0)] |}.

Definition two_env_object (init : Pose) : RigidObject :=
  {| default_root_state := [init; init];
     root_state_w := [init; (vadd init.1 (2, 0, 0), init.2)] |}.

Definition demo_robot : Articulation :=
  {| body_pos_w := [[(0, 0, 0)]; [(2.3, 0.1, 0.4)]];
     body_quat_w := [[quat_identity]; [(0, 1, 0, 0)]] |}.

(** A kit of two slots holding the shapes 0 and 1, before the first reset:
    [_current_target] is allocated, nothing has been sampled. *)
Definition demo_env : AssemblyKitEnv :=
  {| cfg := {| table_offset := 0.5 |};
     scene := two_origins;
     num_envs := 2;
     max_episode_length := 300;
     episode_length_buf := [0%Z; 299%Z];
     symmetry := [2 * PI; PI];
     robot := demo_robot;
     robot_local_grasp_pos := [(0, 0.04, 0.1); (0, 0.04, 0.1)];
     robot_local_grasp_rot := [(0, 0, 1, 0); (0, 0, 1, 0)];
     hand_link_idx := 0;
     kit := two_env_object kit_init_state;
     models := [two_env_object model_init_state; two_env_object model_init_state];
     kit_target_starting_pos := [[(0.1, 0.2, 0.05)]];
     model_target_pos := [[(0.1, 0, 0); (-0.1, 0.05, 0)]];
     model_target_rot := [[0; 1.5]];
     kit_ids_per_env := [0; 0]%nat;
     env_assets_info := [[0; 1]; [0; 1]]%nat;
     _current_target := [0; 0]%nat;
     current_target_model_id := [];
     target_pos := [];
     target_quat := [];
     target_goal_pos := [];
     target_goal_rot := [] |}.

(** Environment [k] draws slot [k] as its target, and every environment
    stages its distractor. *)
Definition demo_draws : Draws :=
  {| draw_choice := fun k => k;
     draw_sampled_idx := fun _ => 0%nat;
     draw_rot_t := fun _ => 0.25;
     draw_do_pick := fun _ => 0.25;
     draw_cols := fun _ => 0%nat |}.

(** Every environment draws slot 0 as its target and stages nothing. *)
Definition other_draws : Draws :=
  {| draw_choice := fun _ => 0%nat;
     draw_sampled_idx := fun _ => 0%nat;
     draw_rot_t := fun _ => 0.5;
     draw_do_pick := fun _ => 0.75;
     draw_cols := fun _ => 0%nat |}.

(** The first reset: all environments. *)
Definition full_reset_run : res unit * AssemblyKitEnv :=
  @sample_models_for_envs isaac_frame_math demo_draws [0; 1]%nat demo_env.
Definition after_full_reset : AssemblyKitEnv := full_reset_run.2.

(** A later reset of environment 0 alone. *)
Definition env0_reset_run : res unit * AssemblyKitEnv :=
  @sample_models_for_envs isaac_frame_math other_draws [0]%nat after_full_reset.
Definition after_reset_of_env0 : AssemblyKitEnv := env0_reset_run.2.

(** A later reset of environment 1 alone. *)
Definition env1_reset_run : res unit * AssemblyKitEnv :=
  @sample_models_for_envs isaac_frame_math other_draws [1]%nat after_full_reset.

(** A first reset which names the environments in the other order. *)
Definition swapped_reset_run : res unit * AssemblyKitEnv :=
  @sample_models_for_envs isaac_frame_math other_draws [1; 0]%nat demo_env.

(** A kit of a single slot, in one environment. *)
Definition single_slot_env : AssemblyKitEnv :=
  {| cfg := {| table_offset := 0.5 |};
     scene := {| env_origins := [(0, 0, 0)] |};
     num_envs := 1;
     max_episode_length := 300;
     episode_length_buf := [0%Z];
     symmetry := [2 * PI];
     robot := {| body_pos_w := [[(0, 0, 0)]]; body_quat_w := [[quat_identity]] |};
     robot_local_grasp_pos := [(0, 0.04, 0.1)];
     robot_local_grasp_rot := [quat_identity];
     hand_link_idx := 0;
     kit := {| default_root_state := [kit_init_state];
               root_state_w := [kit_init_state] |};
     models := [{| default_root_state := [model_init_state];
                   root_state_w := [model_init_state] |}];
     kit_target_starting_pos := [[(0.1, 0.2, 0.05)]];
     model_target_pos := [[(0.1, 0, 0)]];
     model_target_rot := [[0]];
     kit_ids_per_env := [0]%nat;
     env_assets_info := [[0]]%nat;
     _current_target := [0]%nat;
     current_target_model_id := [];
     target_pos := [];
     target_quat := [];
     target_goal_pos := [];
     target_goal_rot := [] |}.

(** Two targets which sit on their goals in the plane, half a turn of a
    shape of period pi away from the goal rotation: the first one
    millimetre above the ground, the second a thousand units below. *)
Definition placed_object : RigidObject :=
  {| default_root_state := [model_init_state; model_init_state];
     root_state_w := [((0.10, 0.005, 0.001), quat_identity);
                      ((2.10, 0.005, -1000), quat_identity)] |}.

Definition placed_env : AssemblyKitEnv :=
  {| cfg := {| table_offset := 0.5 |};
     scene := two_origins;
     num_envs := 2;
     max_episode_length := 300;
     episode_length_buf := [0%Z; 299%Z];
     symmetry := [2 * PI; PI];
     robot := demo_robot;
     robot_local_grasp_pos := [(0, 0.04, 0.1); (0, 0.04, 0.1)];
     robot_local_grasp_rot := [(0, 0, 1, 0); (0, 0, 1, 0)];
     hand_link_idx := 0;
     kit := two_env_object kit_init_state;
     models := [two_env_object model_init_state; placed_object];
     kit_target_starting_pos := [[(0.1, 0.2, 0.05)]];
     model_target_pos := [[(0.1, 0, 0); (0.1, 0, 0)]];
     model_target_rot := [[PI; PI]];
     kit_ids_per_env := [0; 0]%nat;
     env_assets_info := [[0; 1]; [0; 1]]%nat;
     _current_target := [1; 1]%nat;
     current_target_model_id := [1; 1]%nat;
     target_pos := [(0.1, 0.2, 0.05); (0.1, 0.2, 0.05)];
     target_quat := [quat_identity; quat_identity];
     target_goal_pos := [(0.1, 0, 0); (0.1, 0, 0)];
     target_goal_rot := [PI; PI] |}.

(** The poses of the two targets in environment-local coordinates. *)
Definition placed_pose_0 : Pose :=
  (vsub (0.10, 0.005, 0.001) (0, 0, 0), quat_identity).
Definition placed_pose_1 : Pose :=
  (vsub (2.10, 0.005, -1000) (2, 0, 0), quat_identity).


(** The reset of the only environment of the single-slot scene. *)
Definition single_slot_run : res unit * AssemblyKitEnv :=
  @sample_models_for_envs isaac_frame_math demo_draws [0]%nat single_slot_env.

(** The world positions of the two kits of the demo scene. *)
Definition demo_kit_pos_0 : Vec3 := vadd (0.55, 0, 0.007) (0, 0, 0).
Definition demo_kit_pos_1 : Vec3 := vadd (0.55, 0, 0.007) (2, 0, 0).

(** The state the full reset leaves: environment 0 has slot 0 as target and
    slot 1 staged, environment 1 has slot 1 as target and slot 0 staged. *)
Definition full_reset_state : AssemblyKitEnv :=
  set_models
    [ {| default_root_state := [model_init_state; model_init_state];
         root_state_w :=
           [ (vadd demo_kit_pos_0 (0.1, 0.2, 0.05),
              isaac_quat_from_euler_xyz 0 0 (0.25 * 2 * PI));
             (vadd demo_kit_pos_1 (side_pos demo_env),
              isaac_quat_from_euler_xyz 0 0 0) ] |};
      {| default_root_state := [model_init_state; model_init_state];
         root_state_w :=
           [ (vadd demo_kit_pos_0 (side_pos demo_env),
              isaac_quat_from_euler_xyz 0 0 1.5);
             (vadd demo_kit_pos_1 (0.1, 0.2, 0.05),
              isaac_quat_from_euler_xyz 0 0 (0.25 * 2 * PI)) ] |} ]
    (set_target_goal_rot [0; 1.5]
       (set_target_goal_pos [(0.1, 0, 0); (-0.1, 0.05, 0)]
          (set_target_quat
             [isaac_quat_from_euler_xyz 0 0 (0.25 * 2 * PI);
              isaac_quat_from_euler_xyz 0 0 (0.25 * 2 * PI)]
             (set_target_pos [(0.1, 0.2, 0.05); (0.1, 0.2, 0.05)]
                (set_current_target_model_id [0; 1]%nat
                   (set__current_target [0; 1]%nat demo_env)))))).

(** The state the reset of environment 0 leaves: the four target buffers
    have one row. *)
Definition env0_reset_state : AssemblyKitEnv :=
  set_models
    [ {| default_root_state := [model_init_state; model_init_state];
         root_state_w :=
           [ (vadd demo_kit_pos_0 (0.1, 0.2, 0.05),
              isaac_quat_from_euler_xyz 0 0 (0.5 * 2 * PI));
             (vadd demo_kit_pos_1 (side_pos demo_env),
              isaac_quat_from_euler_xyz 0 0 0) ] |};
      {| default_root_state := [model_init_state; model_init_state];
         root_state_w :=
           [ (vadd demo_kit_pos_0 (-0.1, 0.05, 0),
              isaac_quat_from_euler_xyz 0 0 1.5);
             (vadd demo_kit_pos_1 (0.1, 0.2, 0.05),
              isaac_quat_from_euler_xyz 0 0 (0.25 * 2 * PI)) ] |} ]
    (set_target_goal_rot [0]
       (set_target_goal_pos [(0.1, 0, 0)]
          (set_target_quat [isaac_quat_from_euler_xyz 0 0 (0.5 * 2 * PI)]
             (set_target_pos [(0.1, 0.2, 0.05)]
                (set_current_target_model_id [0; 1]%nat
                   (set__current_target [0; 1]%nat full_reset_state)))))).

(** The state in which the reset of environment 1 raises. *)
Definition env1_failed_state : AssemblyKitEnv :=
  set_target_goal_rot [0]
    (set_target_goal_pos [(0.1, 0, 0)]
       (set_target_quat [isaac_quat_from_euler_xyz 0 0 (0.5 * 2 * PI)]
          (set_target_pos [(0.1, 0.2, 0.05)]
             (set_current_target_model_id [0; 0]%nat
                (set__current_target [0; 0]%nat full_reset_state))))).

(** The state the reset of [[1; 0]] leaves. *)
Definition swapped_reset_state : AssemblyKitEnv :=
  set_models
    [ {| default_root_state := [model_init_state; model_init_state];
         root_state_w :=
           [ (vadd demo_kit_pos_1 (0.1, 0.2, 0.05),
              isaac_quat_from_euler_xyz 0 0 (0.5 * 2 * PI));
             (vadd demo_kit_pos_0 (0.1, 0.2, 0.05),
              isaac_quat_from_euler_xyz 0 0 (0.5 * 2 * PI)) ] |};
      {| default_root_state := [model_init_state; model_init_state];
         root_state_w :=
           [ (vadd demo_kit_pos_1 (-0.1, 0.05, 0),
              isaac_quat_from_euler_xyz 0 0 1.5);
             (vadd demo_kit_pos_0 (-0.1, 0.05, 0),
              isaac_quat_from_euler_xyz 0 0 1.5) ] |} ]
    (set_target_goal_rot [0; 0]
       (set_target_goal_pos [(0.1, 0, 0); (0.1, 0, 0)]
          (set_target_quat
             [isaac_quat_from_euler_xyz 0 0 (0.5 * 2 * PI);
              isaac_quat_from_euler_xyz 0 0 (0.5 * 2 * PI)]
             (set_target_pos [(0.1, 0.2, 0.05); (0.1, 0.2, 0.05)]
                (set_current_target_model_id [0; 0]%nat
                   (set__current_target [0; 0]%nat demo_env)))))).

(** The state in which the reset of the single-slot scene raises. *)
Definition single_slot_failed_state : AssemblyKitEnv :=
  set_target_goal_rot [0]
    (set_target_goal_pos [(0.1, 0, 0)]
       (set_target_quat [isaac_quat_from_euler_xyz 0 0 (0.25 * 2 * PI)]
          (set_target_pos [(0.1, 0.2, 0.05)]
             (set_current_target_model_id [0]%nat
                (set__current_target [0]%nat single_slot_env))))).

(** *** Scenes for setup, construction and observation *)

(** The demo scene with a target column as an allocation may leave it:
    environment 1 names a slot for which there is no object. *)
Definition stale_target_env : AssemblyKitEnv := set__current_target [0; 7]%nat demo_env.

(** A stage whose wrists are where [demo_robot] has them, with the fingers
    four centimetres to either side, a decimetre along the wrist. *)
Definition demo_stage : Stage := fun prim_path =>
  if String.eqb prim_path "/World/envs/env_0/Robot/panda_link7"
  then ((0, 0, 0), quat_identity)
  else if String.eqb prim_path "/World/envs/env_0/Robot/panda_leftfinger"
  then ((0, 0.04, 0.1), quat_identity)
  else if String.eqb prim_path "/World/envs/env_0/Robot/panda_rightfinger"
  then ((0, -0.04, 0.1), quat_identity)
  else if String.eqb prim_path "/World/envs/env_1/Robot/panda_link7"
  then ((2.3, 0.1, 0.4), (0, 1, 0, 0))
  else if String.eqb prim_path "/World/envs/env_1/Robot/panda_leftfinger"
  then ((2.3, 0.06, 0.3), (0, 1, 0, 0))
  else if String.eqb prim_path "/World/envs/env_1/Robot/panda_rightfinger"
  then ((2.3, 0.14, 0.3), (0, 1, 0, 0))
  else (vzero, quat_identity).

(** Two camera images of one pixel. *)
Definition demo_rgb : list (list (list (Z * Z * Z))) :=
  [[[(0, 128, 255)%Z]]; [[(255, 255, 255)%Z]]].

(** Memory which holds sevens. *)
Definition demo_memory : Uninitialised :=
  {| empty_current_target := fun _ => 7%nat;
     empty_current_others := fun _ _ => 7%nat |}.

(** The kit file of the demo scene: two objects, of the shapes 0 and 1, and
    one starting position. *)
Definition demo_kit_json : KitJson :=
  {| objects := [{| object_id := 0; pos := (0.1, 0, 0); rot := 0 |};
                 {| object_id := 1; pos := (-0.1, 0.05, 0); rot := 1.5 |}];
     start_pos_proposal := [(0.1, 0.2, 0.05)] |}.

(** A simulation which makes, of any configuration, an object of two
    environments at the initial state of the configuration. *)
Definition demo_make (c : RigidObjectCfg) : RigidObject :=
  two_env_object (init_pos (init_state c), init_rot (init_state c)).

Definition demo_sources : SceneSources :=
  {| kit_usd_paths := ["kits/kit_0/kit_0.usda"%string];
     kit_jsons := [demo_kit_json];
     color := [(1, 0, 0, 1); (0, 0, 1, 0.5)];
     make_rigid_object := demo_make;
     random_raw := fun i => i;
     memory := demo_memory |}.

(** A second kit file, of a single object. *)
Definition small_kit_json : KitJson :=
  {| objects := [{| object_id := 2; pos := (0, 0, 0); rot := 0 |}];
     start_pos_proposal := [(0.1, 0.2, 0.05)] |}.

Definition uneven_sources : SceneSources :=
  {| kit_usd_paths := ["kits/kit_0/kit_0.usda"%string; "kits/kit_1/kit_1.usda"%string];
     kit_jsons := [demo_kit_json; small_kit_json];
     color := [(1, 0, 0, 1)];
     make_rigid_object := demo_make;
     random_raw := fun i => i;
     memory := demo_memory |}.

(** * Properties *)

(** ** Comparisons and outcomes *)

Lemma Rltb_true_iff (x y : R) : Rltb x y = true <-> x < y.
Proof. unfold Rltb. apply bool_decide_eq_true. Qed.

Lemma Rltb_false_iff (x y : R) : Rltb x y = false <-> ~ x < y.
Proof. unfold Rltb. apply bool_decide_eq_false. Qed.

Lemma res_map_Forall2 {A B} (f : A -> res B) (l : list A) (l' : list B) :
  res_map f l = Ok l' <-> Forall2 (fun x y => f x = Ok y) l l'.
Proof.
  revert l'. induction l as [|x l IH]; intros l'; simpl.
  - split.
    + intros [= <-]. constructor.
    + intros Hl. inversion Hl. reflexivity.
  - destruct (f x) as [y|e] eqn:Hfx.
    + destruct (res_map f l) as [ys|e] eqn:Hm.
      * split.
        -- intros [= <-]. constructor; [exact Hfx | by apply IH].
        -- intros Hl. inversion Hl as [|? z ? zs Hz Hzs]; subst.
           apply IH in Hzs. congruence.
      * split; [discriminate|].
        intros Hl. inversion Hl as [|? z ? zs Hz Hzs]; subst.
        apply IH in Hzs. discriminate.
    + split; [discriminate|].
      intros Hl. inversion Hl as [|? z ? zs Hz Hzs]; subst. congruence.
Qed.

Lemma index_rows_Forall2 {A} (t : list A) (idx : list nat) (l : list A) :
  index_rows t idx = Ok l <-> Forall2 (fun i a => t !! i = Some a) idx l.
Proof.
  unfold index_rows. rewrite res_map_Forall2.
  split; intros Hl; eapply Forall2_impl; try exact Hl; simpl;
    intros i a; unfold at_index; destruct (t !! i); simpl; congruence.
Qed.

(** Indexing by indices in range succeeds. *)
Lemma index_rows_in_range {A} (t : list A) (idx : list nat) :
  Forall (fun i => i < length t)%nat idx ->
  exists l, index_rows t idx = Ok l /\ length l = length idx /\
            forall k i, idx !! k = Some i -> l !! k = t !! i.
Proof.
  induction 1 as [|i idx Hi _ (l & Hl & Hlen & Hrows)].
  - exists []. split; [reflexivity|]. split; [reflexivity|]. intros k i [=].
  - apply lookup_lt_is_Some_2 in Hi as [a Ha].
    exists (a :: l). unfold index_rows in *. simpl. unfold at_index at 1.
    rewrite Ha. simpl. rewrite Hl. split; [reflexivity|].
    split; [simpl; congruence|].
    intros [|k] j; simpl; [intros [= <-]; by rewrite Ha | apply Hrows].
Qed.

Lemma broadcast_same {A B C} (f : A -> B -> C) (a : list A) (b : list B) :
  length a = length b -> broadcast f a b = Ok (zip_with f a b).
Proof.
  intros Hlen. unfold broadcast. rewrite Hlen, Nat.eqb_refl. reflexivity.
Qed.

Lemma broadcast_inplace_same {A B} (f : A -> B -> A) (a : list A) (b : list B) :
  length a = length b -> broadcast_inplace f a b = Ok (zip_with f a b).
Proof.
  intros Hlen. unfold broadcast_inplace. rewrite Hlen, Nat.eqb_refl. reflexivity.
Qed.

(** ** The target pose read by the evaluator *)

Lemma fill_target_rows_spec (ms : list RigidObject) :
  forall (idx : nat) (t : list Pose),
    (idx + length ms <= length t)%nat ->
    Forall (fun m => length t <= length (root_state_w m))%nat ms ->
    exists t', fill_target_rows idx ms t = Ok t' /\ length t' = length t /\
      forall j, t' !! j =
                if decide (idx <= j < idx + length ms)%nat
                then m ← ms !! (j - idx)%nat; root_state_w m !! j
                else t !! j.
Proof.
  induction ms as [|m ms IH]; intros idx t Hlen Hms; simpl.
  - exists t. split; [reflexivity|]. split; [reflexivity|].
    intros j. case_decide; [lia|reflexivity].
  - simpl in Hlen. inversion Hms as [|? ? Hm Hms']; subst.
    destruct (lookup_lt_is_Some_2 (root_state_w m) idx) as [row Hrow]; [lia|].
    unfold at_index. rewrite Hrow. simpl.
    destruct (Nat.ltb_spec idx (length t)); [|lia].
    destruct (IH (S idx) (<[idx := row]> t)) as (t' & Ht' & Hlen' & Hrows).
    { rewrite length_insert. lia. }
    { eapply Forall_impl; [exact Hms'|]. simpl. intros ?.
      rewrite length_insert. auto. }
    exists t'. split; [exact Ht'|]. split; [by rewrite Hlen', length_insert|].
    intros j. rewrite Hrows. repeat case_decide; try lia.
    + replace (j - idx)%nat with (S (j - S idx)) by lia. reflexivity.
    + assert (j = idx) as -> by lia. rewrite Nat.sub_diag. simpl.
      rewrite list_lookup_insert_eq by lia. by rewrite Hrow.
    + rewrite list_lookup_insert_ne by lia. reflexivity.
Qed.

Section EvaluatorFacts.
Context `{FrameMath}.

Lemma get_target_model_pose_rows (self : AssemblyKitEnv) :
  length (_current_target self) = num_envs self ->
  Forall (fun t => t < length (models self))%nat (_current_target self) ->
  Forall (fun m => length (root_state_w m) = num_envs self) (models self) ->
  length (env_origins (scene self)) = num_envs self ->
  exists l, get_target_model_pose self = Ok l /\
            length l = num_envs self /\
            forall i, l !! i = target_pose_of self i.
Proof.
  intros Hct Hslots Hmodels Horig.
  destruct (index_rows_in_range (models self) (_current_target self) Hslots)
    as (tms & Htms & Hlen & Hrows).
  unfold get_target_model_pose. rewrite Htms. simpl.
  destruct (fill_target_rows_spec tms 0 (replicate (num_envs self) zero_pose))
    as (t' & Ht' & Hlen' & Hfill).
  { rewrite length_replicate. lia. }
  { apply Forall_forall. intros m Hm. rewrite length_replicate.
    apply list_elem_of_lookup in Hm as [k Hk].
    destruct (lookup_lt_is_Some_2 (_current_target self) k) as [slot Hslot].
    { apply lookup_lt_Some in Hk. lia. }
    rewrite (Hrows k slot Hslot) in Hk.
    rewrite Forall_forall in Hmodels.
    rewrite (Hmodels m); [lia|]. by eapply list_elem_of_lookup_2. }
  rewrite Ht'. simpl. rewrite length_replicate in Hlen'.
  rewrite broadcast_inplace_same by lia.
  eexists. split; [reflexivity|]. split.
  { rewrite length_zip_with. lia. }
  intros i. rewrite lookup_zip_with, Hfill. unfold target_pose_of.
  case_decide as Hi.
  - rewrite Nat.sub_0_r.
    destruct (lookup_lt_is_Some_2 (_current_target self) i) as [slot Hslot]; [lia|].
    rewrite Hslot. simpl. rewrite (Hrows i slot Hslot).
    destruct (models self !! slot) as [m|]; simpl; [|reflexivity].
    destruct (root_state_w m !! i) as [P|]; simpl; reflexivity.
  - rewrite (lookup_ge_None_2 (_current_target self)) by lia. simpl.
    rewrite (lookup_ge_None_2 (replicate _ _)) by (rewrite length_replicate; lia).
    reflexivity.
Qed.

Lemma get_target_model_pose_ready (self : AssemblyKitEnv) :
  evaluator_ready self ->
  exists l, get_target_model_pose self = Ok l /\
            length l = num_envs self /\
            forall i, l !! i = target_pose_of self i.
Proof.
  intros [Hct Hslots Hmodels Horig _ _ _ _].
  by apply get_target_model_pose_rows.
Qed.

End EvaluatorFacts.

(** ** The tolerance evaluator, row by row *)

Lemma fold_to_shorter_arc_code (d period : R) :
  (if Rgtb (remainder d period) (period / 2)
   then period - remainder d period else remainder d period)
  = fold_to_shorter_arc d period.
Proof.
  unfold fold_to_shorter_arc, wrapped_difference, Rgtb.
  destruct (decide (remainder d period > period / 2)) as [Hd|Hd].
  - by rewrite bool_decide_eq_true_2.
  - by rewrite bool_decide_eq_false_2.
Qed.

Section EvaluatorRows.
Context `{FrameMath}.

Lemma is_success_rot_diff_rows (self : AssemblyKitEnv) (pose : list Pose) :
  evaluator_ready self ->
  length pose = num_envs self ->
  exists l, is_success_rot_diff self pose = Ok l /\
    length l = num_envs self /\
    forall i P r id period,
      pose !! i = Some P ->
      target_goal_rot self !! i = Some r ->
      current_target_model_id self !! i = Some id ->
      symmetry self !! id = Some period ->
      l !! i = Some (folded_rot_error (euler_xyz_from_quat P.2).2 r period).
Proof.
  intros [_ _ _ _ _ Hgr Hid Hsym] Hpose.
  destruct (index_rows_in_range (symmetry self) (current_target_model_id self) Hsym)
    as (sv & Hsv & Hlen & Hrows).
  unfold is_success_rot_diff.
  rewrite broadcast_same by (rewrite !length_fmap; lia). simpl.
  rewrite Hsv. simpl.
  rewrite broadcast_same by (rewrite length_zip_with, !length_fmap; lia). simpl.
  rewrite broadcast_same
    by (rewrite !length_zip_with, !length_fmap, ?length_zip_with, ?length_fmap; lia).
  simpl.
  rewrite broadcast_same
    by (rewrite !length_zip_with, ?length_fmap; lia).
  simpl.
  rewrite broadcast_same
    by (rewrite !length_zip_with, ?length_fmap, ?length_zip_with, ?length_fmap; lia).
  simpl.
  rewrite broadcast_same
    by (rewrite !length_zip_with, ?length_fmap, ?length_zip_with, ?length_fmap; lia).
  eexists. split; [reflexivity|]. split.
  { rewrite !length_zip_with, ?length_fmap, ?length_zip_with, ?length_fmap. lia. }
  intros i P r id period HP Hr Hi Hperiod.
  repeat (rewrite lookup_zip_with || rewrite list_lookup_fmap).
  rewrite HP, Hr. rewrite (Hrows i id Hi), Hperiod. simpl.
  rewrite fold_to_shorter_arc_code. reflexivity.
Qed.

Lemma is_success_rows (self : AssemblyKitEnv) (pos_eps rot_eps height_eps : R) :
  evaluator_ready self ->
  exists l, is_success self pos_eps rot_eps height_eps = Ok l /\
    length l = num_envs self /\
    forall i P g r id period,
      target_pose_of self i = Some P ->
      target_goal_pos self !! i = Some g ->
      target_goal_rot self !! i = Some r ->
      current_target_model_id self !! i = Some id ->
      symmetry self !! id = Some period ->
      l !! i = Some (Rltb (norm2 (vsub2 (xy g) (xy P.1))) pos_eps
                     && Rltb (folded_rot_error (euler_xyz_from_quat P.2).2 r period)
                             rot_eps
                     && Rltb (vz P.1) height_eps).
Proof.
  intros Hready.
  destruct (get_target_model_pose_ready self Hready) as (pose & Hpose & Hlen & Hrows).
  destruct (is_success_rot_diff_rows self pose Hready Hlen) as (rd & Hrd & Hlenrd & Hrdrows).
  destruct Hready as [_ _ _ _ Hgp _ _ _].
  unfold is_success. rewrite Hpose. simpl.
  rewrite broadcast_same by (rewrite !length_fmap; lia). simpl.
  rewrite Hrd. simpl.
  rewrite broadcast_same
    by (rewrite !length_fmap, length_zip_with, !length_fmap; lia).
  simpl.
  rewrite broadcast_same
    by (rewrite length_zip_with, !length_fmap, length_zip_with, !length_fmap; lia).
  eexists. split; [reflexivity|]. split.
  { rewrite !length_zip_with, !length_fmap, length_zip_with, !length_fmap. lia. }
  intros i P g r id period HP Hg Hr Hi Hperiod.
  rewrite <- Hrows in HP.
  repeat (rewrite lookup_zip_with || rewrite list_lookup_fmap).
  rewrite HP, Hg, (Hrdrows i P r id period HP Hr Hi Hperiod). reflexivity.
Qed.

(** Under [evaluator_ready] every row of the buffers exists. *)
Lemma evaluator_ready_rows (self : AssemblyKitEnv) (i : nat) :
  evaluator_ready self ->
  (i < num_envs self)%nat ->
  exists P g r id period,
    target_pose_of self i = Some P /\
    target_goal_pos self !! i = Some g /\
    target_goal_rot self !! i = Some r /\
    current_target_model_id self !! i = Some id /\
    symmetry self !! id = Some period.
Proof.
  intros [Hct Hslots Hmodels Horig Hgp Hgr Hid Hsym] Hi.
  destruct (lookup_lt_is_Some_2 (_current_target self) i) as [slot Hslot]; [lia|].
  destruct (lookup_lt_is_Some_2 (models self) slot) as [m Hm].
  { rewrite Forall_forall in Hslots. apply Hslots.
    by eapply list_elem_of_lookup_2. }
  destruct (lookup_lt_is_Some_2 (root_state_w m) i) as [P HP].
  { rewrite Forall_forall in Hmodels. rewrite (Hmodels m); [lia|].
    by eapply list_elem_of_lookup_2. }
  destruct (lookup_lt_is_Some_2 (env_origins (scene self)) i) as [o Ho]; [lia|].
  destruct (lookup_lt_is_Some_2 (target_goal_pos self) i) as [g Hg]; [lia|].
  destruct (lookup_lt_is_Some_2 (target_goal_rot self) i) as [r Hr]; [lia|].
  destruct (lookup_lt_is_Some_2 (current_target_model_id self) i) as [id Hid']; [lia|].
  destruct (lookup_lt_is_Some_2 (symmetry self) id) as [period Hperiod].
  { rewrite Forall_forall in Hsym. apply Hsym. by eapply list_elem_of_lookup_2. }
  exists (vsub P.1 o, P.2), g, r, id, period.
  unfold target_pose_of. rewrite Hslot. simpl. rewrite Hm. simpl.
  rewrite HP. simpl. rewrite Ho. simpl. auto.
Qed.

End EvaluatorRows.

(** The planar norm of the code is the Euclidean distance of the
    specification: only the sign of the difference differs. *)
Lemma norm2_xy_distance (g P : Vec3) :
  norm2 (vsub2 (xy g) (xy P)) = xy_distance P g.
Proof.
  unfold norm2, vsub2, xy, xy_distance. simpl. f_equal. ring.
Qed.

(** ** Remainder and folding *)

Lemma remainder_bounds (x period : R) :
  0 < period -> 0 <= remainder x period < period.
Proof.
  intros Hp. unfold remainder.
  destruct (Zfloor_bound (x / period)) as [Hlo Hhi].
  assert (Hx : x = period * (x / period)) by (field; lra).
  split.
  - apply (Rmult_le_compat_l period) in Hlo; lra.
  - apply (Rmult_lt_compat_l period) in Hhi; lra.
Qed.

(** A raw error in [[0, period)] is its own remainder. *)
Lemma remainder_small (x period : R) :
  0 <= x < period -> remainder x period = x.
Proof.
  intros [Hlo Hhi]. unfold remainder.
  assert (Hp : 0 < period) by lra.
  rewrite (Zfloor_eq 0 (x / period)); [lra|].
  split.
  - apply Rmult_le_reg_r with period; [lra|].
    replace (x / period * period) with x by (field; lra). lra.
  - apply Rmult_lt_reg_r with period; [lra|].
    replace (x / period * period) with x by (field; lra). lra.
Qed.

Lemma fold_to_shorter_arc_bounds (raw period : R) :
  0 < period -> 0 <= fold_to_shorter_arc raw period <= period / 2.
Proof.
  intros Hp. unfold fold_to_shorter_arc, wrapped_difference.
  pose proof (remainder_bounds raw period Hp).
  case_decide; lra.
Qed.

(** ** The claims on the evaluator *)

(** Four degrees are about 0.0698 rad. *)
Lemma rot_eps_default_value : 0.0698 < radians 4 < 0.0699.
Proof.
  pose proof (PI_2_3_7_ineq 2) as [Hlo Hhi].
  unfold sum_f_R0, tg_alt, PI_2_3_7_tg, Ratan_seq in Hlo, Hhi.
  simpl in Hlo, Hhi. unfold radians. split; lra.
Qed.

(** C3: for every environment whose target shape has a symmetry period
    other than 0, [is_success] (with its default tolerances) reports
    success exactly when the planar distance between the target and its
    goal is below 0.02, the symmetry-folded rotation error is below four
    degrees, and the height of the target is below 0.003. *)
Theorem is_success_iff_three_checks `{FrameMath}
    (self : AssemblyKitEnv) (i : nat) (P : Pose) (g : Vec3) (r : R)
    (id : nat) (period : R) :
  evaluator_ready self ->
  target_pose_of self i = Some P ->
  target_goal_pos self !! i = Some g ->
  target_goal_rot self !! i = Some r ->
  current_target_model_id self !! i = Some id ->
  symmetry self !! id = Some period ->
  period <> 0 ->
  exists (l : list bool) (b : bool),
    is_success self 0.02 (radians 4) 0.003 = Ok l /\
    is_success_default self = Ok l /\
    l !! i = Some b /\
    (b = true <->
       xy_distance P.1 g < 0.02 /\
       folded_rot_error (euler_xyz_from_quat P.2).2 r period < 4 * PI / 180 /\
       vz P.1 < 0.003) /\
    0.0698 < 4 * PI / 180 < 0.0699.
Proof.
  intros Hready HP Hg Hr Hid Hperiod _.
  destruct (is_success_rows self 0.02 (radians 4) 0.003 Hready)
    as (l & Hl & _ & Hrows).
  exists l. eexists. split; [exact Hl|]. split; [exact Hl|].
  split; [exact (Hrows i P g r id period HP Hg Hr Hid Hperiod)|].
  split; [|exact rot_eps_default_value].
  rewrite !andb_true_iff, !Rltb_true_iff, norm2_xy_distance.
  unfold radians. tauto.
Qed.

(** C4: the rotational error of [is_success] is the absolute difference of
    the current and the goal rotation about Z, reduced modulo the symmetry
    period of the target's shape and folded to the shorter arc; raw errors
    of 0.49 and 0.51 periods both fold to 0.49 periods. *)
Theorem rot_error_folds_modulo_period `{FrameMath}
    (self : AssemblyKitEnv) (pose : list Pose) (i : nat) (P : Pose) (r : R)
    (id : nat) (period : R) :
  evaluator_ready self ->
  length pose = num_envs self ->
  pose !! i = Some P ->
  target_goal_rot self !! i = Some r ->
  current_target_model_id self !! i = Some id ->
  symmetry self !! id = Some period ->
  0 < period ->
  (exists l : list R,
      is_success_rot_diff self pose = Ok l /\
      let d := remainder (Rabs ((euler_xyz_from_quat P.2).2 - r)) period in
      l !! i = Some (if decide (d > period / 2) then period - d else d) /\
      l !! i = Some (folded_rot_error (euler_xyz_from_quat P.2).2 r period)) /\
  0 <= folded_rot_error (euler_xyz_from_quat P.2).2 r period <= period / 2 /\
  fold_to_shorter_arc (period * 0.49) period = period * 0.49 /\
  fold_to_shorter_arc (period * 0.51) period = period * 0.49.
Proof.
  intros Hready Hlen HP Hr Hid Hperiod Hpos.
  destruct (is_success_rot_diff_rows self pose Hready Hlen) as (l & Hl & _ & Hrows).
  specialize (Hrows i P r id period HP Hr Hid Hperiod).
  split; [exists l; split; [exact Hl|]; split; exact Hrows|].
  split; [apply fold_to_shorter_arc_bounds; exact Hpos|].
  unfold fold_to_shorter_arc, wrapped_difference.
  rewrite !remainder_small by lra.
  split; case_decide; lra.
Qed.

(** C10: the height check has no lower bound.  For an environment whose
    target passes the planar and the rotation check (its shape having a
    symmetry period other than 0), [is_success] reports success exactly
    when the height of the target is below [height_eps]: every height below
    it passes, however far below the kit. *)
Theorem height_check_has_no_lower_bound `{FrameMath}
    (self : AssemblyKitEnv) (pos_eps rot_eps height_eps : R)
    (i : nat) (P : Pose) (g : Vec3) (r : R) (id : nat) (period : R) :
  evaluator_ready self ->
  target_pose_of self i = Some P ->
  target_goal_pos self !! i = Some g ->
  target_goal_rot self !! i = Some r ->
  current_target_model_id self !! i = Some id ->
  symmetry self !! id = Some period ->
  period <> 0 ->
  xy_distance P.1 g < pos_eps ->
  folded_rot_error (euler_xyz_from_quat P.2).2 r period < rot_eps ->
  exists (l : list bool) (b : bool),
    is_success self pos_eps rot_eps height_eps = Ok l /\
    l !! i = Some b /\
    (b = true <-> vz P.1 < height_eps).
Proof.
  intros Hready HP Hg Hr Hid Hperiod _ Hxy Hrot.
  destruct (is_success_rows self pos_eps rot_eps height_eps Hready)
    as (l & Hl & _ & Hrows).
  exists l. eexists. split; [exact Hl|].
  split; [exact (Hrows i P g r id period HP Hg Hr Hid Hperiod)|].
  rewrite !andb_true_iff, !Rltb_true_iff, norm2_xy_distance. tauto.
Qed.

(** C8: the reward is +1 exactly where the [terminated] component of the
    done signal is true and -1 elsewhere, and the [timed_out] component is
    true exactly where the elapsed step count is at least the episode length
    minus one.  Both methods raise together. *)
Theorem reward_agrees_with_done `{FrameMath} (self : AssemblyKitEnv) :
  match _get_dones self, _get_rewards self with
  | Ok (terminated, time_out), Ok reward =>
      length reward = length terminated /\
      length time_out = length (episode_length_buf self) /\
      forall i : nat,
        (reward !! i = Some 1%Z <-> terminated !! i = Some true) /\
        (reward !! i = Some (-1)%Z <-> terminated !! i = Some false) /\
        (time_out !! i = Some true <->
           exists e, episode_length_buf self !! i = Some e /\
                     (e >= max_episode_length self - 1)%Z) /\
        (time_out !! i = Some false <->
           exists e, episode_length_buf self !! i = Some e /\
                     ~ (e >= max_episode_length self - 1)%Z)
  | Raise e, Raise e' => e = e'
  | _, _ => False
  end.
Proof.
  unfold _get_rewards, compute_rewards, _get_dones.
  destruct (is_success_default self) as [l|e]; simpl; [|reflexivity].
  split; [rewrite length_zip_with, length_fmap; lia|].
  split; [by rewrite length_fmap|].
  intros i. rewrite lookup_zip_with, !list_lookup_fmap.
  destruct (l !! i) as [[|]|]; simpl;
    destruct (episode_length_buf self !! i) as [e|]; simpl;
    repeat split; try congruence; try (intros [? [? ?]]; congruence);
    try (intros [= Hb];
         first [apply bool_decide_eq_true in Hb | apply bool_decide_eq_false in Hb];
         eauto);
    try (intros (e' & [= <-] & He); f_equal;
         first [by apply bool_decide_eq_true | by apply bool_decide_eq_false]).
Qed.

(** ** The placed scene *)

Lemma placed_env_ready : evaluator_ready placed_env.
Proof. split; simpl; repeat constructor. Qed.

Lemma remainder_0_l (period : R) : remainder 0 period = 0.
Proof.
  unfold remainder. replace (0 / period) with (IZR 0) by (unfold Rdiv; ring).
  rewrite ZfloorZ. ring.
Qed.

Lemma remainder_diag (period : R) : period <> 0 -> remainder period period = 0.
Proof.
  intros Hp. unfold remainder.
  replace (period / period) with (IZR 1) by (field; exact Hp).
  rewrite ZfloorZ. ring.
Qed.

Lemma yaw_of_identity : (isaac_euler_xyz_from_quat quat_identity).2 = 0.
Proof.
  unfold isaac_euler_xyz_from_quat, quat_identity. cbn [snd].
  replace (2 * (1 * 0 + 0 * 0)) with 0 by ring.
  replace (1 - 2 * (0 * 0 + 0 * 0)) with 1 by ring.
  unfold atan2. rewrite decide_True by lra.
  replace (0 / 1) with 0 by field. rewrite atan_0. apply remainder_0_l.
Qed.

(** Half a turn of a shape of period pi is no error. *)
Lemma placed_rot_error :
  folded_rot_error (isaac_euler_xyz_from_quat quat_identity).2 PI PI = 0.
Proof.
  pose proof PI_RGT_0 as Hpi.
  rewrite yaw_of_identity. unfold folded_rot_error.
  replace (Rabs (0 - PI)) with PI
    by (rewrite Rabs_left1; lra).
  unfold fold_to_shorter_arc, wrapped_difference.
  rewrite remainder_diag by lra. rewrite decide_False by lra. reflexivity.
Qed.

Lemma xy_distance_lt (P g : Vec3) (eps : R) :
  0 < eps ->
  (vx P - vx g) * (vx P - vx g) + (vy P - vy g) * (vy P - vy g) < eps * eps ->
  xy_distance P g < eps.
Proof.
  intros Heps Hsq. unfold xy_distance.
  rewrite <- (sqrt_square eps) by lra.
  apply sqrt_lt_1_alt. split; [|exact Hsq].
  pose proof (Rle_0_sqr (vx P - vx g)) as Hx.
  pose proof (Rle_0_sqr (vy P - vy g)) as Hy.
  unfold Rsqr in Hx, Hy. lra.
Qed.

Lemma placed_xy_distance_1 : xy_distance placed_pose_1.1 (0.1, 0, 0) < 0.02.
Proof. apply xy_distance_lt; [lra|]. unfold vx, vy. cbn. lra. Qed.

(** C3, at environment 0 of the placed scene. *)
Lemma is_success_iff_three_checks_witness :
  exists (l : list bool) (b : bool),
    @is_success isaac_frame_math placed_env 0.02 (radians 4) 0.003 = Ok l /\
    @is_success_default isaac_frame_math placed_env = Ok l /\
    l !! 0%nat = Some b /\
    (b = true <->
       xy_distance placed_pose_0.1 (0.1, 0, 0) < 0.02 /\
       folded_rot_error (isaac_euler_xyz_from_quat quat_identity).2 PI PI
         < 4 * PI / 180 /\
       vz placed_pose_0.1 < 0.003) /\
    0.0698 < 4 * PI / 180 < 0.0699.
Proof.
  apply (@is_success_iff_three_checks isaac_frame_math placed_env 0
           placed_pose_0 (0.1, 0, 0) PI 1%nat PI);
    [exact placed_env_ready | reflexivity | reflexivity | reflexivity
    | reflexivity | reflexivity | exact PI_neq0].
Defined.

(** C4, at environment 0 of the placed scene. *)
Lemma rot_error_folds_modulo_period_witness :
  (exists l : list R,
      @is_success_rot_diff isaac_frame_math placed_env
        [placed_pose_0; placed_pose_1] = Ok l /\
      let d := remainder (Rabs ((isaac_euler_xyz_from_quat quat_identity).2 - PI)) PI in
      l !! 0%nat = Some (if decide (d > PI / 2) then PI - d else d) /\
      l !! 0%nat
      = Some (folded_rot_error (isaac_euler_xyz_from_quat quat_identity).2 PI PI)) /\
  0 <= folded_rot_error (isaac_euler_xyz_from_quat quat_identity).2 PI PI <= PI / 2 /\
  fold_to_shorter_arc (PI * 0.49) PI = PI * 0.49 /\
  fold_to_shorter_arc (PI * 0.51) PI = PI * 0.49.
Proof.
  apply (@rot_error_folds_modulo_period isaac_frame_math placed_env
           [placed_pose_0; placed_pose_1] 0 placed_pose_0 PI 1%nat PI);
    [exact placed_env_ready | reflexivity .. | exact PI_RGT_0].
Defined.

(** C10, at environment 1 of the placed scene, a thousand units below the
    ground: successful exactly because -1000 is below 0.003. *)
Lemma height_check_has_no_lower_bound_witness :
  exists (l : list bool) (b : bool),
    @is_success isaac_frame_math placed_env 0.02 (radians 4) 0.003 = Ok l /\
    l !! 1%nat = Some b /\
    (b = true <-> vz placed_pose_1.1 < 0.003).
Proof.
  apply (@height_check_has_no_lower_bound isaac_frame_math placed_env
           0.02 (radians 4) 0.003 1 placed_pose_1 (0.1, 0, 0) PI 1%nat PI);
    [exact placed_env_ready | reflexivity | reflexivity | reflexivity
    | reflexivity | reflexivity | exact PI_neq0 | exact placed_xy_distance_1 | ].
  change (euler_xyz_from_quat placed_pose_1.2)
    with (isaac_euler_xyz_from_quat quat_identity).
  rewrite placed_rot_error. unfold radians. pose proof PI_RGT_0. lra.
Defined.

Lemma placed_xy_distance_0 : xy_distance placed_pose_0.1 (0.1, 0, 0) < 0.02.
Proof. apply xy_distance_lt; [lra|]. unfold vx, vy. cbn. lra. Qed.

(** Both targets of the placed scene are reported successful. *)
Lemma placed_env_is_success :
  @is_success_default isaac_frame_math placed_env = Ok [true; true].
Proof.
  destruct (@is_success_rows isaac_frame_math placed_env pos_eps_default
              rot_eps_default height_eps_default placed_env_ready)
    as (l & Hl & Hlen & Hrows).
  unfold is_success_default. rewrite Hl. f_equal.
  pose proof (Hrows 0%nat placed_pose_0 (0.1, 0, 0) PI 1%nat PI
                eq_refl eq_refl eq_refl eq_refl eq_refl) as H0.
  pose proof (Hrows 1%nat placed_pose_1 (0.1, 0, 0) PI 1%nat PI
                eq_refl eq_refl eq_refl eq_refl eq_refl) as H1.
  assert (Hrot : Rltb (folded_rot_error
                         (isaac_euler_xyz_from_quat quat_identity).2 PI PI)
                      rot_eps_default = true).
  { apply Rltb_true_iff. rewrite placed_rot_error.
    pose proof rot_eps_default_value. unfold rot_eps_default. lra. }
  change (euler_xyz_from_quat placed_pose_0.2)
    with (isaac_euler_xyz_from_quat quat_identity) in H0.
  change (euler_xyz_from_quat placed_pose_1.2)
    with (isaac_euler_xyz_from_quat quat_identity) in H1.
  rewrite Hrot, !norm2_xy_distance in H0, H1.
  rewrite (proj2 (Rltb_true_iff _ pos_eps_default) placed_xy_distance_0) in H0.
  rewrite (proj2 (Rltb_true_iff _ pos_eps_default) placed_xy_distance_1) in H1.
  rewrite (proj2 (Rltb_true_iff (vz placed_pose_0.1) height_eps_default)) in H0
    by (unfold height_eps_default, placed_pose_0, vz, vsub, vz; cbn; lra).
  rewrite (proj2 (Rltb_true_iff (vz placed_pose_1.1) height_eps_default)) in H1
    by (unfold height_eps_default, placed_pose_1, vz, vsub, vz; cbn; lra).
  destruct l as [|a [|b [|? ?]]]; try discriminate.
  simpl in H0, H1. congruence.
Qed.

(** The reward and the done signal of the placed scene: both environments
    are rewarded and terminated, the second one has also timed out. *)
Lemma placed_env_reward_and_done :
  @_get_rewards isaac_frame_math placed_env = Ok [1%Z; 1%Z] /\
  @_get_dones isaac_frame_math placed_env = Ok ([true; true], [false; true]).
Proof.
  unfold _get_rewards, compute_rewards, _get_dones.
  rewrite placed_env_is_success. split; reflexivity.
Qed.

(** ** The TCP resolver *)

Lemma res_map_exists {A B} (f : A -> res B) (l : list A) :
  Forall (fun x => exists y, f x = Ok y) l ->
  exists l', res_map f l = Ok l' /\ Forall2 (fun x y => f x = Ok y) l l'.
Proof.
  intros Hl.
  assert (exists l', Forall2 (fun x y => f x = Ok y) l l') as [l' Hl'].
  { induction Hl as [|x l [y Hy] _ [l' IH]].
    - exists []. constructor.
    - exists (y :: l'). by constructor. }
  exists l'. split; [by apply res_map_Forall2 | exact Hl'].
Qed.

(** Pairwise indexing in range succeeds, row by row. *)
Lemma index_pairs_in_range {A} (t : list (list A)) (rows cols : list nat) :
  length rows = length cols ->
  Forall (fun rc : nat * nat =>
            exists row, t !! rc.1 = Some row /\ (rc.2 < length row)%nat)
         (zip rows cols) ->
  exists l, index_pairs t rows cols = Ok l /\ length l = length rows /\
    forall k r c, rows !! k = Some r -> cols !! k = Some c ->
                  l !! k = (row ← t !! r; row !! c).
Proof.
  intros Hlen Hin. unfold index_pairs.
  destruct (res_map_exists
              (fun rc : nat * nat =>
                 res_bind (at_index t rc.1) (fun row => at_index row rc.2))
              (zip rows cols)) as (l & Hl & Hrows).
  { eapply Forall_impl; [exact Hin|]. simpl. intros [r c] (row & Hrow & Hc).
    simpl in *. apply lookup_lt_is_Some_2 in Hc as [a Ha].
    exists a. unfold at_index. rewrite Hrow. simpl. by rewrite Ha. }
  exists l. split; [exact Hl|].
  pose proof (Forall2_length _ _ _ Hrows) as Hlen'.
  rewrite length_zip_with in Hlen'. split; [lia|].
  intros k r c Hr Hc.
  assert (zip rows cols !! k = Some (r, c)) as Hk.
  { rewrite lookup_zip_with, Hr. simpl. by rewrite Hc. }
  destruct (Forall2_lookup_l _ _ _ _ _ Hrows Hk) as (a & Ha & Hfa).
  rewrite Ha. simpl in Hfa. unfold at_index in Hfa.
  destruct (t !! r) as [row|]; simpl in *; [|discriminate].
  destruct (row !! c); simpl in *; congruence.
Qed.

(** C9: for every environment of the subset the world TCP is the
    composition of the current wrist world pose with the cached local TCP,
    the environment origin subtracted from its position; with the wrist at
    the identity transform this is the local TCP rotation and the local TCP
    position minus the environment origin. *)
Theorem tcp_world_composes_wrist_and_local `{FrameMath}
    (self : AssemblyKitEnv) (env_ids : option (list nat)) (k e : nat)
    (hp : Vec3) (hq : Quat) (lp : Vec3) (lq : Quat) (o : Vec3) :
  tcp_ready self (default (seq 0 (num_envs self)) env_ids) ->
  default (seq 0 (num_envs self)) env_ids !! k = Some e ->
  (row ← body_pos_w (robot self) !! e; row !! hand_link_idx self) = Some hp ->
  (row ← body_quat_w (robot self) !! e; row !! hand_link_idx self) = Some hq ->
  robot_local_grasp_pos self !! e = Some lp ->
  robot_local_grasp_rot self !! e = Some lq ->
  env_origins (scene self) !! e = Some o ->
  exists (tcp_pos_env : list Vec3) (tcp_rot : list Quat),
    _compute_tcp_world self env_ids = Ok (tcp_pos_env, tcp_rot) /\
    tcp_pos_env !! k = Some (vsub (tf_combine hq hp lq lp).2 o) /\
    tcp_rot !! k = Some (tf_combine hq hp lq lp).1 /\
    (identity_is_left_unit -> hq = quat_identity -> hp = vzero ->
     tcp_pos_env !! k = Some (vsub lp o) /\ tcp_rot !! k = Some lq).
Proof.
  set (ids := default (seq 0 (num_envs self)) env_ids).
  intros [Hids Hbp Hbq Hhp Hhq Hlp Hlq Horig] Hk Hhand_pos Hhand_quat Hlocal_pos
         Hlocal_rot Ho.
  assert (Hrep : replicate (length ids) (hand_link_idx self) !! k
                 = Some (hand_link_idx self)).
  { apply lookup_replicate_2. by eapply lookup_lt_Some. }
  destruct (index_pairs_in_range (body_pos_w (robot self)) ids
              (replicate (length ids) (hand_link_idx self)))
    as (hps & Hhps & Hlen_hps & Hrows_hps).
  { by rewrite length_replicate. }
  { apply Forall_forall. intros [r c] Hrc.
    apply list_elem_of_lookup in Hrc as [j Hj].
    rewrite lookup_zip_with in Hj.
    destruct (ids !! j) as [r'|] eqn:Hr; simpl in Hj; [|discriminate].
    destruct (replicate (length ids) (hand_link_idx self) !! j) as [c'|] eqn:Hc;
      simpl in Hj; [|discriminate].
    injection Hj as <- <-. apply lookup_replicate in Hc as [-> _].
    rewrite Forall_forall in Hids.
    destruct (lookup_lt_is_Some_2 (body_pos_w (robot self)) r') as [row Hrow].
    { rewrite Hbp. apply Hids. by eapply list_elem_of_lookup_2. }
    exists row. split; [exact Hrow|]. simpl.
    rewrite Forall_forall in Hhp. apply Hhp. by eapply list_elem_of_lookup_2. }
  destruct (index_pairs_in_range (body_quat_w (robot self)) ids
              (replicate (length ids) (hand_link_idx self)))
    as (hqs & Hhqs & Hlen_hqs & Hrows_hqs).
  { by rewrite length_replicate. }
  { apply Forall_forall. intros [r c] Hrc.
    apply list_elem_of_lookup in Hrc as [j Hj].
    rewrite lookup_zip_with in Hj.
    destruct (ids !! j) as [r'|] eqn:Hr; simpl in Hj; [|discriminate].
    destruct (replicate (length ids) (hand_link_idx self) !! j) as [c'|] eqn:Hc;
      simpl in Hj; [|discriminate].
    injection Hj as <- <-. apply lookup_replicate in Hc as [-> _].
    rewrite Forall_forall in Hids.
    destruct (lookup_lt_is_Some_2 (body_quat_w (robot self)) r') as [row Hrow].
    { rewrite Hbq. apply Hids. by eapply list_elem_of_lookup_2. }
    exists row. split; [exact Hrow|]. simpl.
    rewrite Forall_forall in Hhq. apply Hhq. by eapply list_elem_of_lookup_2. }
  destruct (index_rows_in_range (robot_local_grasp_rot self) ids)
    as (lqs & Hlqs & Hlen_lqs & Hrows_lqs); [by rewrite Hlq|].
  destruct (index_rows_in_range (robot_local_grasp_pos self) ids)
    as (lps & Hlps & Hlen_lps & Hrows_lps); [by rewrite Hlp|].
  destruct (index_rows_in_range (env_origins (scene self)) ids)
    as (os & Hos & Hlen_os & Hrows_os); [by rewrite Horig|].
  unfold _compute_tcp_world. fold ids.
  rewrite Hhps. simpl. rewrite Hhqs. simpl. rewrite Hlqs. simpl.
  rewrite Hlps. simpl. rewrite Hos. simpl.
  eexists _, _. split; [reflexivity|].
  assert (Hpos : hps !! k = Some hp) by (by rewrite (Hrows_hps k e _ Hk Hrep)).
  assert (Hquat : hqs !! k = Some hq) by (by rewrite (Hrows_hqs k e _ Hk Hrep)).
  assert (Hlpk : lps !! k = Some lp) by (by rewrite (Hrows_lps k e Hk)).
  assert (Hlqk : lqs !! k = Some lq) by (by rewrite (Hrows_lqs k e Hk)).
  assert (Hok : os !! k = Some o) by (by rewrite (Hrows_os k e Hk)).
  assert (Hrow_pos :
    zip_with vsub
      (zip_with (fun a b : Quat * Vec3 => tf_combine a.1 a.2 b.1 b.2)
                (zip hqs hps) (zip lqs lps)).*2 os !! k
    = Some (vsub (tf_combine hq hp lq lp).2 o)).
  { repeat (rewrite lookup_zip_with || rewrite list_lookup_fmap).
    rewrite Hquat, Hpos, Hlqk, Hlpk, Hok. reflexivity. }
  assert (Hrow_rot :
    (zip_with (fun a b : Quat * Vec3 => tf_combine a.1 a.2 b.1 b.2)
              (zip hqs hps) (zip lqs lps)).*1 !! k
    = Some (tf_combine hq hp lq lp).1).
  { repeat (rewrite lookup_zip_with || rewrite list_lookup_fmap).
    rewrite Hquat, Hpos, Hlqk, Hlpk. reflexivity. }
  split; [exact Hrow_pos|]. split; [exact Hrow_rot|].
  intros Hunit -> ->. rewrite Hrow_pos, Hrow_rot, Hunit. split; reflexivity.
Qed.

(** The quaternion product and rotation of the reference instance have the
    identity as a left unit. *)
Lemma isaac_identity_is_left_unit : @identity_is_left_unit isaac_frame_math.
Proof.
  intros [[[w x] y] z] [[a b] c]. simpl.
  unfold quat_identity, vzero, quat_mul, quat_apply, cross, vadd, vx, vy, vz.
  cbn [fst snd]. repeat f_equal; lra.
Qed.

Lemma demo_env_tcp_ready : tcp_ready demo_env (seq 0 (num_envs demo_env)).
Proof. split; simpl; repeat constructor. Qed.

(** C9, at environment 0 of the demo scene, whose wrist is at the identity. *)
Lemma tcp_world_composes_wrist_and_local_witness :
  exists (tcp_pos_env : list Vec3) (tcp_rot : list Quat),
    @_compute_tcp_world isaac_frame_math demo_env None = Ok (tcp_pos_env, tcp_rot) /\
    tcp_pos_env !! 0%nat = Some (vsub (0, 0.04, 0.1) (0, 0, 0)) /\
    tcp_rot !! 0%nat = Some (0, 0, 1, 0).
Proof.
  destruct (@tcp_world_composes_wrist_and_local isaac_frame_math demo_env None
              0 0 vzero quat_identity (0, 0.04, 0.1) (0, 0, 1, 0) (0, 0, 0)
              demo_env_tcp_ready eq_refl eq_refl eq_refl eq_refl eq_refl eq_refl)
    as (tcp_pos_env & tcp_rot & Hrun & _ & _ & Hunit).
  exists tcp_pos_env, tcp_rot. split; [exact Hrun|].
  exact (Hunit isaac_identity_is_left_unit eq_refl eq_refl).
Defined.

(** ** The episode sampler on the concrete scenes *)

Lemma demo_do_pick (n : nat) :
  (fun u => Rltb u 0.5) <$> rand n (draw_do_pick demo_draws) = replicate n true.
Proof.
  unfold rand. generalize 0%nat. induction n as [|n IH]; intros a; simpl.
  - reflexivity.
  - f_equal; [apply Rltb_true_iff; lra | apply IH].
Qed.

Lemma other_do_pick (n : nat) :
  (fun u => Rltb u 0.5) <$> rand n (draw_do_pick other_draws) = replicate n false.
Proof.
  unfold rand. generalize 0%nat. induction n as [|n IH]; intros a; simpl.
  - reflexivity.
  - f_equal; [apply Rltb_false_iff; lra | apply IH].
Qed.

(** Unfold one call, decide its staging draws, evaluate. *)
Ltac run_sampler :=
  unfold sample_models_for_envs; cbv beta zeta;
  rewrite ?demo_do_pick, ?other_do_pick;
  vm_compute; reflexivity.

Lemma full_reset_run_eq : full_reset_run = (Ok tt, full_reset_state).
Proof. unfold full_reset_run. run_sampler. Qed.

Lemma after_full_reset_eq : after_full_reset = full_reset_state.
Proof. unfold after_full_reset. rewrite full_reset_run_eq. reflexivity. Qed.

Lemma env0_reset_run_eq : env0_reset_run = (Ok tt, env0_reset_state).
Proof. unfold env0_reset_run. rewrite after_full_reset_eq. run_sampler. Qed.

Lemma env1_reset_run_eq : env1_reset_run = (Raise IndexError, env1_failed_state).
Proof. unfold env1_reset_run. rewrite after_full_reset_eq. run_sampler. Qed.

Lemma swapped_reset_run_eq : swapped_reset_run = (Ok tt, swapped_reset_state).
Proof. unfold swapped_reset_run. run_sampler. Qed.

Lemma single_slot_run_eq :
  single_slot_run = (Raise RuntimeError, single_slot_failed_state).
Proof. unfold single_slot_run. run_sampler. Qed.

(** Evaluate a closed statement about the states of the runs. *)
Ltac read_state :=
  unfold after_reset_of_env0;
  rewrite ?env0_reset_run_eq, ?env1_reset_run_eq, ?swapped_reset_run_eq,
    ?single_slot_run_eq, ?full_reset_run_eq, ?after_full_reset_eq;
  vm_compute; reflexivity.

Lemma xy_distance_ge (P g : Vec3) (eps : R) :
  0 <= eps ->
  eps * eps <= (vx P - vx g) * (vx P - vx g) + (vy P - vy g) * (vy P - vy g) ->
  ~ xy_distance P g < eps.
Proof.
  intros Heps Hsq. unfold xy_distance. apply Rle_not_lt.
  rewrite <- (sqrt_square eps) at 1 by lra.
  apply sqrt_le_1_alt. exact Hsq.
Qed.

(** C1: the reset of environment 0 alone replaces the goal buffers by
    buffers of one row; the goal position and rotation recorded for
    environment 1 are gone, while its target slot and the poses of its
    objects stay. *)
Theorem reset_of_env0_loses_goal_of_env1 :
  full_reset_run.1 = Ok tt /\
  env0_reset_run.1 = Ok tt /\
  _current_target after_full_reset !! 1%nat = Some 1%nat /\
  target_goal_pos after_full_reset !! 1%nat = Some (-0.1, 0.05, 0) /\
  target_goal_rot after_full_reset !! 1%nat = Some 1.5 /\
  _current_target after_reset_of_env0 !! 1%nat = Some 1%nat /\
  object_pose after_reset_of_env0 0 1 = object_pose after_full_reset 0 1 /\
  object_pose after_reset_of_env0 1 1 = object_pose after_full_reset 1 1 /\
  target_goal_pos after_reset_of_env0 = [(0.1, 0, 0)] /\
  target_goal_rot after_reset_of_env0 = [0] /\
  target_goal_pos after_reset_of_env0 !! 1%nat = None /\
  target_goal_rot after_reset_of_env0 !! 1%nat = None.
Proof. repeat split; read_state. Qed.

(** C2: the goal stored for environment 1 by the full reset is the row of
    the kit table as it stands, not that row moved by the kit's world
    position and the environment origin.  The distractor which the next
    reset leaves "at goal" is written at the kit's world position plus its
    row, and an object resting there is 0.55 away from the goal stored for a
    target of that slot. *)
Theorem stored_goal_is_the_raw_kit_row :
  full_reset_run.1 = Ok tt /\
  _current_target after_full_reset !! 1%nat = Some 1%nat /\
  kit_goal_pos demo_env 1 1 = Some (-0.1, 0.05, 0) /\
  kit_world_pos demo_env 1 = Some demo_kit_pos_1 /\
  target_goal_pos after_full_reset !! 1%nat = Some (-0.1, 0.05, 0) /\
  target_goal_pos after_full_reset !! 1%nat
    <> Some (vsub (vadd demo_kit_pos_1 (-0.1, 0.05, 0)) (2, 0, 0)) /\
  object_pose after_reset_of_env0 1 0
    = Some (vadd demo_kit_pos_0 (-0.1, 0.05, 0), isaac_quat_from_euler_xyz 0 0 1.5) /\
  ~ xy_distance (vsub (vadd demo_kit_pos_0 (-0.1, 0.05, 0)) (0, 0, 0))
                (-0.1, 0.05, 0) < 0.02.
Proof.
  assert (Hgoal : target_goal_pos after_full_reset !! 1%nat = Some (-0.1, 0.05, 0))
    by read_state.
  repeat split; try read_state.
  - rewrite Hgoal. intros [= Hx Hz]. revert Hx Hz.
    cbv [demo_kit_pos_1 vsub vadd vx vy vz fst snd]. lra.
  - apply xy_distance_ge; [lra|].
    cbv [demo_kit_pos_0 vsub vadd vx vy vz fst snd]. lra.
Qed.

(** The claim C5 as it stands fails on the full reset of the demo scene:
    both environments stage their distractor, and the two positions written
    differ by the distance between the two kits. *)
Lemma staged_positions_differ_between_kits :
  full_reset_run.1 = Ok tt /\
  Rltb (draw_do_pick demo_draws 0) 0.5 = true /\
  Rltb (draw_do_pick demo_draws 1) 0.5 = true /\
  object_pose after_full_reset 1 0
    = Some (vadd demo_kit_pos_0 (side_pos demo_env), isaac_quat_from_euler_xyz 0 0 1.5) /\
  object_pose after_full_reset 0 1
    = Some (vadd demo_kit_pos_1 (side_pos demo_env), isaac_quat_from_euler_xyz 0 0 0) /\
  ~ (exists c : Vec3,
        fst <$> object_pose after_full_reset 1 0 = Some c /\
        fst <$> object_pose after_full_reset 0 1 = Some c).
Proof.
  assert (H0 : object_pose after_full_reset 1 0
    = Some (vadd demo_kit_pos_0 (side_pos demo_env), isaac_quat_from_euler_xyz 0 0 1.5))
    by read_state.
  assert (H1 : object_pose after_full_reset 0 1
    = Some (vadd demo_kit_pos_1 (side_pos demo_env), isaac_quat_from_euler_xyz 0 0 0))
    by read_state.
  split; [read_state|].
  split; [apply Rltb_true_iff; simpl; lra|].
  split; [apply Rltb_true_iff; simpl; lra|].
  split; [exact H0|]. split; [exact H1|].
  rewrite H0, H1. intros (c & [= <-] & [= Hx]). revert Hx.
  cbv [demo_kit_pos_0 demo_kit_pos_1 vadd vx vy vz fst snd]. lra.
Qed.

(** C6: on a kit of a single slot the call raises where it draws the column
    of the distractor to stage, [torch.randint(0, 0, ...)]; no pose has been
    written, not even the target's. *)
Theorem single_slot_reset_raises :
  shape1 (model_target_pos single_slot_env) = Ok 1%nat /\
  randint 0 (1 - 1) 1 (draw_cols demo_draws) = Raise RuntimeError /\
  single_slot_run.1 = Raise RuntimeError /\
  models single_slot_run.2 = models single_slot_env.
Proof. repeat split; read_state. Qed.

(** C7: the reset of environment 1 alone raises where the poses of the
    subset are stored by environment index in a buffer of one row.  The
    target slot of environment 1 is drawn anew, and no pose is written: its
    new target keeps the pose it had as staged distractor. *)
Theorem reset_of_env1_raises :
  full_reset_run.1 = Ok tt /\
  env1_reset_run.1 = Raise IndexError /\
  _current_target after_full_reset !! 1%nat = Some 1%nat /\
  _current_target env1_reset_run.2 !! 1%nat = Some 0%nat /\
  models env1_reset_run.2 = models after_full_reset /\
  object_pose env1_reset_run.2 0 1
    = Some (vadd demo_kit_pos_1 (side_pos demo_env), isaac_quat_from_euler_xyz 0 0 0) /\
  object_pose env1_reset_run.2 1 1
    = Some (vadd demo_kit_pos_1 (0.1, 0.2, 0.05),
            isaac_quat_from_euler_xyz 0 0 (0.25 * 2 * PI)).
Proof. repeat split; read_state. Qed.

(** The same slip when the call completes: naming the environments as
    [[1; 0]] writes to each the poses computed for the other; the distractor
    of environment 0 is written at its goal row from the kit of
    environment 1, two units away. *)
Lemma swapped_reset_exchanges_poses :
  swapped_reset_run.1 = Ok tt /\
  object_pose swapped_reset_run.2 1 0
    = Some (vadd demo_kit_pos_1 (-0.1, 0.05, 0), isaac_quat_from_euler_xyz 0 0 1.5) /\
  object_pose swapped_reset_run.2 1 1
    = Some (vadd demo_kit_pos_0 (-0.1, 0.05, 0), isaac_quat_from_euler_xyz 0 0 1.5).
Proof. repeat split; read_state. Qed.

(** ** Indexed stores, row by row *)

Lemma index_put_with_rows {A V} (upd : A -> V -> A) (idx : list nat) :
  forall (vals : list V) (t : list A),
    length vals = length idx ->
    Forall (fun i => i < length t)%nat idx ->
    exists t', index_put_with upd t idx vals = Ok t' /\
      length t' = length t /\
      forall i, t' !! i = (fun row => foldl upd row (written_to i idx vals)) <$> t !! i.
Proof.
  induction idx as [|e idx IH]; intros vals t Hlen Hidx.
  - destruct vals; [|discriminate]. exists t. split; [reflexivity|].
    split; [reflexivity|]. intros i. simpl. by destruct (t !! i).
  - destruct vals as [|v vals]; [discriminate|]. simpl in Hlen.
    inversion Hidx as [|? ? He Hidx']; subst.
    destruct (lookup_lt_is_Some_2 t e He) as [row Hrow].
    simpl. rewrite Hrow.
    destruct (IH vals (<[e := upd row v]> t)) as (t' & Ht' & Hlen' & Hrows).
    { lia. }
    { eapply Forall_impl; [exact Hidx'|]. simpl. intros ?.
      by rewrite length_insert. }
    exists t'. split; [exact Ht'|]. split; [by rewrite Hlen', length_insert|].
    intros i. rewrite Hrows. unfold written_to. simpl.
    destruct (Nat.eqb_spec e i) as [->|Hne].
    + rewrite list_lookup_insert_eq by lia. rewrite Hrow. reflexivity.
    + rewrite list_lookup_insert_ne by done. reflexivity.
Qed.

Lemma any_false_select {A} (mask : list bool) (l : list A) :
  any mask = false -> select mask l = [].
Proof.
  revert l. induction mask as [|b mask IH]; intros l Hany; [reflexivity|].
  simpl in Hany. apply orb_false_iff in Hany as [-> Hany].
  destruct l; simpl; auto.
Qed.

(** Selecting by a mask, then by an index test, is selecting by both. *)
Lemma written_to_select {V} (i : nat) (mask : list bool) :
  forall (ids : list nat) (vals : list V),
    length ids = length mask ->
    length vals = length mask ->
    written_to i (select mask ids) (select mask vals)
    = select (zip_with andb mask ((fun e => Nat.eqb e i) <$> ids)) vals.
Proof.
  unfold written_to.
  induction mask as [|b mask IH]; intros ids vals Hids Hvals.
  - reflexivity.
  - destruct ids as [|e ids]; [discriminate|].
    destruct vals as [|v vals]; [discriminate|].
    simpl in *. destruct b; simpl; rewrite IH by lia; reflexivity.
Qed.

(** A mask met with the test of one position of [seq] selects at most the
    value at that position. *)
Lemma select_at_position {V} (i : nat) (mask : list bool) :
  forall (a n : nat) (vals : list V),
    length mask = n ->
    length vals = n ->
    select (zip_with andb mask ((fun e => Nat.eqb e i) <$> seq a n)) vals
    = if decide (a <= i)%nat
      then match mask !! (i - a)%nat, vals !! (i - a)%nat with
           | Some true, Some v => [v]
           | _, _ => []
           end
      else [].
Proof.
  induction mask as [|b mask IH]; intros a n vals <- Hvals.
  - simpl. case_decide; reflexivity.
  - destruct vals as [|v vals]; [discriminate|]. simpl in *.
    rewrite IH by lia.
    destruct (Nat.eqb_spec a i) as [->|Hne].
    + rewrite andb_true_r, Nat.sub_diag. simpl.
      destruct b; repeat case_decide; try lia; reflexivity.
    + rewrite andb_false_r.
      case_decide as H1; case_decide as H2; try lia; try reflexivity.
      replace (i - a)%nat with (S (i - S a)) by lia. reflexivity.
Qed.

Lemma select_app {A} (m1 m2 : list bool) (l1 l2 : list A) :
  length m1 = length l1 ->
  select (m1 ++ m2) (l1 ++ l2) = select m1 l1 ++ select m2 l2.
Proof.
  revert l1. induction m1 as [|b m1 IH]; intros [|x l1] Hlen; try discriminate.
  - reflexivity.
  - simpl in *. destruct b; simpl; rewrite IH by lia; reflexivity.
Qed.

Lemma select_all_false {A} (n : nat) (l : list A) :
  select (replicate n false) l = [].
Proof.
  revert l. induction n as [|n IH]; intros [|x l]; simpl; auto.
Qed.

Lemma zip_with_andb_false_r (mask : list bool) (n : nat) :
  length mask = n -> zip_with andb mask (replicate n false) = replicate n false.
Proof.
  revert n. induction mask as [|b mask IH]; intros [|n] Hlen; try discriminate.
  - reflexivity.
  - simpl. rewrite andb_false_r, IH by (simpl in Hlen; lia). reflexivity.
Qed.

Lemma zip_with_andb_true_r (mask : list bool) (n : nat) :
  length mask = n -> zip_with andb mask (replicate n true) = mask.
Proof.
  revert n. induction mask as [|b mask IH]; intros [|n] Hlen; try discriminate.
  - reflexivity.
  - simpl. rewrite andb_true_r, IH by (simpl in Hlen; lia). reflexivity.
Qed.

Lemma fmap_replicate_eqb (w e i : nat) :
  (fun x => Nat.eqb x i) <$> replicate w e = replicate w (Nat.eqb e i).
Proof. induction w as [|w IH]; [reflexivity|]. simpl. f_equal. exact IH. Qed.

(** The flattened store of the distractors: environment [a + k] owns the
    [k]-th block of [w] entries, and row [i] receives what the mask selects
    in the block of [i]. *)
Lemma written_to_blocks {V} (i w : nat) (masks : list (list bool)) :
  forall (a n : nat) (valss : list (list V)),
    length masks = n ->
    Forall (fun mask => length mask = w) masks ->
    Forall2 (fun mask vals => length mask = length vals) masks valss ->
    select (zip_with andb (concat masks)
              ((fun e => Nat.eqb e i)
                 <$> concat ((fun e => replicate w e) <$> seq a n)))
           (concat valss)
    = if decide (a <= i)%nat
      then match masks !! (i - a)%nat, valss !! (i - a)%nat with
           | Some mask, Some vals => select mask vals
           | _, _ => []
           end
      else [].
Proof.
  induction masks as [|mask masks IH]; intros a n valss <- Hw Hrows.
  - inversion Hrows. simpl. case_decide; reflexivity.
  - inversion Hrows as [|? vals ? valss' Hlen Hrows']; subst.
    inversion Hw as [|? ? Hmask Hw']; subst.
    simpl. rewrite fmap_app, fmap_replicate_eqb.
    rewrite zip_with_app by (by rewrite length_replicate).
    rewrite select_app by (rewrite length_zip_with, length_replicate; lia).
    rewrite IH by done.
    destruct (Nat.eqb_spec a i) as [->|Hne].
    + rewrite zip_with_andb_true_r by done.
      rewrite Nat.sub_diag. simpl.
      repeat case_decide; try lia. by rewrite app_nil_r.
    + rewrite zip_with_andb_false_r by done. rewrite select_all_false. simpl.
      case_decide as H1; case_decide as H2; try lia; try reflexivity.
      replace (i - a)%nat with (S (i - S a)) by lia. reflexivity.
Qed.

(** ** Reads and stores over a prefix of the environments *)

Lemma index_rows_prefix {A} (t : list A) (m : nat) :
  (m <= length t)%nat -> index_rows t (seq 0 m) = Ok (take m t).
Proof.
  intros Hm. apply index_rows_Forall2.
  apply Forall2_same_length_lookup_2.
  { rewrite length_seq, length_take. lia. }
  intros i j a Hj Ha. apply lookup_seq in Hj as [-> Hi]. simpl.
  by rewrite lookup_take_lt in Ha by lia.
Qed.

Lemma written_to_seq {V} (i m : nat) (vals : list V) :
  length vals = m ->
  written_to i (seq 0 m) vals = match vals !! i with Some v => [v] | None => [] end.
Proof.
  intros Hlen. unfold written_to.
  pose proof (select_at_position i (replicate m true) 0 m vals) as Hsel.
  specialize (Hsel (length_replicate _ _) Hlen).
  assert (Hmask : zip_with andb (replicate m true)
                    ((fun e => Nat.eqb e i) <$> seq 0 m)
                  = (fun e => Nat.eqb e i) <$> seq 0 m).
  { generalize 0%nat. clear. induction m as [|m IH]; intros a; simpl; [done|].
    by rewrite IH. }
  rewrite Hmask in Hsel. rewrite Hsel. rewrite decide_True by lia.
  rewrite Nat.sub_0_r.
  destruct (decide (i < m)%nat) as [Hi|Hi].
  - rewrite lookup_replicate_2 by done. reflexivity.
  - rewrite (lookup_ge_None_2 (replicate m true)) by (rewrite length_replicate; lia).
    rewrite (lookup_ge_None_2 vals) by lia. reflexivity.
Qed.

Lemma index_put_prefix {A} (t vals : list A) (m : nat) :
  length vals = m -> (m <= length t)%nat ->
  index_put t (seq 0 m) vals = Ok (vals ++ drop m t).
Proof.
  intros Hlen Hm. unfold index_put.
  destruct (index_put_with_rows (fun _ v => v) (seq 0 m) vals t)
    as (t' & Ht' & Hlen' & Hrows).
  { by rewrite length_seq. }
  { apply Forall_forall. intros i Hi. apply elem_of_seq in Hi. lia. }
  rewrite Ht'. f_equal. apply list_eq. intros i. rewrite Hrows.
  rewrite written_to_seq by done.
  destruct (decide (i < m)%nat) as [Hi|Hi].
  - rewrite lookup_app_l by lia.
    destruct (lookup_lt_is_Some_2 vals i) as [v Hv]; [lia|].
    destruct (lookup_lt_is_Some_2 t i) as [x Hx]; [lia|].
    rewrite Hv, Hx. reflexivity.
  - rewrite lookup_app_r by lia. rewrite lookup_drop.
    rewrite (lookup_ge_None_2 vals) by lia.
    replace (m + (i - length vals))%nat with i by lia.
    by destruct (t !! i).
Qed.

Lemma randint_ok (low high size : nat) (raw : nat -> nat) :
  (low < high)%nat ->
  randint low high size raw
  = Ok ((fun k => low + raw k mod (high - low))%nat <$> seq 0 size).
Proof.
  intros Hlt. unfold randint. destruct (Nat.ltb_spec low high); [reflexivity|lia].
Qed.

Lemma shape1_ok {A} (t : list (list A)) (K : nat) :
  t <> [] -> Forall (fun row => length row = K) t -> shape1 t = Ok K.
Proof.
  destruct t as [|row t]; [done|]. intros _ Hrows.
  inversion Hrows; subst. reflexivity.
Qed.

(** ** The distractor slots *)

Lemma select_others_above (c : nat) :
  forall n a : nat,
    (c < a)%nat ->
    select ((fun j => negb (Nat.eqb j c)) <$> seq a n) (seq a n) = seq a n.
Proof.
  induction n as [|n IH]; intros a Hc; [reflexivity|]. simpl.
  destruct (Nat.eqb_spec a c); [lia|]. simpl. f_equal. apply IH. lia.
Qed.

Lemma select_others (c : nat) :
  forall n a : nat,
    (a <= c < a + n)%nat ->
    select ((fun j => negb (Nat.eqb j c)) <$> seq a n) (seq a n)
    = seq a (c - a) ++ seq (S c) (a + n - S c).
Proof.
  induction n as [|n IH]; intros a Hc; [lia|]. simpl.
  destruct (Nat.eqb_spec a c) as [->|Hne]; simpl.
  - rewrite Nat.sub_diag. simpl.
    replace (c + S n - S c)%nat with n by lia.
    apply select_others_above. lia.
  - rewrite IH by lia.
    replace (c - a)%nat with (S (c - S a)) by lia.
    rewrite <- cons_seq, <- app_comm_cons. do 3 f_equal. lia.
Qed.

Lemma distractor_slots_select (K c : nat) :
  (c < K)%nat ->
  select ((fun j => negb (Nat.eqb j c)) <$> seq 0 K) (seq 0 K) = distractor_slots K c.
Proof.
  intros Hc. rewrite select_others by lia. unfold distractor_slots.
  by rewrite Nat.sub_0_r.
Qed.

Lemma distractor_slots_length (K c : nat) :
  (c < K)%nat -> length (distractor_slots K c) = (K - 1)%nat.
Proof. intros Hc. unfold distractor_slots. rewrite length_app, !length_seq. lia. Qed.

(** A slot is a distractor at exactly one column, unless it is the target. *)
Lemma distractor_slots_elem (K c j : nat) :
  (c < K)%nat -> j ∈ distractor_slots K c <-> (j < K)%nat /\ j <> c.
Proof.
  intros Hc. unfold distractor_slots. rewrite elem_of_app, !elem_of_seq. lia.
Qed.

Lemma distractor_slots_NoDup (K c : nat) : NoDup (distractor_slots K c).
Proof.
  unfold distractor_slots. apply NoDup_app. split; [apply NoDup_seq|].
  split; [|apply NoDup_seq].
  intros x Hx Hx'. apply elem_of_seq in Hx. apply elem_of_seq in Hx'. lia.
Qed.

Lemma select_eqb_absent {V} (j : nat) (l : list nat) :
  forall vals : list V,
    j ∉ l -> select ((fun i => Nat.eqb i j) <$> l) vals = [].
Proof.
  induction l as [|x l IH]; intros vals Hj; [reflexivity|].
  apply not_elem_of_cons in Hj as [Hne Hj].
  destruct vals as [|v vals]; [reflexivity|]. simpl.
  destruct (Nat.eqb_spec x j); [congruence|]. by apply IH.
Qed.

(** In a list without repetition, the test of one element selects the
    value at its position. *)
Lemma select_eqb_at {V} (j : nat) (l : list nat) :
  forall (vals : list V) (col : nat) (v : V),
    NoDup l -> l !! col = Some j -> vals !! col = Some v ->
    select ((fun i => Nat.eqb i j) <$> l) vals = [v].
Proof.
  induction l as [|x l IH]; intros vals col v Hnd Hcol Hv; [done|].
  destruct vals as [|y vals]; [done|].
  inversion Hnd as [|? ? Hx Hnd']; subst. simpl.
  destruct col as [|col]; simpl in *.
  - injection Hcol as ->. injection Hv as ->. rewrite Nat.eqb_refl.
    by rewrite select_eqb_absent.
  - destruct (Nat.eqb_spec x j) as [->|Hne].
    + exfalso. apply Hx. by eapply list_elem_of_lookup_2.
    + by eapply IH.
Qed.

(** ** Views, gathers and the staging mask *)

Lemma view_concat {A} (w : nat) (rows : list (list A)) :
  Forall (fun row => length row = w) rows ->
  view (length rows) w (concat rows) = Ok rows.
Proof.
  intros Hrows. unfold view.
  assert (Hlen : length (concat rows) = (length rows * w)%nat).
  { induction Hrows as [|row rows Hrow _ IH]; [reflexivity|].
    simpl. rewrite length_app, IH, Hrow. reflexivity. }
  rewrite Hlen, Nat.eqb_refl. f_equal.
  clear Hlen. induction Hrows as [|row rows Hrow Hrows IH]; [reflexivity|].
  simpl. f_equal.
  - rewrite drop_0, take_app_length' by done. reflexivity.
  - etransitivity; [|exact IH]. rewrite <- fmap_S_seq, <- list_fmap_compose.
    apply list_fmap_ext. intros i k _. simpl.
    replace (w + k * w)%nat with (length row + k * w)%nat by lia.
    by rewrite drop_app_add'.
Qed.

Lemma gather1_ok (input : list (list nat)) (index : list nat) (K : nat) :
  length index = length input ->
  Forall (fun row => length row = K) input ->
  Forall (fun i => i < K)%nat index ->
  exists l, gather1 input index = Ok l /\ length l = length index.
Proof.
  intros Hlen Hrows Hidx. unfold gather1.
  destruct (Nat.leb_spec (length index) (length input)); [|lia].
  destruct (res_map_exists
              (fun ri : list nat * nat => of_option RuntimeError (ri.1 !! ri.2))
              (zip (take (length index) input) index)) as (l & Hl & Hl2).
  { apply Forall_forall. intros [row i] Hin.
    apply list_elem_of_lookup in Hin as [k Hk].
    rewrite lookup_zip_with in Hk.
    destruct (take (length index) input !! k) as [row'|] eqn:Hrow; [|done].
    simpl in Hk. destruct (index !! k) as [i'|] eqn:Hi; [|done].
    injection Hk as <- <-. simpl.
    apply lookup_take_Some in Hrow as [Hrow _].
    rewrite Forall_forall in Hrows. rewrite Forall_forall in Hidx.
    destruct (lookup_lt_is_Some_2 row' i') as [x Hx].
    { rewrite (Hrows row') by (by eapply list_elem_of_lookup_2).
      apply Hidx. by eapply list_elem_of_lookup_2. }
    exists x. by rewrite Hx. }
  exists l. split; [exact Hl|].
  apply Forall2_length in Hl2. rewrite <- Hl2, length_zip_with, length_take. lia.
Qed.

(** A gather which succeeds picks, in every row, the column the index
    names. *)
Lemma gather1_rows (input : list (list nat)) (index : list nat) (l : list nat) :
  gather1 input index = Ok l ->
  length l = length index /\
  forall i, (i < length index)%nat ->
    l !! i = (row ← input !! i; c ← index !! i; row !! c).
Proof.
  unfold gather1. destruct (Nat.leb_spec (length index) (length input)); [|done].
  intros Hl. apply res_map_Forall2 in Hl.
  pose proof (Forall2_length _ _ _ Hl) as Hlen.
  rewrite length_zip_with, length_take in Hlen.
  split; [lia|]. intros i Hi.
  destruct (lookup_lt_is_Some_2 input i) as [row Hrow]; [lia|].
  destruct (lookup_lt_is_Some_2 index i) as [c Hc]; [lia|].
  assert (Hk : zip (take (length index) input) index !! i = Some (row, c)).
  { rewrite lookup_zip_with, lookup_take_lt, Hrow by done. simpl. by rewrite Hc. }
  destruct (Forall2_lookup_l _ _ _ _ _ Hl Hk) as (x & Hx & Hfx).
  rewrite Hx, Hrow, Hc. simpl in *. destruct (row !! c); simpl in *; congruence.
Qed.

(** The staging mask: entries are only ever set, so the entry of every pair
    stored is set, the others are as before, and the shape stays. *)
Lemma index_put2_true (rows : list nat) :
  forall (cols : list nat) (t : list (list bool)),
    length rows = length cols ->
    Forall (fun rc : nat * nat =>
              exists row, t !! rc.1 = Some row /\ (rc.2 < length row)%nat)
           (zip rows cols) ->
    exists t', index_put2 t rows cols true = Ok t' /\
      length t' = length t /\
      (forall r row, t !! r = Some row ->
         exists row', t' !! r = Some row' /\ length row' = length row /\
           forall c, row' !! c =
             if decide ((r, c) ∈ zip rows cols) then
               (if decide (c < length row)%nat then Some true else None)
             else row !! c).
Proof.
  induction rows as [|r0 rows IH]; intros cols t Hlen Hin.
  - destruct cols; [|discriminate]. exists t. split; [reflexivity|].
    split; [reflexivity|]. intros r row Hrow. exists row.
    split; [exact Hrow|]. split; [reflexivity|]. intros c.
    rewrite decide_False; [reflexivity|]. simpl. apply not_elem_of_nil.
  - destruct cols as [|c0 cols]; [discriminate|]. simpl in Hlen.
    simpl in Hin. inversion Hin as [|? ? (row0 & Hrow0 & Hc0) Hin']; subst.
    simpl in Hrow0, Hc0. simpl. rewrite Hrow0.
    destruct (Nat.ltb_spec c0 (length row0)); [|lia].
    destruct (IH cols (<[r0 := <[c0 := true]> row0]> t)) as (t' & Ht' & Hlen' & Hrows).
    { lia. }
    { eapply Forall_impl; [exact Hin'|]. simpl. intros [r c] (row & Hrow & Hc).
      simpl in *. destruct (decide (r = r0)) as [->|Hne].
      - exists (<[c0 := true]> row0).
        rewrite list_lookup_insert_eq by (by eapply lookup_lt_Some).
        split; [reflexivity|]. rewrite length_insert. congruence.
      - exists row. by rewrite list_lookup_insert_ne. }
    exists t'. split; [exact Ht'|]. split; [by rewrite Hlen', length_insert|].
    intros r row Hrow.
    destruct (decide (r = r0)) as [->|Hne].
    + assert (row = row0) as -> by congruence.
      destruct (Hrows r0 (<[c0 := true]> row0)) as (row' & Hrow' & Hlenrow & Hcs).
      { rewrite list_lookup_insert_eq by (by eapply lookup_lt_Some). reflexivity. }
      exists row'. split; [exact Hrow'|].
      split; [by rewrite Hlenrow, length_insert|].
      intros c. rewrite Hcs. rewrite length_insert.
      destruct (decide ((r0, c) ∈ zip rows cols)) as [Hel|Hel];
        destruct (decide ((r0, c) ∈ (r0, c0) :: zip rows cols)) as [Hel'|Hel'].
      * reflexivity.
      * exfalso. apply Hel'. by apply list_elem_of_further.
      * apply elem_of_cons in Hel' as [[= ->]|?]; [|done].
        rewrite list_lookup_insert_eq by lia. case_decide; [reflexivity|lia].
      * rewrite list_lookup_insert_ne; [reflexivity|].
        intros ->. apply Hel'. apply list_elem_of_here.
    + destruct (Hrows r row) as (row' & Hrow' & Hlenrow & Hcs).
      { by rewrite list_lookup_insert_ne. }
      exists row'. split; [exact Hrow'|]. split; [exact Hlenrow|].
      intros c. rewrite Hcs.
      destruct (decide ((r, c) ∈ zip rows cols)) as [Hel|Hel];
        destruct (decide ((r, c) ∈ (r0, c0) :: zip rows cols)) as [Hel'|Hel'].
      * reflexivity.
      * exfalso. apply Hel'. by apply list_elem_of_further.
      * apply elem_of_cons in Hel' as [[= ? ?]|?]; done.
      * reflexivity.
Qed.

(** ** One pass of the loop *)

Lemma select_fmap {A B} (f : A -> B) (mask : list bool) (l : list A) :
  select mask (f <$> l) = f <$> select mask l.
Proof.
  revert l. induction mask as [|b mask IH]; intros [|x l]; simpl; try reflexivity.
  destruct b; simpl; by rewrite IH.
Qed.

Lemma select_length {A B} (mask : list bool) (l1 : list A) (l2 : list B) :
  length l1 = length l2 -> length (select mask l1) = length (select mask l2).
Proof.
  revert l1 l2. induction mask as [|b mask IH]; intros [|x l1] [|y l2] Hlen;
    try discriminate; simpl; try reflexivity.
  destruct b; simpl; rewrite (IH l1 l2) by (simpl in Hlen; lia); reflexivity.
Qed.

Lemma select_elem_of {A} (mask : list bool) (l : list A) (x : A) :
  x ∈ select mask l -> x ∈ l.
Proof.
  revert l. induction mask as [|b mask IH]; intros l; simpl.
  - intros Hx. by apply elem_of_nil in Hx.
  - destruct l as [|y l]; [intros Hx; by apply elem_of_nil in Hx|].
    destruct b; rewrite ?elem_of_cons; intros Hx; [destruct Hx|]; auto.
Qed.

Lemma fmap_concat_rows {A B} (f : A -> B) (rows : list (list A)) :
  f <$> concat rows = concat ((fun row : list A => f <$> row) <$> rows).
Proof.
  induction rows as [|row rows IH]; [reflexivity|].
  simpl. by rewrite fmap_app, IH.
Qed.

Section Pass.
Context `{FrameMath}.

Lemma place_model_unfold (env_ids choice : list nat)
    (target_pos : list Vec3) (target_quat : list Quat)
    (envs_o_flat idx_o_flat : list nat) (pos_o_flat : list Vec3)
    (rot_o_flat : list R) (model_idx : nat) (self : AssemblyKitEnv) :
  place_model env_ids choice target_pos target_quat envs_o_flat idx_o_flat
              pos_o_flat rot_o_flat model_idx self
  = match at_index (models self) model_idx with
    | Ok model =>
        match place_rows env_ids choice target_pos target_quat envs_o_flat
                         idx_o_flat pos_o_flat rot_o_flat model_idx model with
        | Ok written =>
            (Ok tt, set_models (<[model_idx := written]> (models self)) self)
        | Raise e => (Raise e, self)
        end
    | Raise e => (Raise e, self)
    end.
Proof.
  unfold place_model, place_rows, bind, attempt, lift, assign.
  destruct (at_index (models self) model_idx) as [model|e]; [|reflexivity].
  destruct (index_rows (default_root_state model) env_ids) as [d0|e];
    [|reflexivity].
  cbn [res_bind].
  destruct (if any ((fun c => Nat.eqb c model_idx) <$> choice) then _ else _)
    as [d1|e]; [|reflexivity].
  cbn [res_bind].
  destruct (if any ((fun i => Nat.eqb i model_idx) <$> idx_o_flat) then _ else _)
    as [d2|e]; [|reflexivity].
  cbn [res_bind].
  destruct (write_root_pose_to_sim model d2 env_ids) as [written|e]; reflexivity.
Qed.

(** Two guarded stores through one list of indices: the positions, then the
    quaternions. *)
Lemma guarded_puts {V1 V2} (up : Pose -> V1 -> Pose) (uq : Pose -> V2 -> Pose)
    (t : list Pose) (b : bool) (idx : list nat) (p : list V1) (q : list V2) :
  length p = length idx ->
  length q = length idx ->
  Forall (fun i => i < length t)%nat idx ->
  (b = false -> idx = []) ->
  exists t',
    (if b then (d <- index_put_with up t idx p ;; index_put_with uq d idx q)%res
     else Ok t) = Ok t' /\
    length t' = length t /\
    forall i, t' !! i
      = (fun row => foldl uq (foldl up row (written_to i idx p)) (written_to i idx q))
          <$> t !! i.
Proof.
  intros Hp Hq Hidx Hb. destruct b.
  - destruct (index_put_with_rows up idx p t Hp Hidx) as (t1 & Ht1 & Hlen1 & Hrows1).
    destruct (index_put_with_rows uq idx q t1 Hq) as (t2 & Ht2 & Hlen2 & Hrows2).
    { by rewrite Hlen1. }
    exists t2. rewrite Ht1. simpl. split; [exact Ht2|]. split; [congruence|].
    intros i. rewrite Hrows2, Hrows1. by destruct (t !! i).
  - rewrite (Hb eq_refl) in *. destruct p; [|discriminate].
    destruct q; [|discriminate]. exists t. split; [reflexivity|].
    split; [reflexivity|]. intros i. by destruct (t !! i).
Qed.

End Pass.

Lemma length_concat_uniform {A} (w : nat) (rows : list (list A)) :
  Forall (fun row => length row = w) rows ->
  length (concat rows) = (length rows * w)%nat.
Proof.
  induction 1 as [|row rows Hrow _ IH]; [reflexivity|].
  simpl. rewrite length_app, IH, Hrow. reflexivity.
Qed.

Lemma Forall2_length_uniform {A B} (w : nat) (l1 : list (list A)) (l2 : list (list B)) :
  Forall (fun row => length row = w) l1 ->
  Forall2 (fun r1 r2 => length r1 = length r2) l1 l2 ->
  Forall (fun row => length row = w) l2.
Proof.
  intros H1 H2. induction H2 as [|r1 r2 l1 l2 Hr _ IH]; [constructor|].
  inversion H1; subst. constructor; [congruence|auto].
Qed.

Lemma elem_of_concat_replicate (w i : nat) (l : list nat) :
  i ∈ concat ((fun e => replicate w e) <$> l) -> i ∈ l.
Proof.
  induction l as [|e l IH]; simpl; [done|].
  rewrite elem_of_app, elem_of_cons. intros [Hi|Hi]; [|auto].
  left. by eapply elem_of_replicate_inv.
Qed.

Section PassRows.
Context `{FrameMath}.

(** One pass of the loop over the first [m] environments: row [e] of the
    model starts from its default root state, takes the target pose if the
    slot is the target of [e], then what the block of [e] of the flattened
    distractors holds for the slot; the rows of the other environments are
    not written. *)
Lemma place_rows_prefix (m w : nat) (choice : list nat)
    (target_pos : list Vec3) (target_quat : list Quat)
    (others_idx : list (list nat)) (others_pos_w : list (list Vec3))
    (others_rot : list (list R)) (j : nat) (mo : RigidObject) :
  (m <= length (default_root_state mo))%nat ->
  (m <= length (root_state_w mo))%nat ->
  length choice = m -> length target_pos = m -> length target_quat = m ->
  length others_idx = m ->
  Forall (fun row => length row = w) others_idx ->
  Forall2 (fun idxs vals => length idxs = length vals) others_idx others_pos_w ->
  Forall2 (fun idxs vals => length idxs = length vals) others_idx others_rot ->
  exists wr,
    place_rows (seq 0 m) choice target_pos target_quat
      (concat ((fun e => replicate w e) <$> seq 0 m)) (concat others_idx)
      (concat others_pos_w) (concat others_rot) j mo = Ok wr /\
    default_root_state wr = default_root_state mo /\
    length (root_state_w wr) = length (root_state_w mo) /\
    forall e, root_state_w wr !! e =
      if decide (e < m)%nat then
        (fun d0 : Pose =>
           let t_pos := match ((fun c => Nat.eqb c j) <$> choice) !! e, target_pos !! e with
                        | Some true, Some v => [v] | _, _ => [] end in
           let t_quat := match ((fun c => Nat.eqb c j) <$> choice) !! e, target_quat !! e with
                         | Some true, Some v => [v] | _, _ => [] end in
           let o_pos := match others_idx !! e, others_pos_w !! e with
                        | Some idxs, Some vals =>
                            select ((fun i => Nat.eqb i j) <$> idxs) vals
                        | _, _ => [] end in
           let o_quat := match others_idx !! e, others_rot !! e with
                         | Some idxs, Some rots =>
                             select ((fun i => Nat.eqb i j) <$> idxs)
                                    (quat_from_euler_xyz 0 0 <$> rots)
                         | _, _ => [] end in
           foldl (fun (P : Pose) q => (P.1, q))
             (foldl (fun (P : Pose) v => (v, P.2))
                (foldl (fun (P : Pose) q => (P.1, q))
                   (foldl (fun (P : Pose) v => (v, P.2)) d0 t_pos) t_quat)
                o_pos) o_quat)
          <$> default_root_state mo !! e
      else root_state_w mo !! e.
Proof.
  intros Hd Hw Hchoice Htp Htq Hoi Hoiw Hop Hor.
  pose proof (Forall2_length_uniform w _ _ Hoiw Hop) as Hopw.
  pose proof (Forall2_length_uniform w _ _ Hoiw Hor) as Horw.
  pose proof (Forall2_length _ _ _ Hop) as Hoplen.
  pose proof (Forall2_length _ _ _ Hor) as Horlen.
  assert (Hflat : length (concat ((fun e => replicate w e) <$> seq 0 m)) = (m * w)%nat).
  { rewrite (length_concat_uniform w).
    - by rewrite length_fmap, length_seq.
    - apply Forall_fmap, Forall_forall. intros e _. simpl. apply length_replicate. }
  unfold place_rows. rewrite index_rows_prefix by done. cbn [res_bind].
  set (mask_t := (fun c => Nat.eqb c j) <$> choice).
  set (mask_o := (fun i => Nat.eqb i j) <$> concat others_idx).
  destruct (guarded_puts (fun (P : Pose) (v : Vec3) => (v, P.2))
              (fun (P : Pose) (q : Quat) => (P.1, q))
              (take m (default_root_state mo)) (any mask_t)
              (select mask_t (seq 0 m)) (select mask_t target_pos)
              (select mask_t target_quat))
    as (t1 & Ht1 & Hlen1 & Hrows1).
  { apply select_length. rewrite length_seq. lia. }
  { apply select_length. rewrite length_seq. lia. }
  { apply Forall_forall. intros i Hi. apply select_elem_of, elem_of_seq in Hi.
    rewrite length_take. lia. }
  { intros Hany. by apply any_false_select. }
  rewrite Ht1. cbn [res_bind].
  destruct (guarded_puts (fun (P : Pose) (v : Vec3) => (v, P.2))
              (fun (P : Pose) (q : Quat) => (P.1, q))
              t1 (any mask_o)
              (select mask_o (concat ((fun e => replicate w e) <$> seq 0 m)))
              (select mask_o (concat others_pos_w))
              (quat_from_euler_xyz 0 0 <$> select mask_o (concat others_rot)))
    as (t2 & Ht2 & Hlen2 & Hrows2).
  { apply select_length. rewrite Hflat, (length_concat_uniform w) by done. lia. }
  { rewrite length_fmap. apply select_length.
    rewrite Hflat, (length_concat_uniform w) by done. lia. }
  { apply Forall_forall. intros i Hi. apply select_elem_of in Hi.
    apply elem_of_concat_replicate, elem_of_seq in Hi.
    rewrite Hlen1, length_take. lia. }
  { intros Hany. by apply any_false_select. }
  rewrite Ht2. cbn [res_bind].
  rewrite length_take in Hlen1.
  unfold write_root_pose_to_sim. rewrite index_put_prefix by lia.
  cbn [res_bind]. eexists. split; [reflexivity|]. cbn [default_root_state root_state_w].
  split; [reflexivity|].
  split. { rewrite length_app, length_drop. lia. }
  intros e. case_decide as He.
  - rewrite lookup_app_l by lia. rewrite Hrows2, Hrows1.
    rewrite lookup_take_lt by lia.
    destruct (default_root_state mo !! e) as [d0|]; [|reflexivity].
    cbn [fmap option_fmap option_map]. f_equal.
    rewrite <- select_fmap. unfold mask_t, mask_o.
    rewrite !written_to_select
      by (rewrite ?length_fmap, ?length_seq, ?Hflat, ?(length_concat_uniform w);
          (done || lia)).
    rewrite !(select_at_position e _ 0 m) by (rewrite ?length_fmap; lia).
    rewrite !decide_True by lia. rewrite Nat.sub_0_r.
    rewrite (fmap_concat_rows (fun i => Nat.eqb i j) others_idx).
    rewrite (fmap_concat_rows (quat_from_euler_xyz 0 0) others_rot).
    assert (Hm1 : Forall (fun mask : list bool => length mask = w)
                    ((fun row : list nat => (fun i => Nat.eqb i j) <$> row)
                       <$> others_idx)).
    { apply Forall_fmap. eapply Forall_impl; [exact Hoiw|].
      simpl. intros row <-. apply length_fmap. }
    assert (Hm2 : Forall2 (fun (mask : list bool) (vals : list Vec3) =>
                             length mask = length vals)
                    ((fun row : list nat => (fun i => Nat.eqb i j) <$> row)
                       <$> others_idx) others_pos_w).
    { apply Forall2_fmap_l. eapply Forall2_impl; [exact Hop|].
      simpl. intros row vals <-. apply length_fmap. }
    assert (Hm3 : Forall2 (fun (mask : list bool) (vals : list Quat) =>
                             length mask = length vals)
                    ((fun row : list nat => (fun i => Nat.eqb i j) <$> row)
                       <$> others_idx)
                    ((fun row : list R => quat_from_euler_xyz 0 0 <$> row)
                       <$> others_rot)).
    { apply Forall2_fmap. eapply Forall2_impl; [exact Hor|].
      simpl. intros row vals Hrv. by rewrite !length_fmap. }
    rewrite (written_to_blocks e w _ 0 m others_pos_w)
      by (rewrite ?length_fmap; done).
    rewrite (written_to_blocks e w _ 0 m
               ((fun row : list R => quat_from_euler_xyz 0 0 <$> row) <$> others_rot))
      by (rewrite ?length_fmap; done).
    rewrite !decide_True by lia. rewrite Nat.sub_0_r.
    rewrite !list_lookup_fmap.
    destruct (others_idx !! e) as [idxs|]; simpl;
      destruct (others_pos_w !! e) as [vals|]; simpl;
      destruct (others_rot !! e) as [rots|]; simpl; reflexivity.
  - rewrite lookup_app_r by lia. rewrite lookup_drop. f_equal. lia.
Qed.

End PassRows.

(** ** The loop over the models *)

Lemma set_models_same (self : AssemblyKitEnv) : set_models (models self) self = self.
Proof. by destruct self. Qed.

Lemma bind_attempt {A B} (f : AssemblyKitEnv -> res A) (k : A -> M B)
    (self : AssemblyKitEnv) (a : A) :
  f self = Ok a -> bind (attempt f) k self = k a self.
Proof. intros Hf. unfold bind, attempt. by rewrite Hf. Qed.

Lemma bind_lift {A B} (r : res A) (k : A -> M B) (self : AssemblyKitEnv) (a : A) :
  r = Ok a -> bind (lift r) k self = k a self.
Proof. intros ->. reflexivity. Qed.

Lemma bind_assign {B} (f : AssemblyKitEnv -> AssemblyKitEnv) (k : unit -> M B)
    (self : AssemblyKitEnv) :
  bind (assign f) k self = k tt (f self).
Proof. reflexivity. Qed.

Lemma bind_read {A B} (f : AssemblyKitEnv -> A) (k : A -> M B) (self : AssemblyKitEnv) :
  bind (read f) k self = k (f self) self.
Proof. reflexivity. Qed.

Section Loop.
Context `{FrameMath}.
Variables (env_ids choice : list nat) (target_pos : list Vec3)
  (target_quat : list Quat) (envs_o_flat idx_o_flat : list nat)
  (pos_o_flat : list Vec3) (rot_o_flat : list R).

Let pass := place_rows env_ids choice target_pos target_quat envs_o_flat
                       idx_o_flat pos_o_flat rot_o_flat.

(** The loop writes the model of every slot it visits, and only those. *)
Lemma for_each_place_model (n : nat) :
  forall (a : nat) (self : AssemblyKitEnv),
    (forall j, (a <= j < a + n)%nat ->
       exists mo wr, models self !! j = Some mo /\ pass j mo = Ok wr) ->
    exists ms',
      for_each (seq a n)
        (place_model env_ids choice target_pos target_quat envs_o_flat
                     idx_o_flat pos_o_flat rot_o_flat) self
      = (Ok tt, set_models ms' self) /\
      length ms' = length (models self) /\
      forall j mo, models self !! j = Some mo ->
        ms' !! j = if decide (a <= j < a + n)%nat
                   then match pass j mo with Ok wr => Some wr | Raise _ => None end
                   else Some mo.
Proof.
  induction n as [|n IH]; intros a self Hpass.
  - exists (models self). simpl. unfold ret. rewrite set_models_same.
    split; [reflexivity|]. split; [reflexivity|].
    intros j mo Hmo. rewrite decide_False by lia. exact Hmo.
  - destruct (Hpass a) as (mo & wr & Hmo & Hwr); [lia|].
    simpl. unfold bind at 1. rewrite place_model_unfold.
    unfold at_index. rewrite Hmo. simpl. fold pass. rewrite Hwr.
    destruct (IH (S a) (set_models (<[a := wr]> (models self)) self))
      as (ms' & Hrun & Hlen & Hrows).
    { intros j Hj. destruct (Hpass j) as (mo' & wr' & Hmo' & Hwr'); [lia|].
      exists mo', wr'. simpl. rewrite list_lookup_insert_ne by lia. auto. }
    exists ms'. split; [exact Hrun|].
    simpl in Hlen. rewrite length_insert in Hlen. split; [exact Hlen|].
    intros j mo' Hmo'. simpl in Hrows.
    destruct (decide (j = a)) as [->|Hne].
    + assert (mo' = mo) as -> by congruence.
      rewrite (Hrows a wr).
      * rewrite decide_False by lia. rewrite decide_True by lia.
        fold pass. by rewrite Hwr.
      * rewrite list_lookup_insert_eq; [reflexivity|]. by eapply lookup_lt_Some.
    + rewrite (Hrows j mo') by (by rewrite list_lookup_insert_ne).
      repeat case_decide; try lia; reflexivity.
Qed.

End Loop.

(** ** The tensors the sampler computes before the loop *)

Lemma others_idx_view (K : nat) (choice : list nat) :
  Forall (fun c => c < K)%nat choice ->
  view (length choice) (K - 1)
       (select
          (concat (zip_with (fun (cols : list nat) (c : nat) =>
                               (fun j => negb (Nat.eqb j c)) <$> cols)
                            ((fun _ => seq 0 K) <$> choice) choice))
          (concat ((fun _ => seq 0 K) <$> choice)))
  = Ok (distractor_slots K <$> choice).
Proof.
  intros Hchoice.
  assert (Hrows :
    select
      (concat (zip_with (fun (cols : list nat) (c : nat) =>
                           (fun j => negb (Nat.eqb j c)) <$> cols)
                        ((fun _ => seq 0 K) <$> choice) choice))
      (concat ((fun _ => seq 0 K) <$> choice))
    = concat (distractor_slots K <$> choice)).
  { induction Hchoice as [|c choice Hc _ IH]; [reflexivity|].
    rewrite !fmap_cons. cbn [zip_with concat].
    rewrite select_app by (by rewrite length_fmap).
    rewrite IH. by rewrite distractor_slots_select. }
  rewrite Hrows.
  rewrite <- (length_fmap (distractor_slots K) choice).
  apply view_concat. apply Forall_fmap.
  eapply Forall_impl; [exact Hchoice|]. simpl. intros c Hc.
  by apply distractor_slots_length.
Qed.

(** [t[idx_b, others_idx]]: row [e] of the result holds the entries of row
    [e] of [t] at the columns of row [e] of [others_idx]. *)
Lemma index_by_rows {A} (K : nat) (rows : list (list A)) :
  forall idxs : list (list nat),
    length rows = length idxs ->
    Forall (fun row => length row = K) rows ->
    Forall (fun idx => Forall (fun i => i < K)%nat idx) idxs ->
    exists out,
      res_map (fun ri : list A * list nat => index_rows ri.1 ri.2) (zip rows idxs)
      = Ok out /\
      Forall2 (fun (idx : list nat) (o : list A) => length idx = length o) idxs out /\
      forall e row idx, rows !! e = Some row -> idxs !! e = Some idx ->
        exists o, out !! e = Some o /\
          forall col i, idx !! col = Some i -> o !! col = row !! i.
Proof.
  induction rows as [|row rows IH]; intros [|idx idxs] Hlen Hrows Hidxs;
    try discriminate.
  - exists []. split; [reflexivity|]. split; [constructor|]. intros e ? ? [=].
  - inversion Hrows as [|? ? Hrow Hrows']; subst.
    inversion Hidxs as [|? ? Hidx Hidxs']; subst.
    destruct (index_rows_in_range row idx) as (o & Ho & Hlo & Hrowo).
    { eapply Forall_impl; [exact Hidx|]. simpl. lia. }
    destruct (IH idxs) as (out & Hout & Hlens & Hpoint); [simpl in Hlen; lia|done..|].
    exists (o :: out). simpl. rewrite Ho, Hout. split; [reflexivity|].
    split; [constructor; [done|exact Hlens]|].
    intros [|e] row' idx'; simpl.
    + intros [= <-] [= <-]. exists o. split; [reflexivity|exact Hrowo].
    + apply Hpoint.
Qed.

(** The pairs stored in the staging mask. *)
Lemma elem_of_zip_select (mask : list bool) :
  forall (a n : nat) (cols : list nat) (e c : nat),
    length mask = n ->
    length cols = n ->
    (e, c) ∈ zip (select mask (seq a n)) (select mask cols) <->
    (a <= e)%nat /\ mask !! (e - a)%nat = Some true /\ cols !! (e - a)%nat = Some c.
Proof.
  induction mask as [|b mask IH]; intros a n cols e c <- Hlen.
  - simpl. split; [intros Hel; by apply elem_of_nil in Hel|].
    intros (_ & [=] & _).
  - destruct cols as [|c0 cols]; [discriminate|]. simpl in Hlen.
    assert (Hrest : forall P : Prop,
      (P <-> (S a <= e)%nat /\ mask !! (e - S a)%nat = Some true
                            /\ cols !! (e - S a)%nat = Some c) ->
      (a <> e \/ b = false \/ c0 <> c) ->
      P <-> (a <= e)%nat /\ (b :: mask) !! (e - a)%nat = Some true
                         /\ (c0 :: cols) !! (e - a)%nat = Some c).
    { intros P HP Hne. rewrite HP. split.
      - intros (Hle & Hm & Hc). replace (e - a)%nat with (S (e - S a)) by lia.
        simpl. split; [lia|done].
      - intros (Hle & Hm & Hc). destruct (decide (a = e)) as [->|Hae].
        + rewrite Nat.sub_diag in Hm, Hc. simpl in Hm, Hc.
          destruct Hne as [?|[?|?]]; congruence.
        + replace (e - a)%nat with (S (e - S a)) in Hm, Hc by lia.
          simpl in Hm, Hc. split; [lia|done]. }
    simpl. destruct b; simpl.
    + rewrite elem_of_cons. rewrite (IH (S a) (length mask) cols e c) by lia.
      split.
      * intros [[= -> ->]|(Hle & Hm & Hc)].
        -- rewrite Nat.sub_diag. simpl. split; [lia|done].
        -- replace (e - a)%nat with (S (e - S a)) by lia. simpl. split; [lia|done].
      * intros (Hle & Hm & Hc). destruct (decide (a = e)) as [->|Hae].
        -- rewrite Nat.sub_diag in Hc. simpl in Hc. left. congruence.
        -- right. replace (e - a)%nat with (S (e - S a)) in Hm, Hc by lia.
           simpl in Hm, Hc. split; [lia|done].
    + apply Hrest; [apply IH; lia|]. right. by left.
Qed.

Lemma index_rows_Forall {A} (P : A -> Prop) (t : list A) (idx : list nat) (l : list A) :
  index_rows t idx = Ok l -> Forall P t -> Forall P l.
Proof.
  intros Hl Ht. apply index_rows_Forall2 in Hl. rewrite Forall_forall in Ht.
  induction Hl as [|i a idx l Hi _ IH]; constructor; [|exact IH].
  apply Ht. by eapply list_elem_of_lookup_2.
Qed.

Lemma distractor_slots_range (K c : nat) :
  (c < K)%nat -> Forall (fun i => i < K)%nat (distractor_slots K c).
Proof.
  intros Hc. apply Forall_forall. intros j Hj.
  by apply distractor_slots_elem in Hj as [Hj _].
Qed.

(** ** The sampler over a prefix of the environments *)

Section SamplePrefix.
Context `{FrameMath}.

(** The reset of the first [m] environments completes, whatever the target
    column held for them before.  It gives every object of these
    environments the pose [sampled_pose] describes, leaves the objects and
    the target slots of the other environments as they were, records the
    shape id of every target slot, and leaves target goal buffers of [m]
    rows which hold the kit rows of the slots drawn, as they stand in the
    kit table. *)
Lemma sample_prefix_state (self : AssemblyKitEnv) (rng : Draws) (K n_starts m : nat) :
  catalogue_ready self K n_starts ->
  length (_current_target self) = num_envs self ->
  Forall (fun t => t < K)%nat (drop m (_current_target self)) ->
  (2 <= K)%nat -> (m <= num_envs self)%nat ->
  exists self',
    sample_models_for_envs rng (seq 0 m) self = (Ok tt, self') /\
    (forall e j, (e < m)%nat -> (j < K)%nat ->
        object_pose self' j e = sampled_pose self rng K n_starts e j) /\
    (forall e j, (m <= e)%nat -> object_pose self' j e = object_pose self j e) /\
    _current_target self'
      = (drawn_target K rng <$> seq 0 m) ++ drop m (_current_target self) /\
    length (target_goal_pos self') = m /\
    length (target_goal_rot self') = m /\
    (forall k, (k < m)%nat ->
        target_goal_pos self' !! k = kit_goal_pos self k (drawn_target K rng k) /\
        target_goal_rot self' !! k = kit_goal_rot self k (drawn_target K rng k)) /\
    same_setup self self' /\
    length (models self') = K /\
    Forall (fun mo => length (root_state_w mo) = num_envs self) (models self') /\
    length (current_target_model_id self') = num_envs self /\
    (forall e, (e < num_envs self)%nat ->
        current_target_model_id self' !! e = target_shape_of self' e).
Proof.
  intros [Hpos_rows Hpos_shape Hrot_kits Hrot_shape Hstart_kits Hstart_rows
          Hstart_shape Hkit_ids Hkit_ids_range Hkit Horigins
          Hassets Hassets_shape Hmodels Hmodels_default Hmodels_state]
         Hct Hct_range HK Hm.
  set (choice := drawn_target K rng <$> seq 0 m).
  set (kit_ids := take m (kit_ids_per_env self)).
  assert (Hchoice_len : length choice = m) by (unfold choice; by rewrite length_fmap, length_seq).
  assert (Hchoice_range : Forall (fun c => c < K)%nat choice).
  { apply Forall_fmap, Forall_forall. intros k _. unfold drawn_target. simpl.
    rewrite Nat.sub_0_r. apply Nat.mod_upper_bound. lia. }
  assert (Hkit_ids_len : length kit_ids = m) by (unfold kit_ids; rewrite length_take; lia).
  destruct (index_rows_in_range (model_target_pos self) kit_ids)
    as (mrp & Hmrp & Hmrp_len & Hmrp_rows).
  { by apply Forall_take. }
  destruct (index_rows_in_range (model_target_rot self) kit_ids)
    as (mrr & Hmrr & Hmrr_len & Hmrr_rows).
  { apply Forall_take. by rewrite Hrot_kits. }
  destruct (gather1_ok (env_assets_info self) (choice ++ drop m (_current_target self)) K)
    as (ids & Hids & Hids_len).
  { rewrite length_app, length_drop. lia. }
  { exact Hassets_shape. }
  { apply Forall_app. split; [exact Hchoice_range|exact Hct_range]. }
  unfold sample_models_for_envs. cbv zeta. rewrite !length_seq.
  rewrite (bind_attempt _ _ _ K) by (by apply shape1_ok).
  rewrite (bind_attempt _ _ _ kit_ids) by (apply index_rows_prefix; lia).
  rewrite (bind_attempt _ _ _ (take m (default_root_state (kit self))))
    by (apply index_rows_prefix; lia).
  rewrite (bind_attempt _ _ _ (take m (env_origins (scene self))))
    by (apply index_rows_prefix; lia).
  rewrite (bind_attempt _ _ _ mrp) by exact Hmrp.
  rewrite (bind_attempt _ _ _ mrr) by exact Hmrr.
  rewrite (bind_lift _ _ _ choice) by (apply randint_ok; lia).
  rewrite (bind_attempt _ _ _ (choice ++ drop m (_current_target self)))
    by (apply index_put_prefix; lia).
  rewrite bind_assign.
  rewrite (bind_attempt _ _ _ ids) by exact Hids.
  rewrite bind_assign.
  set (others_idx := distractor_slots K <$> choice).
  assert (Hview : view m (K - 1)
            (select
               (concat (zip_with (fun (cols : list nat) (c : nat) =>
                                    (fun j => negb (Nat.eqb j c)) <$> cols)
                                 ((fun _ => seq 0 K) <$> choice) choice))
               (concat ((fun _ => seq 0 K) <$> choice)))
          = Ok others_idx).
  { pose proof (others_idx_view K choice Hchoice_range) as Hview.
    by rewrite Hchoice_len in Hview. }
  rewrite (bind_lift _ _ _ others_idx) by exact Hview.
  rewrite (bind_attempt _ _ _ n_starts).
  2:{ apply shape1_ok; [|exact Hstart_shape]. simpl.
      intros Hnil. rewrite Hnil in Hstart_kits. simpl in Hstart_kits.
      by destruct (model_target_pos self). }
  set (sampled_idx := drawn_start n_starts rng <$> seq 0 m).
  rewrite (bind_lift _ _ _ sampled_idx) by (apply randint_ok; lia).
  assert (Hsampled_len : length sampled_idx = m)
    by (unfold sampled_idx; by rewrite length_fmap, length_seq).
  destruct (index_pairs_in_range (kit_target_starting_pos self) kit_ids sampled_idx)
    as (offsets & Hoffsets & Hoffsets_len & Hoffsets_rows).
  { lia. }
  { apply Forall_forall. intros [r c] Hrc.
    apply list_elem_of_lookup in Hrc as [k Hk]. rewrite lookup_zip_with in Hk.
    destruct (kit_ids !! k) as [r'|] eqn:Hr; [|done]. simpl in Hk.
    destruct (sampled_idx !! k) as [c'|] eqn:Hc; [|done]. injection Hk as <- <-.
    simpl. unfold kit_ids in Hr. apply lookup_take_Some in Hr as [Hr _].
    destruct (lookup_lt_is_Some_2 (kit_target_starting_pos self) r') as [row Hrow].
    { rewrite Hstart_kits. rewrite Forall_forall in Hkit_ids_range.
      apply Hkit_ids_range. by eapply list_elem_of_lookup_2. }
    exists row. split; [exact Hrow|].
    rewrite Forall_forall in Hstart_shape.
    rewrite (Hstart_shape row) by (by eapply list_elem_of_lookup_2).
    unfold sampled_idx in Hc. rewrite list_lookup_fmap in Hc.
    destruct (seq 0 m !! k); [|done]. injection Hc as <-.
    unfold drawn_start. simpl. rewrite Nat.sub_0_r.
    apply Nat.mod_upper_bound. lia. }
  rewrite (bind_attempt _ _ _ offsets) by exact Hoffsets.
  rewrite !bind_assign.
  assert (Hmrp_shape : Forall (fun row => length row = K) mrp)
    by (eapply index_rows_Forall; eauto).
  assert (Hmrr_shape : Forall (fun row => length row = K) mrr)
    by (eapply index_rows_Forall; eauto).
  assert (Hin_range : forall {A} (t : list (list A)),
            length t = m -> Forall (fun row => length row = K) t ->
            Forall (fun rc : nat * nat =>
                      exists row, t !! rc.1 = Some row /\ (rc.2 < length row)%nat)
                   (zip (seq 0 (length mrp)) choice)).
  { intros A t Ht_len Ht_shape. apply Forall_forall. intros [r c] Hrc.
    apply list_elem_of_lookup in Hrc as [k Hk]. rewrite lookup_zip_with in Hk.
    destruct (seq 0 (length mrp) !! k) as [r'|] eqn:Hr; [|done]. simpl in Hk.
    destruct (choice !! k) as [c'|] eqn:Hc; [|done]. injection Hk as <- <-.
    apply lookup_seq in Hr as [-> Hr]. simpl.
    destruct (lookup_lt_is_Some_2 t k) as [row Hrow]; [lia|].
    exists row. split; [exact Hrow|].
    rewrite Forall_forall in Ht_shape.
    rewrite (Ht_shape row) by (by eapply list_elem_of_lookup_2).
    rewrite Forall_forall in Hchoice_range. apply Hchoice_range.
    by eapply list_elem_of_lookup_2. }
  destruct (index_pairs_in_range mrp (seq 0 (length mrp)) choice)
    as (goal_pos & Hgoal_pos & Hgoal_pos_len & Hgoal_pos_rows).
  { rewrite length_seq. lia. }
  { apply Hin_range; [lia|done]. }
  rewrite (bind_lift _ _ _ goal_pos) by exact Hgoal_pos.
  rewrite bind_assign.
  destruct (index_pairs_in_range mrr (seq 0 (length mrp)) choice)
    as (goal_rot & Hgoal_rot & Hgoal_rot_len & Hgoal_rot_rows).
  { rewrite length_seq. lia. }
  { apply Hin_range; [lia|done]. }
  rewrite (bind_lift _ _ _ goal_rot) by exact Hgoal_rot.
  rewrite bind_assign.
  assert (Hothers_len : length others_idx = m)
    by (unfold others_idx; by rewrite length_fmap).
  assert (Hothers_range : Forall (fun idx => Forall (fun i => i < K)%nat idx) others_idx).
  { apply Forall_fmap. eapply Forall_impl; [exact Hchoice_range|].
    simpl. intros c Hc. by apply distractor_slots_range. }
  assert (Hothers_shape : Forall (fun row => length row = (K - 1)%nat) others_idx).
  { apply Forall_fmap. eapply Forall_impl; [exact Hchoice_range|].
    simpl. intros c Hc. by apply distractor_slots_length. }
  destruct (index_by_rows K mrp others_idx)
    as (others_pos & Hothers_pos & Hothers_pos_len & Hothers_pos_rows);
    [lia|done..|].
  rewrite (bind_lift _ _ _ others_pos) by exact Hothers_pos.
  destruct (index_by_rows K mrr others_idx)
    as (others_rot & Hothers_rot & Hothers_rot_len & Hothers_rot_rows);
    [lia|done..|].
  rewrite (bind_lift _ _ _ others_rot) by exact Hothers_rot.
  set (cols := drawn_side_col K rng <$> seq 0 m).
  rewrite (bind_lift _ _ _ cols) by (apply randint_ok; lia).
  assert (Hcols_len : length cols = m)
    by (unfold cols; by rewrite length_fmap, length_seq).
  set (do_pick := (fun u => Rltb u 0.5) <$> rand m (draw_do_pick rng)).
  assert (Hdo_pick_len : length do_pick = m)
    by (unfold do_pick, rand; by rewrite !length_fmap, length_seq).
  pose proof (Forall2_length_uniform (K - 1) _ _ Hothers_shape Hothers_rot_len)
    as Hothers_rot_shape.
  pose proof (Forall2_length_uniform (K - 1) _ _ Hothers_shape Hothers_pos_len)
    as Hothers_pos_shape.
  pose proof (Forall2_length _ _ _ Hothers_rot_len) as Hothers_rot_rows_len.
  pose proof (Forall2_length _ _ _ Hothers_pos_len) as Hothers_pos_rows_len.
  assert (Hcols_range : forall e c, cols !! e = Some c -> (c < K - 1)%nat).
  { intros e c Hc. unfold cols in Hc. rewrite list_lookup_fmap in Hc.
    destruct (seq 0 m !! e); [|done]. injection Hc as <-.
    unfold drawn_side_col. simpl. rewrite Nat.sub_0_r.
    apply Nat.mod_upper_bound. lia. }
  destruct (index_put2_true (select do_pick (seq 0 m)) (select do_pick cols)
              ((fun row : list R => (fun _ => false) <$> row) <$> others_rot))
    as (mask & Hmask & Hmask_len & Hmask_rows).
  { apply select_length. rewrite length_seq. lia. }
  { apply Forall_forall. intros [r c] Hrc.
    apply (elem_of_zip_select do_pick 0 m cols r c Hdo_pick_len Hcols_len) in Hrc
      as (_ & Hpick & Hc).
    rewrite Nat.sub_0_r in Hpick, Hc.
    destruct (lookup_lt_is_Some_2 others_rot r) as [row Hrow].
    { apply lookup_lt_Some in Hc. lia. }
    exists ((fun _ => false) <$> row). cbn [fst snd].
    rewrite list_lookup_fmap, Hrow.
    split; [reflexivity|]. rewrite length_fmap.
    rewrite Forall_forall in Hothers_rot_shape.
    rewrite (Hothers_rot_shape row) by (by eapply list_elem_of_lookup_2).
    by eapply Hcols_range. }
  rewrite (bind_lift _ _ _ mask) by exact Hmask.
  rewrite bind_read.
  rewrite length_fmap in Hmask_len.
  set (kit_pos_w := zip_with vadd (take m (default_root_state (kit self))).*1
                      (take m (env_origins (scene self)))).
  assert (Hkit_pos_len : length kit_pos_w = m).
  { unfold kit_pos_w. rewrite length_zip_with, length_fmap, !length_take. lia. }
  set (s6 := set_target_goal_rot goal_rot _).
  change (side_pos s6) with (side_pos self).
  set (target_pos := zip_with vadd kit_pos_w offsets).
  set (target_quat := quat_from_euler_xyz 0 0
                        <$> ((fun u => u * 2 * PI) <$> rand m (draw_rot_t rng))).
  set (others_pos_w :=
         zip_with (fun (kp : Vec3) (row : list Vec3) => vadd kp <$> row) kit_pos_w
           (zip_with (zip_with (fun (b : bool) (p : Vec3) =>
                                  if b then side_pos self else p))
                     mask others_pos)).
  assert (Htarget_pos_len : length target_pos = m)
    by (unfold target_pos; rewrite length_zip_with; lia).
  assert (Htarget_quat_len : length target_quat = m)
    by (unfold target_quat, rand; by rewrite !length_fmap, length_seq).
  (* the rows of the staging mask *)
  assert (Hmask_row : forall e, (e < m)%nat ->
            exists row, mask !! e = Some row /\ length row = (K - 1)%nat /\
              forall c, (c < K - 1)%nat ->
                row !! c = Some (bool_decide (do_pick !! e = Some true
                                              /\ cols !! e = Some c))).
  { intros e He.
    destruct (lookup_lt_is_Some_2 others_rot e) as [rots Hrots]; [lia|].
    destruct (Hmask_rows e ((fun _ => false) <$> rots)) as (row & Hrow & Hlen & Hcs).
    { by rewrite list_lookup_fmap, Hrots. }
    rewrite length_fmap in Hlen, Hcs.
    rewrite Forall_forall in Hothers_rot_shape.
    rewrite (Hothers_rot_shape rots) in Hlen, Hcs by (by eapply list_elem_of_lookup_2).
    exists row. split; [exact Hrow|]. split; [exact Hlen|].
    intros c Hc. rewrite Hcs.
    pose proof (elem_of_zip_select do_pick 0 m cols e c Hdo_pick_len Hcols_len) as Hel.
    rewrite Nat.sub_0_r in Hel.
    destruct (decide ((e, c) ∈ zip (select do_pick (seq 0 m)) (select do_pick cols)))
      as [Hin|Hin].
    - rewrite decide_True by lia. rewrite bool_decide_eq_true_2; [reflexivity|].
      apply Hel in Hin. tauto.
    - rewrite bool_decide_eq_false_2.
      + rewrite list_lookup_fmap.
        destruct (lookup_lt_is_Some_2 rots c) as [x Hx].
        { rewrite (Hothers_rot_shape rots) by (by eapply list_elem_of_lookup_2). lia. }
        by rewrite Hx.
      + intros [Hp Hc']. apply Hin, Hel. split; [lia|done]. }
  assert (Hothers_pos_w : Forall2 (fun (idxs : list nat) (vals : list Vec3) =>
                                     length idxs = length vals) others_idx others_pos_w).
  { apply Forall2_same_length_lookup_2.
    { unfold others_pos_w. rewrite !length_zip_with. lia. }
    intros e idxs vals Hidxs Hvals. unfold others_pos_w in Hvals.
    rewrite !lookup_zip_with in Hvals.
    destruct (kit_pos_w !! e) as [kp|]; [|done]. simpl in Hvals.
    destruct (mask !! e) as [mrow|] eqn:Hmrow; [|done]. simpl in Hvals.
    destruct (others_pos !! e) as [prow|] eqn:Hprow; [|done]. simpl in Hvals.
    injection Hvals as <-. rewrite length_fmap, length_zip_with.
    destruct (Hmask_row e) as (row & Hrow & Hlen & _).
    { apply lookup_lt_Some in Hidxs. lia. }
    assert (mrow = row) as -> by congruence.
    rewrite Forall_forall in Hothers_shape.
    rewrite Forall_forall in Hothers_pos_shape.
    rewrite (Hothers_shape idxs) by (by eapply list_elem_of_lookup_2).
    rewrite (Hothers_pos_shape prow) by (by eapply list_elem_of_lookup_2). lia. }
  (* every pass of the loop *)
  assert (Hmodel_rows : forall j mo, models self !! j = Some mo ->
            (m <= length (default_root_state mo))%nat
            /\ (m <= length (root_state_w mo))%nat).
  { intros j mo Hmo. rewrite Forall_forall in Hmodels_default.
    rewrite Forall_forall in Hmodels_state.
    rewrite (Hmodels_default mo) by (by eapply list_elem_of_lookup_2).
    rewrite (Hmodels_state mo) by (by eapply list_elem_of_lookup_2). lia. }
  pose proof (fun j mo (Hmo : models self !! j = Some mo) =>
                place_rows_prefix m (K - 1) choice target_pos target_quat others_idx
                  others_pos_w others_rot j mo
                  (proj1 (Hmodel_rows j mo Hmo)) (proj2 (Hmodel_rows j mo Hmo))
                  Hchoice_len Htarget_pos_len Htarget_quat_len Hothers_len
                  Hothers_shape Hothers_pos_w Hothers_rot_len) as Hpass.
  destruct (for_each_place_model (seq 0 m) choice target_pos target_quat
              (concat ((fun e => replicate (K - 1) e) <$> seq 0 m))
              (concat others_idx) (concat others_pos_w) (concat others_rot) K 0 s6)
    as (ms' & Hrun & Hms_len & Hms_rows).
  { intros j Hj. destruct (lookup_lt_is_Some_2 (models self) j) as [mo Hmo]; [lia|].
    destruct (Hpass j mo Hmo) as (wr & Hwr & _). by exists mo, wr. }
  rewrite Hrun. exists (set_models ms' s6). split; [reflexivity|].
  assert (Hobject : forall j e mo, models self !! j = Some mo ->
            exists wr,
              place_rows (seq 0 m) choice target_pos target_quat
                (concat ((fun e => replicate (K - 1) e) <$> seq 0 m))
                (concat others_idx) (concat others_pos_w) (concat others_rot) j mo
              = Ok wr /\
              object_pose (set_models ms' s6) j e = root_state_w wr !! e).
  { intros j e mo Hmo. destruct (Hpass j mo Hmo) as (wr & Hwr & _).
    exists wr. split; [exact Hwr|]. unfold object_pose. cbn [models set_models].
    rewrite (Hms_rows j mo Hmo). rewrite decide_True.
    - by rewrite Hwr.
    - apply lookup_lt_Some in Hmo. lia. }
  split; [|split; [|split; [reflexivity|]]].
  - intros e j He Hj.
    destruct (lookup_lt_is_Some_2 (models self) j) as [mo Hmo]; [lia|].
    destruct (Hobject j e mo Hmo) as (wr & Hwr & ->).
    destruct (Hpass j mo Hmo) as (wr' & Hwr' & _ & _ & Hrows).
    assert (wr' = wr) as -> by congruence. rewrite Hrows, decide_True by done.
    destruct (lookup_lt_is_Some_2 (default_root_state mo) e) as [d0 Hd0].
    { destruct (Hmodel_rows j mo Hmo). lia. }
    rewrite Hd0. cbn [fmap option_fmap option_map].
    (* the reads of environment [e] *)
    set (c := drawn_target K rng e).
    assert (Hc : choice !! e = Some c).
    { unfold choice. rewrite list_lookup_fmap, lookup_seq_lt by done. reflexivity. }
    assert (Hc_range : (c < K)%nat).
    { rewrite Forall_forall in Hchoice_range. apply Hchoice_range.
      by eapply list_elem_of_lookup_2. }
    destruct (lookup_lt_is_Some_2 (kit_ids_per_env self) e) as [kid Hkid]; [lia|].
    assert (Hkid' : kit_ids !! e = Some kid).
    { unfold kit_ids. by rewrite lookup_take_lt. }
    assert (Hkid_range : (kid < length (model_target_pos self))%nat).
    { rewrite Forall_forall in Hkit_ids_range. apply Hkit_ids_range.
      by eapply list_elem_of_lookup_2. }
    destruct (lookup_lt_is_Some_2 (default_root_state (kit self)) e) as [kd Hkd];
      [lia|].
    destruct (lookup_lt_is_Some_2 (env_origins (scene self)) e) as [o Ho]; [lia|].
    assert (Hkp : kit_pos_w !! e = Some (vadd kd.1 o)).
    { unfold kit_pos_w. rewrite lookup_zip_with, list_lookup_fmap.
      rewrite !lookup_take_lt by done. by rewrite Hkd, Ho. }
    assert (Hworld : kit_world_pos self e = Some (vadd kd.1 o)).
    { unfold kit_world_pos. by rewrite Hkd, Ho. }
    destruct (lookup_lt_is_Some_2 (model_target_pos self) kid) as [prow Hprow];
      [lia|].
    destruct (lookup_lt_is_Some_2 (model_target_rot self) kid) as [rrow Hrrow];
      [lia|].
    assert (Hprow_len : length prow = K).
    { rewrite Forall_forall in Hpos_shape. apply Hpos_shape.
      by eapply list_elem_of_lookup_2. }
    assert (Hrrow_len : length rrow = K).
    { rewrite Forall_forall in Hrot_shape. apply Hrot_shape.
      by eapply list_elem_of_lookup_2. }
    assert (Hmrp_e : mrp !! e = Some prow) by (by rewrite (Hmrp_rows e kid)).
    assert (Hmrr_e : mrr !! e = Some rrow) by (by rewrite (Hmrr_rows e kid)).
    assert (Hidx_e : others_idx !! e = Some (distractor_slots K c)).
    { unfold others_idx. by rewrite list_lookup_fmap, Hc. }
    destruct (Hothers_pos_rows e prow _ Hmrp_e Hidx_e) as (op & Hop & Hop_cols).
    destruct (Hothers_rot_rows e rrow _ Hmrr_e Hidx_e) as (orr & Horr & Horr_cols).
    destruct (Hmask_row e He) as (mrow & Hmrow & Hmrow_len & Hmrow_cols).
    assert (Hpw_e : others_pos_w !! e
                    = Some (vadd (vadd kd.1 o)
                              <$> zip_with (fun (b : bool) (p : Vec3) =>
                                              if b then side_pos self else p) mrow op)).
    { unfold others_pos_w. rewrite !lookup_zip_with, Hkp. simpl.
      by rewrite Hmrow, Hop. }
    rewrite list_lookup_fmap, Hc, Hidx_e, Hpw_e, Horr. cbn [fmap option_fmap option_map].
    unfold sampled_pose. rewrite Hworld. cbn [mbind option_bind]. fold c.
    destruct (decide (j = c)) as [->|Hjc].
    + (* the target *)
      rewrite Nat.eqb_refl.
      destruct (lookup_lt_is_Some_2 target_pos e) as [tp Htp]; [lia|].
      destruct (lookup_lt_is_Some_2 target_quat e) as [tq Htq]; [lia|].
      rewrite Htp, Htq.
      rewrite !select_eqb_absent
        by (intros Hin; apply distractor_slots_elem in Hin; [lia|done]).
      cbn [foldl fst snd].
      unfold target_pos in Htp. rewrite lookup_zip_with, Hkp in Htp.
      cbn [mbind option_bind] in Htp.
      rewrite (Hoffsets_rows e kid (drawn_start n_starts rng e)) in Htp.
      2: exact Hkid'.
      2:{ unfold sampled_idx. rewrite list_lookup_fmap, lookup_seq_lt by done.
          reflexivity. }
      unfold target_quat, rand in Htq.
      rewrite !list_lookup_fmap, lookup_seq_lt in Htq by done.
      injection Htq as <-.
      rewrite Hkid. cbn [mbind option_bind].
      destruct (kit_target_starting_pos self !! kid) as [starts|];
        cbn [mbind option_bind] in *; [|done].
      destruct (starts !! drawn_start n_starts rng e) as [off|];
        cbn [mbind option_bind] in *; [|done].
      injection Htp as <-. reflexivity.
    + (* a distractor *)
      destruct (Nat.eqb_spec c j) as [?|_]; [congruence|].
      assert (Hj_slot : j ∈ distractor_slots K c)
        by (apply distractor_slots_elem; [done|lia]).
      apply list_elem_of_lookup in Hj_slot as [col Hcol].
      assert (Hcol_range : (col < K - 1)%nat).
      { apply lookup_lt_Some in Hcol. by rewrite distractor_slots_length in Hcol. }
      assert (Hg : kit_goal_pos self e j = prow !! j).
      { unfold kit_goal_pos. rewrite Hkid. cbn [mbind option_bind].
        by rewrite Hprow. }
      assert (Hr : kit_goal_rot self e j = rrow !! j).
      { unfold kit_goal_rot. rewrite Hkid. cbn [mbind option_bind].
        by rewrite Hrrow. }
      destruct (lookup_lt_is_Some_2 prow j) as [g Hgj]; [lia|].
      destruct (lookup_lt_is_Some_2 rrow j) as [r Hrj]; [lia|].
      rewrite Hg, Hr, Hgj, Hrj. cbn [mbind option_bind].
      rewrite (select_eqb_at j (distractor_slots K c) _ col
                 (vadd (vadd kd.1 o)
                    (if bool_decide (do_pick !! e = Some true /\ cols !! e = Some col)
                     then side_pos self else g)))
        by (try apply distractor_slots_NoDup; try done;
            rewrite list_lookup_fmap, lookup_zip_with, (Hmrow_cols col Hcol_range);
            cbn [mbind option_bind]; rewrite (Hop_cols col j Hcol), Hgj;
            reflexivity).
      rewrite (select_eqb_at j (distractor_slots K c) _ col
                 (quat_from_euler_xyz 0 0 r))
        by (try apply distractor_slots_NoDup; try done;
            rewrite list_lookup_fmap, (Horr_cols col j Hcol), Hrj; reflexivity).
      cbn [foldl fst snd]. f_equal. f_equal. f_equal.
      (* the two readings of "staged" agree *)
      assert (Hpick : do_pick !! e = Some (Rltb (draw_do_pick rng e) 0.5)).
      { unfold do_pick, rand. by rewrite !list_lookup_fmap, lookup_seq_lt. }
      assert (Hcols_e : cols !! e = Some (drawn_side_col K rng e)).
      { unfold cols. by rewrite list_lookup_fmap, lookup_seq_lt. }
      rewrite Hpick, Hcols_e. unfold staged_slot. fold c.
      destruct (Rltb (draw_do_pick rng e) 0.5); cbn [andb].
      * destruct (decide (drawn_side_col K rng e = col)) as [Heq|Hne].
        -- rewrite !bool_decide_eq_true_2; try reflexivity; [by rewrite Heq|].
           split; [reflexivity|by rewrite Heq].
        -- rewrite !bool_decide_eq_false_2; try reflexivity.
           ++ intros Hstaged. apply Hne.
              eapply NoDup_lookup; [apply distractor_slots_NoDup|exact Hstaged|exact Hcol].
           ++ intros [_ [= ?]]. done.
      * rewrite bool_decide_eq_false_2; [reflexivity|]. intros [[= ?] _].
  - intros e j He.
    destruct (models self !! j) as [mo|] eqn:Hmo.
    + destruct (Hobject j e mo Hmo) as (wr & Hwr & ->).
      destruct (Hpass j mo Hmo) as (wr' & Hwr' & _ & _ & Hrows).
      assert (wr' = wr) as -> by congruence. rewrite Hrows, decide_False by lia.
      unfold object_pose. by rewrite Hmo.
    + unfold object_pose. rewrite Hmo. cbn [models set_models].
      rewrite (lookup_ge_None_2 ms'); [reflexivity|].
      apply lookup_ge_None_1 in Hmo. unfold s6 in Hms_len. simpl in Hms_len. lia.
  - cbn [target_goal_pos target_goal_rot set_models s6 set_target_goal_rot
         set_target_goal_pos].
    rewrite length_seq in Hgoal_pos_len, Hgoal_rot_len.
    split; [lia|]. split; [lia|]. split.
    { intros k Hk.
      assert (Hc : choice !! k = Some (drawn_target K rng k)).
      { unfold choice. rewrite list_lookup_fmap, lookup_seq_lt by done. reflexivity. }
      assert (Hseq : seq 0 (length mrp) !! k = Some k)
        by (rewrite lookup_seq_lt by lia; reflexivity).
      destruct (lookup_lt_is_Some_2 (kit_ids_per_env self) k) as [kid Hkid]; [lia|].
      assert (Hkid' : kit_ids !! k = Some kid).
      { unfold kit_ids. by rewrite lookup_take_lt. }
      rewrite (Hgoal_pos_rows k k _ Hseq Hc), (Hgoal_rot_rows k k _ Hseq Hc).
      rewrite (Hmrp_rows k kid Hkid'), (Hmrr_rows k kid Hkid').
      unfold kit_goal_pos, kit_goal_rot. rewrite Hkid. split; reflexivity. }
    split; [by split|].
    assert (Hms_len' : length ms' = K) by (unfold s6 in Hms_len; simpl in Hms_len; lia).
    split; [exact Hms_len'|].
    split.
    { change (models (set_models ms' s6)) with ms'.
      apply Forall_forall. intros mo' Hmo'.
      apply list_elem_of_lookup in Hmo' as [j Hj].
      destruct (lookup_lt_is_Some_2 (models self) j) as [mo Hmo].
      { apply lookup_lt_Some in Hj. lia. }
      rewrite (Hms_rows j mo Hmo), decide_True in Hj
        by (apply lookup_lt_Some in Hmo; lia).
      destruct (Hpass j mo Hmo) as (wr & Hwr & _ & Hwr_len & _).
      rewrite Hwr in Hj. injection Hj as <-. rewrite Hwr_len.
      rewrite Forall_forall in Hmodels_state. apply Hmodels_state.
      by eapply list_elem_of_lookup_2. }
    apply gather1_rows in Hids as [Hids_len' Hids_rows].
    rewrite length_app, length_drop, Hchoice_len in Hids_len', Hids_rows.
    change (current_target_model_id (set_models ms' s6)) with ids.
    split; [lia|].
    intros e He. unfold target_shape_of. apply Hids_rows. lia.
Qed.

(** The reset of the first [m] environments completes.  It gives every
    object of these environments the pose [sampled_pose] describes, leaves
    the objects and the target slots of the other environments as they
    were, and leaves target goal buffers of [m] rows which hold the kit rows
    of the slots drawn, as they stand in the kit table. *)
Theorem sample_prefix (self : AssemblyKitEnv) (rng : Draws) (K n_starts m : nat) :
  sampler_ready self K n_starts -> (2 <= K)%nat -> (m <= num_envs self)%nat ->
  exists self',
    sample_models_for_envs rng (seq 0 m) self = (Ok tt, self') /\
    (forall e j, (e < m)%nat -> (j < K)%nat ->
        object_pose self' j e = sampled_pose self rng K n_starts e j) /\
    (forall e j, (m <= e)%nat -> object_pose self' j e = object_pose self j e) /\
    _current_target self'
      = (drawn_target K rng <$> seq 0 m) ++ drop m (_current_target self) /\
    length (target_goal_pos self') = m /\
    length (target_goal_rot self') = m /\
    (forall k, (k < m)%nat ->
        target_goal_pos self' !! k = kit_goal_pos self k (drawn_target K rng k) /\
        target_goal_rot self' !! k = kit_goal_rot self k (drawn_target K rng k)).
Proof.
  intros Hready HK Hm.
  destruct (sample_prefix_state self rng K n_starts m)
    as (self' & Hrun & Hposes & Hframe & Htarget & Hlen_pos & Hlen_rot & Hgoal & _);
    try done.
  - by destruct Hready.
  - by destruct Hready.
  - apply Forall_drop. by destruct Hready.
  - by exists self'.
Qed.

End SamplePrefix.

(** Under [sampler_ready] every slot of every environment has a goal row
    and a kit. *)
Lemma sampler_ready_rows (self : AssemblyKitEnv) (K n_starts e j : nat) :
  sampler_ready self K n_starts ->
  (e < num_envs self)%nat -> (j < K)%nat ->
  exists (kp g : Vec3) (r : R),
    kit_world_pos self e = Some kp /\
    kit_goal_pos self e j = Some g /\
    kit_goal_rot self e j = Some r.
Proof.
  intros [Hpos_rows Hpos_shape Hrot_kits Hrot_shape _ _ _ Hkit_ids Hkit_ids_range
          Hkit Horigins _ _ _ _ _ _ _] He Hj.
  destruct (lookup_lt_is_Some_2 (kit_ids_per_env self) e) as [kid Hkid]; [lia|].
  assert (Hkid_range : (kid < length (model_target_pos self))%nat).
  { rewrite Forall_forall in Hkit_ids_range. apply Hkit_ids_range.
    by eapply list_elem_of_lookup_2. }
  destruct (lookup_lt_is_Some_2 (default_root_state (kit self)) e) as [kd Hkd]; [lia|].
  destruct (lookup_lt_is_Some_2 (env_origins (scene self)) e) as [o Ho]; [lia|].
  destruct (lookup_lt_is_Some_2 (model_target_pos self) kid) as [prow Hprow]; [lia|].
  destruct (lookup_lt_is_Some_2 (model_target_rot self) kid) as [rrow Hrrow]; [lia|].
  destruct (lookup_lt_is_Some_2 prow j) as [g Hg].
  { rewrite Forall_forall in Hpos_shape.
    rewrite (Hpos_shape prow) by (by eapply list_elem_of_lookup_2). lia. }
  destruct (lookup_lt_is_Some_2 rrow j) as [r Hr].
  { rewrite Forall_forall in Hrot_shape.
    rewrite (Hrot_shape rrow) by (by eapply list_elem_of_lookup_2). lia. }
  exists (vadd kd.1 o), g, r.
  unfold kit_world_pos, kit_goal_pos, kit_goal_rot.
  rewrite Hkd, Ho, Hkid. cbn [mbind option_bind]. rewrite Hprow, Hrrow.
  cbn [mbind option_bind]. auto.
Qed.

(** C5, as the code has it: in a reset of the first [m] environments, the
    distractor staged in environment [e] is written at the kit's world
    position plus the offset [(-table_offset, 0.2, 0.1)], which is the same
    for every kit; its orientation is the goal rotation of its slot. *)
Theorem staged_distractor_is_kit_relative `{FrameMath}
    (self : AssemblyKitEnv) (rng : Draws) (K n_starts m e j : nat) (kp : Vec3) :
  sampler_ready self K n_starts ->
  (2 <= K)%nat ->
  (m <= num_envs self)%nat ->
  (e < m)%nat ->
  draw_do_pick rng e < 0.5 ->
  staged_slot K rng e = Some j ->
  kit_world_pos self e = Some kp ->
  exists (self' : AssemblyKitEnv) (r : R),
    sample_models_for_envs rng (seq 0 m) self = (Ok tt, self') /\
    kit_goal_rot self e j = Some r /\
    object_pose self' j e
      = Some (vadd kp (- table_offset (cfg self), 0.2, 0.1),
              quat_from_euler_xyz 0 0 r).
Proof.
  intros Hready HK Hm He Hpick Hstaged Hkp.
  assert (Hc : (drawn_target K rng e < K)%nat).
  { unfold drawn_target. simpl. rewrite Nat.sub_0_r. apply Nat.mod_upper_bound. lia. }
  assert (Hj : (j < K)%nat /\ j <> drawn_target K rng e).
  { apply (distractor_slots_elem K (drawn_target K rng e) j Hc).
    unfold staged_slot in Hstaged. by eapply list_elem_of_lookup_2. }
  destruct Hj as [Hj Hjc].
  destruct (sampler_ready_rows self K n_starts e j Hready) as (kp' & g & r & Hkp' & Hg & Hr);
    [lia|done|].
  destruct (sample_prefix self rng K n_starts m Hready HK Hm)
    as (self' & Hrun & Hposes & _).
  exists self', r. split; [exact Hrun|]. split; [exact Hr|].
  rewrite (Hposes e j He Hj). unfold sampled_pose.
  rewrite Hkp. cbn [mbind option_bind]. rewrite decide_False by done.
  rewrite Hg, Hr. cbn [mbind option_bind].
  rewrite (proj2 (Rltb_true_iff _ _) Hpick), bool_decide_eq_true_2 by done.
  reflexivity.
Qed.

Lemma demo_env_sampler_ready : sampler_ready demo_env 2 1.
Proof. split; simpl; repeat constructor; done. Qed.

(** C5, at environment 0 of the full reset of the demo scene. *)
Lemma staged_distractor_is_kit_relative_witness :
  exists (self' : AssemblyKitEnv) (r : R),
    @sample_models_for_envs isaac_frame_math demo_draws (seq 0 2) demo_env
    = (Ok tt, self') /\
    kit_goal_rot demo_env 0 1 = Some r /\
    object_pose self' 1 0
      = Some (vadd demo_kit_pos_0 (- table_offset (cfg demo_env), 0.2, 0.1),
              isaac_quat_from_euler_xyz 0 0 r).
Proof.
  apply (@staged_distractor_is_kit_relative isaac_frame_math demo_env demo_draws
           2 1 2 0 1 demo_kit_pos_0);
    [exact demo_env_sampler_ready | lia | simpl; lia | lia | simpl; lra
    | reflexivity | reflexivity].
Defined.

(** * Further properties *)

(** ** Resets of a prefix of the environments *)

Lemma drawn_target_range (K : nat) (rng : Draws) (k : nat) :
  (0 < K)%nat -> (drawn_target K rng k < K)%nat.
Proof.
  intros HK. unfold drawn_target. simpl. rewrite Nat.sub_0_r.
  apply Nat.mod_upper_bound. lia.
Qed.

Lemma sampler_ready_catalogue (self : AssemblyKitEnv) (K n_starts : nat) :
  sampler_ready self K n_starts -> catalogue_ready self K n_starts.
Proof. intros []. by split. Qed.

(** X1: in a reset of the first [m] environments the objects and the
    target slot of every other environment stay as they were, and so
    does all that setup stored. *)
Theorem prefix_reset_keeps_other_environments `{FrameMath}
    (self : AssemblyKitEnv) (rng : Draws) (K n_starts m : nat) :
  sampler_ready self K n_starts -> (2 <= K)%nat -> (m <= num_envs self)%nat ->
  exists self',
    sample_models_for_envs rng (seq 0 m) self = (Ok tt, self') /\
    same_setup self self' /\
    forall e, (m <= e)%nat ->
      _current_target self' !! e = _current_target self !! e /\
      forall j, object_pose self' j e = object_pose self j e.
Proof.
  intros Hready HK Hm.
  destruct (sample_prefix_state self rng K n_starts m)
    as (self' & Hrun & _ & Hframe & Htarget & _ & _ & _ & Hsame & _).
  - by apply sampler_ready_catalogue.
  - by destruct Hready.
  - apply Forall_drop. by destruct Hready.
  - done.
  - done.
  - exists self'. split; [exact Hrun|]. split; [exact Hsame|].
    intros e He. split; [|intros j; by apply Hframe].
    rewrite Htarget, lookup_app_r by (rewrite length_fmap, length_seq; lia).
    rewrite length_fmap, length_seq, lookup_drop. f_equal. lia.
Qed.

(** X2: in a reset of the first [m] environments, the object of the slot
    drawn as target of environment [e] is written at the world position
    of the kit plus one of the starting positions of the kit variant of
    [e], with the yaw drawn and neither roll nor pitch. *)
Theorem reset_places_target_on_a_start_proposal `{FrameMath}
    (self : AssemblyKitEnv) (rng : Draws) (K n_starts m e : nat) :
  sampler_ready self K n_starts -> (2 <= K)%nat -> (m <= num_envs self)%nat ->
  (e < m)%nat ->
  exists (self' : AssemblyKitEnv) (kp : Vec3) (kit_id : nat)
         (starts : list Vec3) (offset : Vec3),
    sample_models_for_envs rng (seq 0 m) self = (Ok tt, self') /\
    _current_target self' !! e = Some (draw_choice rng e mod K)%nat /\
    kit_world_pos self e = Some kp /\
    kit_ids_per_env self !! e = Some kit_id /\
    kit_target_starting_pos self !! kit_id = Some starts /\
    starts !! (draw_sampled_idx rng e mod n_starts)%nat = Some offset /\
    object_pose self' (draw_choice rng e mod K)%nat e
      = Some (vadd kp offset,
              quat_from_euler_xyz 0 0 (draw_rot_t rng e * 2 * PI)).
Proof.
  intros Hready HK Hm He.
  destruct (sample_prefix_state self rng K n_starts m)
    as (self' & Hrun & Hposes & _ & Htarget & _);
    [by apply sampler_ready_catalogue | by destruct Hready
    | apply Forall_drop; by destruct Hready | done | done |].
  assert (Hc : (drawn_target K rng e < K)%nat) by (apply drawn_target_range; lia).
  assert (Hdt : drawn_target K rng e = (draw_choice rng e mod K)%nat).
  { unfold drawn_target. simpl. by rewrite Nat.sub_0_r. }
  assert (Hds : drawn_start n_starts rng e = (draw_sampled_idx rng e mod n_starts)%nat).
  { unfold drawn_start. simpl. by rewrite Nat.sub_0_r. }
  destruct Hready as [_ _ _ _ Hstart_kits Hstart_rows Hstart_shape Hkit_ids
                      Hkit_ids_range Hkit Horigins _ _ _ _ _ _ _].
  destruct (lookup_lt_is_Some_2 (kit_ids_per_env self) e) as [kid Hkid]; [lia|].
  destruct (lookup_lt_is_Some_2 (default_root_state (kit self)) e) as [kd Hkd]; [lia|].
  destruct (lookup_lt_is_Some_2 (env_origins (scene self)) e) as [o Ho]; [lia|].
  destruct (lookup_lt_is_Some_2 (kit_target_starting_pos self) kid) as [starts Hstarts].
  { rewrite Hstart_kits. rewrite Forall_forall in Hkit_ids_range.
    apply Hkit_ids_range. by eapply list_elem_of_lookup_2. }
  destruct (lookup_lt_is_Some_2 starts (drawn_start n_starts rng e)) as [off Hoff].
  { rewrite Forall_forall in Hstart_shape.
    rewrite (Hstart_shape starts) by (by eapply list_elem_of_lookup_2).
    rewrite Hds. apply Nat.mod_upper_bound. lia. }
  exists self', (vadd kd.1 o), kid, starts, off.
  split; [exact Hrun|]. split.
  { rewrite Htarget, lookup_app_l by (rewrite length_fmap, length_seq; lia).
    rewrite list_lookup_fmap, lookup_seq_lt by done. simpl. by rewrite Hdt. }
  split; [unfold kit_world_pos; by rewrite Hkd, Ho|].
  split; [exact Hkid|]. split; [exact Hstarts|].
  split; [by rewrite <- Hds|].
  rewrite <- Hdt, (Hposes e _ He Hc). unfold sampled_pose, kit_world_pos.
  rewrite Hkd, Ho. cbn [mbind option_bind]. rewrite decide_True by done.
  rewrite Hkid. cbn [mbind option_bind]. rewrite Hstarts. cbn [mbind option_bind].
  by rewrite Hoff.
Qed.

Lemma staged_slot_is_a_distractor (K : nat) (rng : Draws) (k : nat) :
  (2 <= K)%nat ->
  exists j, staged_slot K rng k = Some j /\ (j < K)%nat /\ j <> drawn_target K rng k.
Proof.
  intros HK.
  assert (Hc : (drawn_target K rng k < K)%nat) by (apply drawn_target_range; lia).
  destruct (lookup_lt_is_Some_2 (distractor_slots K (drawn_target K rng k))
              (drawn_side_col K rng k)) as [j Hj].
  { rewrite distractor_slots_length by done. unfold drawn_side_col. simpl.
    rewrite Nat.sub_0_r. apply Nat.mod_upper_bound. lia. }
  exists j. split; [exact Hj|].
  apply (distractor_slots_elem K (drawn_target K rng k) j Hc).
  by eapply list_elem_of_lookup_2.
Qed.

(** X3: in a reset of the first [m] environments, every object of
    environment [e] which is neither the target nor the distractor
    staged is written on its goal: at the world position of the kit plus
    the goal row of its slot, with the goal rotation of the slot. A
    distractor is staged only if the staging draw is below one half, and
    then exactly one is. *)
Theorem reset_leaves_unstaged_distractors_on_their_goals `{FrameMath}
    (self : AssemblyKitEnv) (rng : Draws) (K n_starts m e : nat) :
  sampler_ready self K n_starts -> (2 <= K)%nat -> (m <= num_envs self)%nat ->
  (e < m)%nat ->
  exists (self' : AssemblyKitEnv) (kp : Vec3) (staged : nat),
    sample_models_for_envs rng (seq 0 m) self = (Ok tt, self') /\
    kit_world_pos self e = Some kp /\
    staged_slot K rng e = Some staged /\
    (staged < K)%nat /\ staged <> (draw_choice rng e mod K)%nat /\
    forall j, (j < K)%nat -> j <> (draw_choice rng e mod K)%nat ->
      exists (g : Vec3) (r : R),
        kit_goal_pos self e j = Some g /\
        kit_goal_rot self e j = Some r /\
        object_pose self' j e
        = Some (vadd kp (if decide (draw_do_pick rng e < 0.5 /\ j = staged)
                         then (- table_offset (cfg self), 0.2, 0.1) else g),
                quat_from_euler_xyz 0 0 r).
Proof.
  intros Hready HK Hm He.
  destruct (sample_prefix_state self rng K n_starts m)
    as (self' & Hrun & Hposes & _);
    [by apply sampler_ready_catalogue | by destruct Hready
    | apply Forall_drop; by destruct Hready | done | done |].
  assert (Hdt : drawn_target K rng e = (draw_choice rng e mod K)%nat).
  { unfold drawn_target. simpl. by rewrite Nat.sub_0_r. }
  destruct (staged_slot_is_a_distractor K rng e HK) as (st & Hst & Hst_range & Hst_ne).
  destruct (sampler_ready_rows self K n_starts e st Hready) as (kp & _ & _ & Hkp & _);
    [lia|done|].
  exists self', kp, st. split; [exact Hrun|]. split; [exact Hkp|].
  split; [exact Hst|]. split; [exact Hst_range|]. split; [by rewrite <- Hdt|].
  intros j Hj Hjc.
  destruct (sampler_ready_rows self K n_starts e j Hready) as (kp' & g & r & Hkp' & Hg & Hr);
    [lia|done|].
  exists g, r. split; [exact Hg|]. split; [exact Hr|].
  rewrite (Hposes e j He Hj). unfold sampled_pose.
  rewrite Hkp. cbn [mbind option_bind]. rewrite decide_False by (by rewrite Hdt).
  rewrite Hg, Hr. cbn [mbind option_bind]. do 3 f_equal.
  rewrite Hst. unfold side_pos.
  destruct (decide (draw_do_pick rng e < 0.5 /\ j = st)) as [[Hp ->]|Hn].
  - by rewrite (proj2 (Rltb_true_iff _ _) Hp), bool_decide_eq_true_2.
  - destruct (Rltb (draw_do_pick rng e) 0.5) eqn:Hp; [|reflexivity].
    apply Rltb_true_iff in Hp. rewrite bool_decide_eq_false_2; [reflexivity|].
    intros [= ->]. by apply Hn.
Qed.

(** ** From a full reset to the evaluator *)

Lemma broadcast_mismatch {A B C} (f : A -> B -> C) (a : list A) (b : list B) :
  length a <> length b -> length a <> 1%nat -> length b <> 1%nat ->
  broadcast f a b = Raise RuntimeError.
Proof.
  intros Hab Ha Hb. unfold broadcast.
  destruct (Nat.eqb_spec (length a) (length b)) as [|_]; [done|].
  destruct a as [|x [|x' a]]; destruct b as [|y [|y' b]]; simpl in *; done.
Qed.

(** The first reset, of all environments: what it leaves. *)
Lemma full_reset_ready `{FrameMath}
    (self : AssemblyKitEnv) (rng : Draws) (K n_starts : nat) :
  catalogue_ready self K n_starts ->
  length (_current_target self) = num_envs self ->
  (2 <= K)%nat ->
  Forall (Forall (fun id => id < length (symmetry self))%nat) (env_assets_info self) ->
  exists self' : AssemblyKitEnv,
    sample_models_for_envs rng (seq 0 (num_envs self)) self = (Ok tt, self') /\
    evaluator_ready self' /\
    same_setup self self' /\
    Forall (fun id => exists row, row ∈ env_assets_info self /\ id ∈ row)
           (current_target_model_id self').
Proof.
  intros Hcat Hct HK Hsym.
  destruct (sample_prefix_state self rng K n_starts (num_envs self))
    as (self' & Hrun & _ & _ & Htarget & Hlen_pos & Hlen_rot & _ & Hsame & Hmodels
        & Hstate & Hid_len & Hid_rows);
    [done | done | rewrite drop_ge by lia; constructor | done | done |].
  pose proof Hsame as [_ Hscene Hnum _ _ Hsymmetry _ _ _ _ _ _ _ _ _ Hassets].
  rewrite drop_ge, app_nil_r in Htarget by lia.
  assert (Hids : Forall (fun id => exists row, row ∈ env_assets_info self /\ id ∈ row)
                        (current_target_model_id self')).
  { apply Forall_forall. intros id Hid.
    apply list_elem_of_lookup in Hid as [e He].
    assert (He' : (e < num_envs self)%nat).
    { apply lookup_lt_Some in He. lia. }
    rewrite (Hid_rows e He') in He. unfold target_shape_of in He.
    rewrite Hassets in He.
    destruct (env_assets_info self !! e) as [row|] eqn:Hrow; [|done].
    simpl in He. destruct (_current_target self' !! e) as [slot|]; [|done].
    simpl in He. exists row.
    split; by eapply list_elem_of_lookup_2. }
  exists self'. split; [exact Hrun|]. split; [|split; [exact Hsame|exact Hids]].
  split.
  - by rewrite Htarget, length_fmap, length_seq.
  - rewrite Htarget, Hmodels. apply Forall_fmap, Forall_forall. intros k _.
    simpl. apply drawn_target_range. lia.
  - by rewrite Hnum.
  - rewrite Hscene, Hnum. by destruct Hcat.
  - lia.
  - lia.
  - lia.
  - rewrite Hsymmetry. eapply Forall_impl; [exact Hids|].
    intros id (row & Hrow & Hid). rewrite Forall_forall in Hsym.
    specialize (Hsym row Hrow). rewrite Forall_forall in Hsym. by apply Hsym.
Qed.

(** X4: the first reset, of all environments, completes whatever
    [_current_target] held when it was allocated, and leaves buffers the
    evaluator accepts: [is_success] returns one verdict per environment. *)
Theorem full_reset_readies_the_evaluator `{FrameMath}
    (self : AssemblyKitEnv) (rng : Draws) (K n_starts : nat) :
  catalogue_ready self K n_starts ->
  length (_current_target self) = num_envs self ->
  (2 <= K)%nat ->
  Forall (Forall (fun id => id < length (symmetry self))%nat) (env_assets_info self) ->
  exists (self' : AssemblyKitEnv) (l : list bool),
    sample_models_for_envs rng (seq 0 (num_envs self)) self = (Ok tt, self') /\
    evaluator_ready self' /\
    is_success_default self' = Ok l /\
    length l = num_envs self.
Proof.
  intros Hcat Hct HK Hsym.
  destruct (full_reset_ready self rng K n_starts Hcat Hct HK Hsym)
    as (self' & Hrun & Hready & Hsame & _).
  destruct (is_success_rows self' pos_eps_default rot_eps_default height_eps_default
              Hready) as (l & Hl & Hlen & _).
  exists self', l. split; [exact Hrun|]. split; [exact Hready|].
  split; [exact Hl|]. destruct Hsame. lia.
Qed.

(** X5: a reset of the first [m] of [num_envs] environments leaves goal
    buffers of [m] rows; unless [m] is one or all, [is_success] then
    raises, whatever the tolerances. *)
Theorem partial_reset_breaks_the_evaluator `{FrameMath}
    (self : AssemblyKitEnv) (rng : Draws) (K n_starts m : nat)
    (pos_eps rot_eps height_eps : R) :
  sampler_ready self K n_starts -> (2 <= K)%nat ->
  (m < num_envs self)%nat -> m <> 1%nat -> num_envs self <> 1%nat ->
  exists self' : AssemblyKitEnv,
    sample_models_for_envs rng (seq 0 m) self = (Ok tt, self') /\
    length (target_goal_pos self') = m /\
    is_success self' pos_eps rot_eps height_eps = Raise RuntimeError.
Proof.
  intros Hready HK Hm Hm1 Hn1.
  destruct (sample_prefix_state self rng K n_starts m)
    as (self' & Hrun & _ & _ & Htarget & Hlen_pos & _ & _ & Hsame & Hmodels
        & Hstate & _);
    [by apply sampler_ready_catalogue | by destruct Hready
    | apply Forall_drop; by destruct Hready | done | lia |].
  destruct Hsame as [_ Hscene Hnum _ _ _ _ _ _ _ _ _ _ _ _ _].
  destruct Hready as [_ _ _ _ _ _ _ _ _ _ Horigins Hct Hct_range _ _ _ _ _].
  exists self'. split; [exact Hrun|]. split; [exact Hlen_pos|].
  destruct (get_target_model_pose_rows self') as (pose & Hpose & Hpose_len & _).
  - rewrite Htarget, length_app, length_fmap, length_seq, length_drop. lia.
  - rewrite Htarget, Hmodels. apply Forall_app. split.
    + apply Forall_fmap, Forall_forall. intros k _. simpl.
      apply drawn_target_range. lia.
    + by apply Forall_drop.
  - by rewrite Hnum.
  - by rewrite Hscene, Hnum.
  - unfold is_success. rewrite Hpose. simpl.
    rewrite broadcast_mismatch; [reflexivity|rewrite !length_fmap; lia..].
Qed.

Lemma res_map_raises {A B} (f : A -> res B) (l : list A) (x : A) (e : exn) :
  x ∈ l -> f x = Raise e -> (forall y e', f y = Raise e' -> e' = e) ->
  res_map f l = Raise e.
Proof.
  intros Hx Hfx Hall. induction l as [|a l IH]; [by apply elem_of_nil in Hx|].
  simpl. destruct (f a) as [b|e'] eqn:Hfa.
  - apply elem_of_cons in Hx as [->|Hx]; [congruence|].
    by rewrite (IH Hx).
  - by rewrite (Hall a e' Hfa).
Qed.

Lemma index_rows_out_of_range {A} (t : list A) (idx : list nat) (i : nat) :
  i ∈ idx -> (length t <= i)%nat -> index_rows t idx = Raise IndexError.
Proof.
  intros Hi Hlen. unfold index_rows. apply (res_map_raises _ _ i); [done|..].
  - unfold at_index. by rewrite lookup_ge_None_2.
  - intros y e'. unfold at_index. destruct (t !! y); simpl; congruence.
Qed.

(** X6: a reset which names an environment that does not exist raises
    [IndexError] before it has assigned anything. *)
Theorem reset_of_unknown_environment_changes_nothing `{FrameMath}
    (self : AssemblyKitEnv) (rng : Draws) (env_ids : list nat) (e : nat) :
  e ∈ env_ids -> (length (kit_ids_per_env self) <= e)%nat ->
  sample_models_for_envs rng env_ids self = (Raise IndexError, self).
Proof.
  intros He Hlen. unfold sample_models_for_envs. cbv zeta.
  unfold bind at 1. unfold attempt at 1.
  destruct (shape1 (model_target_pos self)) as [K|ex] eqn:HK.
  - unfold bind at 1. unfold attempt at 1.
    by rewrite (index_rows_out_of_range _ _ e).
  - unfold shape1 in HK. destruct (model_target_pos self); congruence.
Qed.

(** ** The tolerance evaluator *)

(** X7: tolerances which are loosened keep every success. *)
Theorem looser_tolerances_keep_success `{FrameMath} (self : AssemblyKitEnv)
    (pos_eps rot_eps height_eps pos_eps' rot_eps' height_eps' : R) :
  evaluator_ready self ->
  pos_eps <= pos_eps' -> rot_eps <= rot_eps' -> height_eps <= height_eps' ->
  exists l l' : list bool,
    is_success self pos_eps rot_eps height_eps = Ok l /\
    is_success self pos_eps' rot_eps' height_eps' = Ok l' /\
    forall i, l !! i = Some true -> l' !! i = Some true.
Proof.
  intros Hready Hp Hr Hh.
  destruct (is_success_rows self pos_eps rot_eps height_eps Hready)
    as (l & Hl & Hlen & Hrows).
  destruct (is_success_rows self pos_eps' rot_eps' height_eps' Hready)
    as (l' & Hl' & Hlen' & Hrows').
  exists l, l'. split; [exact Hl|]. split; [exact Hl'|].
  intros i Hi.
  destruct (evaluator_ready_rows self i Hready)
    as (P & g & r & id & period & HP & Hg & Hgr & Hid & Hperiod).
  { apply lookup_lt_Some in Hi. lia. }
  rewrite (Hrows i P g r id period HP Hg Hgr Hid Hperiod) in Hi.
  rewrite (Hrows' i P g r id period HP Hg Hgr Hid Hperiod).
  injection Hi as Hi. f_equal.
  rewrite !andb_true_iff, !Rltb_true_iff in *. lra.
Qed.

(** X8: [get_target_model_pose] returns one row per environment: the
    root state of the object in the target slot of the environment, its
    position taken relative to the environment origin, its orientation
    as it is. *)
Theorem target_pose_is_environment_local `{FrameMath} (self : AssemblyKitEnv) :
  length (_current_target self) = num_envs self ->
  Forall (fun t => t < length (models self))%nat (_current_target self) ->
  Forall (fun m => length (root_state_w m) = num_envs self) (models self) ->
  length (env_origins (scene self)) = num_envs self ->
  exists l : list Pose,
    get_target_model_pose self = Ok l /\
    length l = num_envs self /\
    forall (i slot : nat) (model : RigidObject) (P : Pose) (o : Vec3),
      _current_target self !! i = Some slot ->
      models self !! slot = Some model ->
      root_state_w model !! i = Some P ->
      env_origins (scene self) !! i = Some o ->
      l !! i = Some ((vx P.1 - vx o, vy P.1 - vy o, vz P.1 - vz o), P.2).
Proof.
  intros Hct Hslots Hmodels Horig.
  destruct (get_target_model_pose_rows self Hct Hslots Hmodels Horig)
    as (l & Hl & Hlen & Hrows).
  exists l. split; [exact Hl|]. split; [exact Hlen|].
  intros i slot model P o Hslot Hmodel HP Ho.
  rewrite Hrows. unfold target_pose_of.
  rewrite Hslot. cbn [mbind option_bind]. rewrite Hmodel. cbn [mbind option_bind].
  rewrite HP. cbn [mbind option_bind]. rewrite Ho. reflexivity.
Qed.

(** X9: a target slot for which there is no object makes
    [get_target_model_pose] raise [IndexError]. *)
Theorem target_slot_without_object_raises `{FrameMath}
    (self : AssemblyKitEnv) (slot : nat) :
  slot ∈ _current_target self -> (length (models self) <= slot)%nat ->
  get_target_model_pose self = Raise IndexError.
Proof.
  intros Hslot Hlen. unfold get_target_model_pose.
  by rewrite (index_rows_out_of_range _ _ slot).
Qed.

(** *** The rotation error and whole periods *)

Lemma remainder_add_period (x period : R) :
  0 < period -> remainder (x + period) period = remainder x period.
Proof.
  intros Hp. unfold remainder.
  replace ((x + period) / period) with (x / period + 1) by (field; lra).
  rewrite (Zfloor_eq (Zfloor (x / period) + 1) (x / period + 1)).
  - rewrite plus_IZR. simpl. ring.
  - rewrite plus_IZR. simpl.
    destruct (Zfloor_bound (x / period)). lra.
Qed.

Lemma folded_rot_error_shift (current goal period : R) :
  0 < period ->
  folded_rot_error current (goal + period) period
  = folded_rot_error current goal period.
Proof.
  intros Hp. unfold folded_rot_error, fold_to_shorter_arc, wrapped_difference.
  set (x := current - goal).
  replace (current - (goal + period)) with (x - period) by (unfold x; ring).
  destruct (Rle_dec period x) as [Hx|Hx].
  - (* both differences are positive *)
    rewrite !Rabs_pos_eq by lra.
    assert (remainder x period = remainder (x - period) period) as ->; [|done].
    rewrite <- (remainder_add_period (x - period)) by done. f_equal. ring.
  - destruct (Rle_dec x 0) as [Hx0|Hx0].
    + rewrite (Rabs_left1 x), (Rabs_left1 (x - period)) by lra.
      replace (- (x - period)) with (- x + period) by ring.
      by rewrite remainder_add_period.
    + rewrite (Rabs_pos_eq x), (Rabs_left1 (x - period)) by lra.
      rewrite !remainder_small by lra.
      repeat case_decide; lra.
Qed.

Lemma folded_rot_error_periods (current goal period : R) (k : Z) :
  0 < period ->
  folded_rot_error current (goal + IZR k * period) period
  = folded_rot_error current goal period.
Proof.
  intros Hp.
  assert (Hnat : forall (n : nat) (g : R),
            folded_rot_error current (g + INR n * period) period
            = folded_rot_error current g period).
  { induction n as [|n IH]; intros g.
    - simpl. f_equal. ring.
    - rewrite S_INR.
      replace (g + (INR n + 1) * period) with ((g + INR n * period) + period) by ring.
      by rewrite folded_rot_error_shift. }
  destruct (Z_le_gt_dec 0 k) as [Hk|Hk].
  - rewrite <- (Z2Nat.id k) by done. rewrite <- INR_IZR_INZ. apply Hnat.
  - rewrite <- (Hnat (Z.to_nat (- k)) (goal + IZR k * period)).
    f_equal. rewrite INR_IZR_INZ, Z2Nat.id by lia. rewrite opp_IZR. ring.
Qed.

(** X10: the rotation error of [is_success] does not tell a goal
    rotation from one which differs from it by whole symmetry periods of
    the target's shape: the error computed against the stored goal is
    the folded remainder against any of them. *)
Theorem rot_error_ignores_whole_periods `{FrameMath}
    (self : AssemblyKitEnv) (pose : list Pose) (i : nat) (P : Pose) (r : R)
    (id : nat) (period : R) (k : Z) :
  evaluator_ready self ->
  length pose = num_envs self ->
  pose !! i = Some P ->
  target_goal_rot self !! i = Some r ->
  current_target_model_id self !! i = Some id ->
  symmetry self !! id = Some period ->
  0 < period ->
  exists l : list R,
    is_success_rot_diff self pose = Ok l /\
    let yaw := (euler_xyz_from_quat P.2).2 in
    let d := remainder (Rabs (yaw - (r + IZR k * period))) period in
    l !! i = Some (if decide (d > period / 2) then period - d else d).
Proof.
  intros Hready Hlen HP Hr Hid Hperiod Hpos.
  destruct (is_success_rot_diff_rows self pose Hready Hlen) as (l & Hl & _ & Hrows).
  exists l. split; [exact Hl|]. cbv zeta.
  rewrite (Hrows i P r id period HP Hr Hid Hperiod).
  rewrite <- (folded_rot_error_periods _ r period k Hpos). reflexivity.
Qed.

(** ** The TCP resolver *)

Lemma index_column_in_range {A} (t : list (list A)) (ids : list nat) (c : nat) :
  Forall (fun e => e < length t)%nat ids ->
  Forall (fun row => c < length row)%nat t ->
  exists l, index_pairs t ids (replicate (length ids) c) = Ok l /\
    length l = length ids /\
    forall k e, ids !! k = Some e ->
      exists a, (row ← t !! e; row !! c) = Some a /\ l !! k = Some a.
Proof.
  intros Hids Hcol.
  destruct (index_pairs_in_range t ids (replicate (length ids) c))
    as (l & Hl & Hlen & Hrows).
  { by rewrite length_replicate. }
  { apply Forall_forall. intros [r c'] Hrc.
    apply list_elem_of_lookup in Hrc as [j Hj].
    rewrite lookup_zip_with in Hj.
    destruct (ids !! j) as [r'|] eqn:Hr; simpl in Hj; [|discriminate].
    destruct (replicate (length ids) c !! j) as [c''|] eqn:Hc;
      simpl in Hj; [|discriminate].
    injection Hj as <- <-. apply lookup_replicate in Hc as [-> _].
    rewrite Forall_forall in Hids.
    destruct (lookup_lt_is_Some_2 t r') as [row Hrow].
    { apply Hids. by eapply list_elem_of_lookup_2. }
    exists row. split; [exact Hrow|]. simpl.
    rewrite Forall_forall in Hcol. apply Hcol. by eapply list_elem_of_lookup_2. }
  exists l. split; [exact Hl|]. split; [exact Hlen|].
  intros k e Hk.
  assert (Hrep : replicate (length ids) c !! k = Some c).
  { apply lookup_replicate_2. by eapply lookup_lt_Some. }
  rewrite (Hrows k e c Hk Hrep).
  rewrite Forall_forall in Hids.
  destruct (lookup_lt_is_Some_2 t e) as [row Hrow].
  { apply Hids. by eapply list_elem_of_lookup_2. }
  rewrite Hrow. cbn [mbind option_bind].
  rewrite Forall_forall in Hcol.
  destruct (lookup_lt_is_Some_2 row c) as [a Ha].
  { apply Hcol. by eapply list_elem_of_lookup_2. }
  exists a. by rewrite Ha.
Qed.

(** The TCP of the environments [env_ids], row by row. *)
Lemma tcp_world_rows `{FrameMath} (self : AssemblyKitEnv)
    (env_ids : option (list nat)) :
  let ids := default (seq 0 (num_envs self)) env_ids in
  tcp_ready self ids ->
  exists (p : list Vec3) (q : list Quat),
    _compute_tcp_world self env_ids = Ok (p, q) /\
    length p = length ids /\ length q = length ids /\
    forall k e, ids !! k = Some e ->
      exists (hp : Vec3) (hq : Quat) (lp : Vec3) (lq : Quat) (o : Vec3),
        (row ← body_pos_w (robot self) !! e; row !! hand_link_idx self) = Some hp /\
        (row ← body_quat_w (robot self) !! e; row !! hand_link_idx self) = Some hq /\
        robot_local_grasp_pos self !! e = Some lp /\
        robot_local_grasp_rot self !! e = Some lq /\
        env_origins (scene self) !! e = Some o /\
        p !! k = Some (vsub (tf_combine hq hp lq lp).2 o) /\
        q !! k = Some (tf_combine hq hp lq lp).1.
Proof.
  intros ids [Hids Hbp Hbq Hhp Hhq Hlp Hlq Horig].
  destruct (index_column_in_range (body_pos_w (robot self)) ids (hand_link_idx self))
    as (hps & Hhps & Hlen_hps & Hrows_hps); [by rewrite Hbp|done|].
  destruct (index_column_in_range (body_quat_w (robot self)) ids (hand_link_idx self))
    as (hqs & Hhqs & Hlen_hqs & Hrows_hqs); [by rewrite Hbq|done|].
  destruct (index_rows_in_range (robot_local_grasp_rot self) ids)
    as (lqs & Hlqs & Hlen_lqs & Hrows_lqs); [by rewrite Hlq|].
  destruct (index_rows_in_range (robot_local_grasp_pos self) ids)
    as (lps & Hlps & Hlen_lps & Hrows_lps); [by rewrite Hlp|].
  destruct (index_rows_in_range (env_origins (scene self)) ids)
    as (os & Hos & Hlen_os & Hrows_os); [by rewrite Horig|].
  unfold _compute_tcp_world. fold ids.
  rewrite Hhps. simpl. rewrite Hhqs. simpl. rewrite Hlqs. simpl.
  rewrite Hlps. simpl. rewrite Hos. simpl.
  eexists _, _. split; [reflexivity|].
  split; [rewrite !length_zip_with, length_fmap, !length_zip_with; lia|].
  split; [rewrite length_fmap, !length_zip_with; lia|].
  intros k e Hk.
  destruct (Hrows_hps k e Hk) as (hp & Hhp_e & Hhp_k).
  destruct (Hrows_hqs k e Hk) as (hq & Hhq_e & Hhq_k).
  rewrite Forall_forall in Hids.
  pose proof (Hids e (list_elem_of_lookup_2 _ _ _ Hk)) as He.
  destruct (lookup_lt_is_Some_2 (robot_local_grasp_pos self) e) as [lp Hlp_e]; [lia|].
  destruct (lookup_lt_is_Some_2 (robot_local_grasp_rot self) e) as [lq Hlq_e]; [lia|].
  destruct (lookup_lt_is_Some_2 (env_origins (scene self)) e) as [o Ho_e]; [lia|].
  exists hp, hq, lp, lq, o. repeat (split; [done|]).
  repeat (rewrite lookup_zip_with || rewrite list_lookup_fmap).
  rewrite Hhq_k, Hhp_k, (Hrows_lqs k e Hk), (Hrows_lps k e Hk), (Hrows_os k e Hk).
  rewrite Hlq_e, Hlp_e, Ho_e. split; reflexivity.
Qed.

(** X11: the TCP of a subset of the environments is the TCP of all of
    them, read at the rows of the subset: what is computed for an
    environment does not depend on which others are asked for. *)
Theorem tcp_of_subset_is_rows_of_all `{FrameMath}
    (self : AssemblyKitEnv) (env_ids : list nat) :
  tcp_ready self env_ids ->
  exists (p : list Vec3) (q : list Quat) (p_all : list Vec3) (q_all : list Quat),
    _compute_tcp_world self (Some env_ids) = Ok (p, q) /\
    _compute_tcp_world self None = Ok (p_all, q_all) /\
    length p = length env_ids /\ length q = length env_ids /\
    length p_all = num_envs self /\ length q_all = num_envs self /\
    forall k e, env_ids !! k = Some e ->
      p !! k = p_all !! e /\ q !! k = q_all !! e.
Proof.
  intros Hready.
  assert (Hall : tcp_ready self (seq 0 (num_envs self))).
  { destruct Hready. split; try done.
    apply Forall_forall. intros e He. apply elem_of_seq in He. lia. }
  destruct (tcp_world_rows self (Some env_ids) Hready)
    as (p & q & Hrun & Hp & Hq & Hrows).
  destruct (tcp_world_rows self None Hall)
    as (p_all & q_all & Hrun_all & Hp_all & Hq_all & Hrows_all).
  simpl in *. rewrite length_seq in Hp_all, Hq_all.
  exists p, q, p_all, q_all. repeat (split; [done|]).
  intros k e Hk.
  destruct (Hrows k e Hk) as (hp & hq & lp & lq & o & H1 & H2 & H3 & H4 & H5 & -> & ->).
  destruct (Hrows_all e e) as (hp' & hq' & lp' & lq' & o' & H1' & H2' & H3' & H4' & H5' & -> & ->).
  { apply lookup_seq_lt. destruct Hready as [Hids _ _ _ _ _ _ _].
    rewrite Forall_forall in Hids. apply Hids. by eapply list_elem_of_lookup_2. }
  split; congruence.
Qed.

Lemma index_pairs_out_of_range {A} (t : list (list A)) (rows cols : list nat)
    (k r : nat) :
  rows !! k = Some r -> (k < length cols)%nat -> (length t <= r)%nat ->
  index_pairs t rows cols = Raise IndexError.
Proof.
  intros Hr Hk Hlen. unfold index_pairs.
  destruct (lookup_lt_is_Some_2 cols k Hk) as [c Hc].
  apply (res_map_raises _ _ (r, c)).
  - apply list_elem_of_lookup. exists k. rewrite lookup_zip_with, Hr. simpl.
    by rewrite Hc.
  - simpl. unfold at_index. by rewrite lookup_ge_None_2.
  - intros [r' c'] e'. simpl. unfold at_index.
    destruct (t !! r') as [row|]; simpl; [|congruence].
    destruct (row !! c'); simpl; congruence.
Qed.

(** X12: asked for an environment whose robot it does not hold, the TCP
    resolver raises [IndexError]. *)
Theorem tcp_of_unknown_environment_raises `{FrameMath}
    (self : AssemblyKitEnv) (env_ids : list nat) (e : nat) :
  e ∈ env_ids -> (length (body_pos_w (robot self)) <= e)%nat ->
  _compute_tcp_world self (Some env_ids) = Raise IndexError.
Proof.
  intros He Hlen. apply list_elem_of_lookup in He as [k Hk].
  unfold _compute_tcp_world. simpl.
  rewrite (index_pairs_out_of_range _ _ _ k e); [reflexivity|done| |done].
  rewrite length_replicate. by eapply lookup_lt_Some.
Qed.

(** ** Observations *)

Lemma one_hot_rows (index : list nat) (num_classes : nat) :
  Forall (fun c => c < num_classes)%nat index ->
  one_hot index num_classes
  = Ok ((fun c => (fun j => if (j =? c)%nat then 1 else 0) <$> seq 0 num_classes)
          <$> index).
Proof.
  intros Hidx. unfold one_hot.
  rewrite (proj2 (forallb_forall _ _)); [reflexivity|].
  intros c Hc. apply Nat.ltb_lt. rewrite Forall_forall in Hidx.
  apply Hidx. by apply list_elem_of_In.
Qed.

Lemma one_hot_raises (index : list nat) (num_classes : nat) (e : exn) :
  one_hot index num_classes = Raise e -> e = RuntimeError.
Proof. unfold one_hot. case (forallb _ _); congruence. Qed.

Lemma broadcast_raises {A B C} (f : A -> B -> C) (a : list A) (b : list B) (e : exn) :
  broadcast f a b = Raise e -> e = RuntimeError.
Proof.
  unfold broadcast. case (_ =? _)%nat; [congruence|].
  destruct a as [|x [|x' a]]; destruct b as [|y [|y' b]]; congruence.
Qed.

Lemma cat_same_rows (t : list (list R)) (ts : list (list (list R))) :
  Forall (fun t' => length t' = length t) ts ->
  cat (t :: ts) = Ok (foldl (zip_with app) t ts).
Proof.
  intros Hts. unfold cat.
  rewrite (proj2 (forallb_forall _ _)); [reflexivity|].
  intros t' Ht'. apply Nat.eqb_eq. rewrite Forall_forall in Hts.
  apply Hts. by apply list_elem_of_In.
Qed.

Lemma cat_other_rows (t t' : list (list R)) (ts : list (list (list R))) :
  t' ∈ ts -> length t' <> length t -> cat (t :: ts) = Raise RuntimeError.
Proof.
  intros Ht' Hlen. unfold cat.
  destruct (forallb (fun t' => length t' =? length t)%nat ts) eqn:Hall; [|reflexivity].
  rewrite forallb_forall in Hall.
  specialize (Hall t' (proj1 (list_elem_of_In _ _) Ht')).
  apply Nat.eqb_eq in Hall. done.
Qed.

Section ObservationFacts.
Context `{FrameMath}.

(** The state observation, row by row. *)
Lemma state_observation_rows (self : AssemblyKitEnv) (num_shape_types : nat)
    (rgb : list (list (list (Z * Z * Z)))) :
  evaluator_ready self ->
  tcp_ready self (seq 0 (num_envs self)) ->
  Forall (fun id => id < num_shape_types)%nat (current_target_model_id self) ->
  exists (obs : list (list R)) (tcp_pos : list Vec3) (tcp_rot : list Quat),
    _get_observations self num_shape_types "state" rgb = Ok (StateObs obs) /\
    _compute_tcp_world self None = Ok (tcp_pos, tcp_rot) /\
    length obs = num_envs self /\
    forall e, (e < num_envs self)%nat ->
      exists (tp : Vec3) (tq : Quat) (P : Pose) (g : Vec3) (r : R) (id : nat),
        tcp_pos !! e = Some tp /\ tcp_rot !! e = Some tq /\
        target_pose_of self e = Some P /\
        target_goal_pos self !! e = Some g /\
        target_goal_rot self !! e = Some r /\
        current_target_model_id self !! e = Some id /\
        obs !! e
        = Some ([vx tp; vy tp; vz tp]
                ++ [tq.1.1.1; tq.1.1.2; tq.1.2; tq.2]
                ++ [vx P.1; vy P.1; vz P.1; P.2.1.1.1; P.2.1.1.2; P.2.1.2; P.2.2]
                ++ [vx P.1 - vx tp; vy P.1 - vy tp; vz P.1 - vz tp]
                ++ [vx g; vy g; vz g]
                ++ [r]
                ++ [vx g - vx P.1; vy g - vy P.1; vz g - vz P.1]
                ++ ((fun j => if (j =? id)%nat then 1 else 0) <$> seq 0 num_shape_types)).
Proof.
  intros Hready Htcp Hids.
  destruct (tcp_world_rows self None Htcp) as (tp & tq & Hrun & Htp & Htq & Htcp_rows).
  simpl in Htp, Htq, Htcp_rows. rewrite length_seq in Htp, Htq.
  destruct (get_target_model_pose_ready self Hready) as (pose & Hpose & Hpose_len & Hpose_rows).
  pose proof Hready as [_ _ _ _ Hgp Hgr Hid _].
  unfold _get_observations. rewrite Hrun. cbn [res_bind fst snd].
  rewrite Hpose. cbn [res_bind].
  rewrite one_hot_rows by done. cbn [res_bind].
  rewrite broadcast_same by (rewrite length_fmap; lia). cbn [res_bind].
  rewrite broadcast_same by (rewrite length_fmap; lia). cbn [res_bind].
  rewrite cat_same_rows.
  2:{ repeat constructor;
        rewrite ?length_fmap, ?length_zip_with, ?length_fmap; lia. }
  cbn [res_bind foldl String.eqb Ascii.eqb Bool.eqb]. eexists. exists tp, tq. split; [reflexivity|]. split; [reflexivity|].
  split.
  { rewrite !length_zip_with, !length_fmap, ?length_zip_with, ?length_fmap. lia. }
  intros e He.
  destruct (Htcp_rows e e) as (hp & hq & lp & lq & o & _ & _ & _ & _ & _ & Hp_e & Hq_e).
  { by apply lookup_seq_lt. }
  destruct (evaluator_ready_rows self e Hready He)
    as (P & g & r & id & period & HP & Hg & Hgr_e & Hid_e & _).
  eexists _, _, P, g, r, id. repeat (split; [done|]).
  rewrite <- Hpose_rows in HP.
  repeat (rewrite lookup_zip_with || rewrite list_lookup_fmap).
  rewrite Hp_e, Hq_e, HP, Hg, Hgr_e, Hid_e. reflexivity.
Qed.

(** X13: in state mode, an environment which is ready is observed by one
    row per environment, of 24 columns and one column per shape type:
    the TCP (position, orientation), the target object (position,
    orientation), the object relative to the TCP, the goal (position,
    rotation), the goal relative to the object, and the shape of the
    target, one-hot. *)
Theorem state_observation_layout (self : AssemblyKitEnv) (num_shape_types : nat)
    (rgb : list (list (list (Z * Z * Z)))) :
  evaluator_ready self ->
  tcp_ready self (seq 0 (num_envs self)) ->
  Forall (fun id => id < num_shape_types)%nat (current_target_model_id self) ->
  exists (obs : list (list R)) (tcp_pos : list Vec3) (tcp_rot : list Quat),
    _get_observations self num_shape_types "state" rgb = Ok (StateObs obs) /\
    _compute_tcp_world self None = Ok (tcp_pos, tcp_rot) /\
    length obs = num_envs self /\
    forall e, (e < num_envs self)%nat ->
      exists (tp : Vec3) (tq : Quat) (P : Pose) (g : Vec3) (r : R) (id : nat),
        tcp_pos !! e = Some tp /\ tcp_rot !! e = Some tq /\
        target_pose_of self e = Some P /\
        target_goal_pos self !! e = Some g /\
        target_goal_rot self !! e = Some r /\
        current_target_model_id self !! e = Some id /\
        obs !! e
        = Some ([vx tp; vy tp; vz tp]
                ++ [tq.1.1.1; tq.1.1.2; tq.1.2; tq.2]
                ++ [vx P.1; vy P.1; vz P.1; P.2.1.1.1; P.2.1.1.2; P.2.1.2; P.2.2]
                ++ [vx P.1 - vx tp; vy P.1 - vy tp; vz P.1 - vz tp]
                ++ [vx g; vy g; vz g]
                ++ [r]
                ++ [vx g - vx P.1; vy g - vy P.1; vz g - vz P.1]
                ++ ((fun j => if (j =? id)%nat then 1 else 0) <$> seq 0 num_shape_types)).
Proof. apply state_observation_rows. Qed.

(** X14: the state observation shows what [is_success] checks: columns
    21 and 22 hold the planar offset of the goal from the target object
    and column 9 the height of the object, so that wherever [is_success]
    reports success the offset observed is shorter than 0.02 and the
    height observed is below 0.003. *)
Theorem success_shows_in_the_observation (self : AssemblyKitEnv)
    (num_shape_types : nat) (rgb : list (list (list (Z * Z * Z)))) :
  evaluator_ready self ->
  tcp_ready self (seq 0 (num_envs self)) ->
  Forall (fun id => id < num_shape_types)%nat (current_target_model_id self) ->
  exists (obs : list (list R)) (success : list bool),
    _get_observations self num_shape_types "state" rgb = Ok (StateObs obs) /\
    is_success_default self = Ok success /\
    forall (e : nat) (row : list R) (dx dy z : R),
      obs !! e = Some row ->
      row !! 21%nat = Some dx -> row !! 22%nat = Some dy -> row !! 9%nat = Some z ->
      success !! e = Some true ->
      sqrt (dx * dx + dy * dy) < 0.02 /\ z < 0.003.
Proof.
  intros Hready Htcp Hids.
  destruct (state_observation_rows self num_shape_types rgb Hready Htcp Hids)
    as (obs & tp & tq & Hobs & _ & Hlen & Hrows).
  destruct (is_success_rows self pos_eps_default rot_eps_default height_eps_default
              Hready) as (l & Hl & _ & Hl_rows).
  exists obs, l. split; [exact Hobs|]. split; [exact Hl|].
  intros e row dx dy z Hrow Hdx Hdy Hz Hsuccess.
  destruct (Hrows e) as (tpe & tqe & P & g & r & id & _ & _ & HP & Hg & Hr & Hid & Hrow').
  { apply lookup_lt_Some in Hrow. lia. }
  destruct (evaluator_ready_rows self e Hready)
    as (P' & g' & r' & id' & period & HP' & Hg' & Hr' & Hid' & Hperiod).
  { apply lookup_lt_Some in Hrow. lia. }
  assert (P' = P) as -> by congruence. assert (g' = g) as -> by congruence.
  assert (r' = r) as -> by congruence. assert (id' = id) as -> by congruence.
  rewrite (Hl_rows e P g r id period HP Hg Hr Hid Hperiod) in Hsuccess.
  injection Hsuccess as Hsuccess.
  rewrite !andb_true_iff, !Rltb_true_iff in Hsuccess.
  destruct Hsuccess as [[Hxy _] Hheight].
  rewrite Hrow' in Hrow. injection Hrow as <-.
  cbn in Hdx, Hdy, Hz. injection Hdx as <-. injection Hdy as <-. injection Hz as <-.
  unfold pos_eps_default, height_eps_default, norm2, vsub2, xy in *.
  cbn [fst snd] in Hxy. split; [exact Hxy|exact Hheight].
Qed.

(** X15: in any mode but ["state"] the observation is the camera image
    with its bytes scaled to the unit interval, of the shape the camera
    gave it; the state has been computed all the same, and must be
    computable. *)
Theorem pixel_observation_is_normalised (self : AssemblyKitEnv)
    (num_shape_types : nat) (obs_mode : string)
    (rgb : list (list (list (Z * Z * Z)))) :
  evaluator_ready self ->
  tcp_ready self (seq 0 (num_envs self)) ->
  Forall (fun id => id < num_shape_types)%nat (current_target_model_id self) ->
  obs_mode <> "state"%string ->
  Forall (Forall (Forall (fun px : Z * Z * Z =>
            (0 <= px.1.1 <= 255 /\ 0 <= px.1.2 <= 255 /\ 0 <= px.2 <= 255)%Z))) rgb ->
  exists pixels : list (list (list (R * R * R))),
    _get_observations self num_shape_types obs_mode rgb = Ok (PixelObs pixels) /\
    Forall2 (Forall2 (Forall2 (fun (px : Z * Z * Z) (c : R * R * R) =>
               c = (IZR px.1.1 / 255, IZR px.1.2 / 255, IZR px.2 / 255)))) rgb pixels /\
    Forall (Forall (Forall (fun c : R * R * R =>
              0 <= c.1.1 <= 1 /\ 0 <= c.1.2 <= 1 /\ 0 <= c.2 <= 1))) pixels.
Proof.
  intros Hready Htcp Hids Hmode Hbytes.
  destruct (state_observation_rows self num_shape_types rgb Hready Htcp Hids)
    as (obs & tp & tq & Hobs & _).
  unfold _get_observations in *.
  destruct (_compute_tcp_world self None) as [tcp|]; [|done]. cbn [res_bind] in *.
  destruct (get_target_model_pose self) as [pose|]; [|done]. cbn [res_bind] in *.
  destruct (one_hot _ _) as [hot|]; [|done]. cbn [res_bind] in *.
  destruct (broadcast vsub _ _) as [to_tcp|]; [|done]. cbn [res_bind] in *.
  destruct (broadcast vsub _ _) as [to_goal|]; [|done]. cbn [res_bind] in *.
  destruct (cat _) as [state_obs|]; [|done]. cbn [res_bind] in *.
  rewrite (proj2 (String.eqb_neq _ _) Hmode).
  eexists. split; [reflexivity|]. split.
  - apply Forall2_fmap_r, Forall_Forall2_diag, Forall_forall. intros image _.
    apply Forall2_fmap_r, Forall_Forall2_diag, Forall_forall. intros row _.
    apply Forall2_fmap_r, Forall_Forall2_diag, Forall_forall. intros px _.
    reflexivity.
  - apply Forall_fmap. eapply Forall_impl; [exact Hbytes|]. intros image Himage.
    apply Forall_fmap. eapply Forall_impl; [exact Himage|]. intros row Hrow.
    apply Forall_fmap. eapply Forall_impl; [exact Hrow|].
    intros [[r g] b] (Hr & Hg & Hb). unfold to_unit. simpl in *.
    destruct Hr as [Hr0 Hr1]. destruct Hg as [Hg0 Hg1]. destruct Hb as [Hb0 Hb1].
    apply IZR_le in Hr0, Hr1, Hg0, Hg1, Hb0, Hb1. lra.
Qed.


End ObservationFacts.

(** X16: a reset of fewer than all environments leaves goal buffers
    which do not fit the other blocks of the state: the next observation
    raises, in every mode. *)
Theorem partial_reset_breaks_the_observation `{FrameMath}
    (self : AssemblyKitEnv) (rng : Draws) (K n_starts m : nat)
    (num_shape_types : nat) (obs_mode : string)
    (rgb : list (list (list (Z * Z * Z)))) :
  sampler_ready self K n_starts -> (2 <= K)%nat ->
  (m < num_envs self)%nat ->
  tcp_ready self (seq 0 (num_envs self)) ->
  exists self' : AssemblyKitEnv,
    sample_models_for_envs rng (seq 0 m) self = (Ok tt, self') /\
    _get_observations self' num_shape_types obs_mode rgb = Raise RuntimeError.
Proof.
  intros Hready HK Hm Htcp.
  destruct (sample_prefix_state self rng K n_starts m)
    as (self' & Hrun & _ & _ & Htarget & Hlen_pos & _ & _ & Hsame & Hmodels
        & Hstate & _);
    [by apply sampler_ready_catalogue | by destruct Hready
    | apply Forall_drop; by destruct Hready | done | lia |].
  destruct Hsame as [_ Hscene Hnum _ _ _ Hrobot Hlp Hlq Hhand _ _ _ _ _ _].
  destruct Hready as [_ _ _ _ _ _ _ _ _ _ Horigins Hct Hct_range _ _ _ _ _].
  exists self'. split; [exact Hrun|].
  assert (Htcp' : tcp_ready self' (seq 0 (num_envs self'))).
  { destruct Htcp. split; rewrite ?Hnum, ?Hrobot, ?Hlp, ?Hlq, ?Hhand, ?Hscene; done. }
  destruct (tcp_world_rows self' None Htcp') as (tp & tq & Htp & Htp_len & _).
  simpl in Htp_len. rewrite length_seq, Hnum in Htp_len.
  destruct (get_target_model_pose_rows self') as (pose & Hpose & Hpose_len & _).
  { rewrite Htarget, length_app, length_fmap, length_seq, length_drop. lia. }
  { rewrite Htarget, Hmodels. apply Forall_app. split.
    - apply Forall_fmap, Forall_forall. intros k _. simpl.
      apply drawn_target_range. lia.
    - by apply Forall_drop. }
  { by rewrite Hnum. }
  { by rewrite Hscene, Hnum. }
  rewrite Hnum in Hpose_len.
  unfold _get_observations. rewrite Htp. cbn [res_bind fst snd].
  rewrite Hpose. cbn [res_bind].
  destruct (one_hot _ _) as [hot|e] eqn:Hhot; cbn [res_bind];
    [|by rewrite (one_hot_raises _ _ _ Hhot)].
  rewrite broadcast_same by (rewrite length_fmap; lia). cbn [res_bind].
  destruct (broadcast vsub (target_goal_pos self') _) as [to_goal|e] eqn:Hgoal;
    cbn [res_bind]; [|by rewrite (broadcast_raises _ _ _ _ Hgoal)].
  rewrite (cat_other_rows _ (vec3_cols <$> target_goal_pos self')); [reflexivity| |].
  - do 3 apply list_elem_of_further. apply list_elem_of_here.
  - rewrite !length_fmap. lia.
Qed.

(** ** The local TCP *)

(** *** Rotations by the formulas of the library *)

Lemma quat_apply_sub (q : Quat) (a b : Vec3) :
  quat_apply q (vsub a b) = vsub (quat_apply q a) (quat_apply q b).
Proof.
  destruct q as [[[w x] y] z]. destruct a as [[a1 a2] a3]. destruct b as [[b1 b2] b3].
  unfold quat_apply, cross, vsub, vx, vy, vz. cbn [fst snd].
  f_equal; [f_equal|]; ring.
Qed.

Lemma quat_apply_add (q : Quat) (a b : Vec3) :
  quat_apply q (vadd a b) = vadd (quat_apply q a) (quat_apply q b).
Proof.
  destruct q as [[[w x] y] z]. destruct a as [[a1 a2] a3]. destruct b as [[b1 b2] b3].
  unfold quat_apply, cross, vadd, vx, vy, vz. cbn [fst snd].
  f_equal; [f_equal|]; ring.
Qed.

Lemma quat_mul_conjugate (q f : Quat) :
  unit_quat q -> quat_mul q (quat_mul (quat_conjugate q) f) = f.
Proof.
  destruct q as [[[w x] y] z]. destruct f as [[[fw fx] fy] fz].
  cbv [unit_quat quat_mul quat_conjugate fst snd]. intros Hunit.
  replace 0.5 with (/ 2) by lra.
  f_equal; [f_equal; [f_equal|]|].
  - transitivity ((w * w + x * x + y * y + z * z) * fw); [field|rewrite Hunit; ring].
  - transitivity ((w * w + x * x + y * y + z * z) * fx); [field|rewrite Hunit; ring].
  - transitivity ((w * w + x * x + y * y + z * z) * fy); [field|rewrite Hunit; ring].
  - transitivity ((w * w + x * x + y * y + z * z) * fz); [field|rewrite Hunit; ring].
Qed.

Lemma quat_apply_conjugate (q : Quat) (v : Vec3) :
  unit_quat q -> quat_apply q (quat_apply (quat_conjugate q) v) = v.
Proof.
  destruct q as [[[w x] y] z]. destruct v as [[v1 v2] v3].
  cbv [unit_quat quat_apply quat_conjugate cross vx vy vz fst snd].
  intros Hunit.
  f_equal; [f_equal|].
  - transitivity (v1 + 4 * (1 - (w * w + x * x + y * y + z * z))
                         * (y * (x * v2 - y * v1) - z * (z * v1 - x * v3)));
      [ring|rewrite Hunit; ring].
  - transitivity (v2 + 4 * (1 - (w * w + x * x + y * y + z * z))
                         * (z * (y * v3 - z * v2) - x * (x * v2 - y * v1)));
      [ring|rewrite Hunit; ring].
  - transitivity (v3 + 4 * (1 - (w * w + x * x + y * y + z * z))
                         * (x * (z * v1 - x * v3) - y * (y * v3 - z * v2)));
      [ring|rewrite Hunit; ring].
Qed.

(** The local TCP by the formulas of the library: the finger midpoint
    relative to the wrist, turned into the wrist frame, and the offset. *)
Lemma isaac_local_tcp (stage : Stage) (env_origin : Vec3)
    (wrist_prim_path lfinger_prim_path rfinger_prim_path : string) (y_offset : R) :
  let wrist := stage wrist_prim_path in
  let lfinger := stage lfinger_prim_path in
  let rfinger := stage rfinger_prim_path in
  let mid : Vec3 := ((vx lfinger.1 + vx rfinger.1) / 2,
                     (vy lfinger.1 + vy rfinger.1) / 2,
                     (vz lfinger.1 + vz rfinger.1) / 2) in
  @compute_local_tcp isaac_frame_math isaac_frame_inverse stage env_origin
    wrist_prim_path lfinger_prim_path rfinger_prim_path y_offset
  = (vadd (vsub (quat_apply (quat_conjugate wrist.2) mid)
                (quat_apply (quat_conjugate wrist.2) wrist.1))
          (0, y_offset, 0),
     quat_mul (quat_conjugate wrist.2) lfinger.2).
Proof.
  cbv zeta. unfold compute_local_tcp, get_env_local_pose.
  cbn [tf_combine tf_inverse isaac_frame_math isaac_frame_inverse fst snd].
  unfold isaac_tf_inverse. cbn [fst snd].
  set (q := quat_conjugate (stage wrist_prim_path).2).
  set (l := (stage lfinger_prim_path).1). set (r := (stage rfinger_prim_path).1).
  set (t := (stage wrist_prim_path).1).
  change (vx t - vx env_origin, vy t - vy env_origin, vz t - vz env_origin)
    with (vsub t env_origin).
  assert (Hmid : ((vx (vx l - vx env_origin, vy l - vy env_origin, vz l - vz env_origin)
                   + vx (vx r - vx env_origin, vy r - vy env_origin, vz r - vz env_origin)) / 2,
                  (vy (vx l - vx env_origin, vy l - vy env_origin, vz l - vz env_origin)
                   + vy (vx r - vx env_origin, vy r - vy env_origin, vz r - vz env_origin)) / 2,
                  (vz (vx l - vx env_origin, vy l - vy env_origin, vz l - vz env_origin)
                   + vz (vx r - vx env_origin, vy r - vy env_origin, vz r - vz env_origin)) / 2)
                 = vsub ((vx l + vx r) / 2, (vy l + vy r) / 2, (vz l + vz r) / 2)
                        env_origin).
  { unfold vsub, vx, vy, vz. cbn [fst snd]. f_equal; [f_equal|]; field. }
  rewrite Hmid, !quat_apply_sub.
  generalize (quat_apply q ((vx l + vx r) / 2, (vy l + vy r) / 2, (vz l + vz r) / 2)).
  generalize (quat_apply q t). generalize (quat_apply q env_origin).
  intros [[c1 c2] c3] [[b1 b2] b3] [[a1 a2] a3].
  unfold vadd, vsub, vx, vy, vz. cbn [fst snd].
  f_equal. f_equal; [f_equal|]; ring.
Qed.

(** X17: with the frame math of the library, [compute_local_tcp] does
    not depend on the environment origin it is given: the three poses
    are shifted alike, and the shift cancels in the wrist frame. *)
Theorem local_tcp_does_not_depend_on_the_origin (stage : Stage)
    (env_origin env_origin' : Vec3)
    (wrist_prim_path lfinger_prim_path rfinger_prim_path : string) (y_offset : R) :
  @compute_local_tcp isaac_frame_math isaac_frame_inverse stage env_origin
    wrist_prim_path lfinger_prim_path rfinger_prim_path y_offset
  = @compute_local_tcp isaac_frame_math isaac_frame_inverse stage env_origin'
      wrist_prim_path lfinger_prim_path rfinger_prim_path y_offset.
Proof. by rewrite !isaac_local_tcp. Qed.

(** The wrist pose composed with the local TCP gives back the finger
    midpoint, moved by the offset turned with the wrist, and the
    orientation of the left finger. *)
Lemma isaac_wrist_round_trip (q : Quat) (t mid : Vec3) (qf : Quat) (y : R) :
  unit_quat q ->
  @tf_combine isaac_frame_math q t (quat_mul (quat_conjugate q) qf)
    (vadd (vsub (quat_apply (quat_conjugate q) mid)
                (quat_apply (quat_conjugate q) t)) (0, y, 0))
  = (qf, vadd mid (quat_apply q (0, y, 0))).
Proof.
  intros Hunit. cbn [tf_combine isaac_frame_math].
  rewrite quat_mul_conjugate by done.
  rewrite quat_apply_add, quat_apply_sub, !quat_apply_conjugate by done.
  generalize (quat_apply q (0, y, 0)). intros [[c1 c2] c3].
  destruct t as [[t1 t2] t3]. destruct mid as [[m1 m2] m3].
  unfold vadd, vsub, vx, vy, vz. cbn [fst snd].
  f_equal. f_equal; [f_equal|]; ring.
Qed.

Lemma stack_ok {A} (rows : list A) : (0 < length rows)%nat -> stack rows = Ok rows.
Proof. destruct rows; simpl; [lia|done]. Qed.

Section LocalTcpFacts.
Context `{FrameMath} `{FrameInverse}.

(** The block of [__init__], row by row. *)
Lemma init_local_tcp_rows (stage : Stage) (self : AssemblyKitEnv) :
  (0 < num_envs self)%nat ->
  (num_envs self <= length (env_origins (scene self)))%nat ->
  exists local : list Vec3 * list Quat,
    init_local_tcp stage self = Ok local /\
    length local.1 = num_envs self /\ length local.2 = num_envs self /\
    forall e o, (e < num_envs self)%nat -> env_origins (scene self) !! e = Some o ->
      let tcp := compute_local_tcp stage o
                   (robot_prim_path e "panda_link7")
                   (robot_prim_path e "panda_leftfinger")
                   (robot_prim_path e "panda_rightfinger") y_offset_default in
      local.1 !! e = Some tcp.1 /\ local.2 !! e = Some tcp.2.
Proof.
  intros Hn Horig. unfold init_local_tcp.
  set (f := fun i => res_bind (at_index (env_origins (scene self)) i) _).
  destruct (res_map_exists f (seq 0 (num_envs self))) as (l & Hl & Hrows).
  { apply Forall_forall. intros i Hi. apply elem_of_seq in Hi.
    destruct (lookup_lt_is_Some_2 (env_origins (scene self)) i) as [o Ho]; [lia|].
    eexists. unfold f, at_index. rewrite Ho. reflexivity. }
  rewrite Hl. cbn [res_bind].
  pose proof (Forall2_length _ _ _ Hrows) as Hlen. rewrite length_seq in Hlen.
  rewrite !stack_ok by (rewrite length_fmap; lia). cbn [res_bind].
  eexists. split; [reflexivity|]. cbn [fst snd].
  rewrite !length_fmap. split; [done|]. split; [done|].
  intros e o He Ho.
  assert (Hk : seq 0 (num_envs self) !! e = Some e) by (by apply lookup_seq_lt).
  destruct (Forall2_lookup_l _ _ _ _ _ Hrows Hk) as (y & Hy & Hfy).
  unfold f, at_index in Hfy. rewrite Ho in Hfy. simpl in Hfy. injection Hfy as <-.
  rewrite !list_lookup_fmap, Hy. split; reflexivity.
Qed.

(** X18: construction computes one local TCP per environment; with no
    environment to compute it for, it raises. *)
Theorem one_local_tcp_per_environment (stage : Stage) (self : AssemblyKitEnv) :
  (num_envs self <= length (env_origins (scene self)))%nat ->
  match init_local_tcp stage self with
  | Ok local =>
      (0 < num_envs self)%nat /\
      length local.1 = num_envs self /\ length local.2 = num_envs self
  | Raise e => num_envs self = 0%nat /\ e = RuntimeError
  end.
Proof.
  intros Horig. destruct (num_envs self) as [|n] eqn:Hn.
  - unfold init_local_tcp. rewrite Hn. simpl. done.
  - destruct (init_local_tcp_rows stage self) as (local & -> & Hp & Hq & _); [lia..|].
    rewrite Hn in Hp, Hq. split; [lia|done].
Qed.

End LocalTcpFacts.

Lemma with_local_tcp_ready (self : AssemblyKitEnv) (local : list Vec3 * list Quat) :
  length local.1 = num_envs self -> length local.2 = num_envs self ->
  length (body_pos_w (robot self)) = num_envs self ->
  length (body_quat_w (robot self)) = num_envs self ->
  Forall (fun row => hand_link_idx self < length row)%nat (body_pos_w (robot self)) ->
  Forall (fun row => hand_link_idx self < length row)%nat (body_quat_w (robot self)) ->
  length (env_origins (scene self)) = num_envs self ->
  tcp_ready (with_local_tcp local self) (seq 0 (num_envs self)).
Proof.
  intros. split; simpl; try done.
  apply Forall_forall. intros e He. apply elem_of_seq in He. lia.
Qed.

(** X19: from construction to the first step. While the wrist of every
    robot is where the stage had it when the local TCP was computed, the
    TCP the resolver returns is the midpoint of the two fingers, moved
    by the offset of 0.04 along the Y axis of the wrist and taken
    relative to the environment origin, with the orientation of the left
    finger. *)
Theorem tcp_after_construction_is_the_finger_midpoint
    (stage : Stage) (self : AssemblyKitEnv) :
  (0 < num_envs self)%nat ->
  length (env_origins (scene self)) = num_envs self ->
  length (body_pos_w (robot self)) = num_envs self ->
  length (body_quat_w (robot self)) = num_envs self ->
  (forall e, (e < num_envs self)%nat ->
     let wrist := stage (robot_prim_path e "panda_link7") in
     unit_quat wrist.2 /\
     (row ← body_pos_w (robot self) !! e; row !! hand_link_idx self) = Some wrist.1 /\
     (row ← body_quat_w (robot self) !! e; row !! hand_link_idx self) = Some wrist.2) ->
  exists (local : list Vec3 * list Quat) (p : list Vec3) (q : list Quat),
    @init_local_tcp isaac_frame_math isaac_frame_inverse stage self = Ok local /\
    @_compute_tcp_world isaac_frame_math (with_local_tcp local self) None = Ok (p, q) /\
    forall e o, (e < num_envs self)%nat -> env_origins (scene self) !! e = Some o ->
      let wrist := stage (robot_prim_path e "panda_link7") in
      let lfinger := stage (robot_prim_path e "panda_leftfinger") in
      let rfinger := stage (robot_prim_path e "panda_rightfinger") in
      let mid : Vec3 := ((vx lfinger.1 + vx rfinger.1) / 2,
                         (vy lfinger.1 + vy rfinger.1) / 2,
                         (vz lfinger.1 + vz rfinger.1) / 2) in
      p !! e = Some (vsub (vadd mid (quat_apply wrist.2 (0, 0.04, 0))) o) /\
      q !! e = Some lfinger.2.
Proof.
  intros Hn Horig Hbp Hbq Hwrist.
  destruct (@init_local_tcp_rows isaac_frame_math isaac_frame_inverse stage self)
    as (local & Hlocal & Hlp & Hlq & Hrows); [lia..|].
  assert (Hhand : forall {A} (t : list (list A)) (v : nat -> A),
            length t = num_envs self ->
            (forall e, (e < num_envs self)%nat ->
               (row ← t !! e; row !! hand_link_idx self) = Some (v e)) ->
            Forall (fun row => hand_link_idx self < length row)%nat t).
  { intros A t v Ht Hv. apply Forall_forall. intros row Hrow.
    apply list_elem_of_lookup in Hrow as [e He].
    specialize (Hv e). rewrite He in Hv. simpl in Hv.
    eapply lookup_lt_Some, Hv. apply lookup_lt_Some in He. lia. }
  pose proof (with_local_tcp_ready self local Hlp Hlq Hbp Hbq
                (Hhand _ _ _ Hbp (fun e He => proj1 (proj2 (Hwrist e He))))
                (Hhand _ _ _ Hbq (fun e He => proj2 (proj2 (Hwrist e He))))
                Horig) as Hready.
  destruct (@tcp_world_rows isaac_frame_math (with_local_tcp local self) None Hready)
    as (p & q & Hrun & _ & _ & Hp_rows).
  exists local, p, q. split; [exact Hlocal|]. split; [exact Hrun|].
  intros e o He Ho. cbv zeta.
  destruct (Hp_rows e e) as (hp & hq & lp & lq & o' & Hhp & Hhq & Hlp_e & Hlq_e & Ho' & -> & ->).
  { by apply lookup_seq_lt. }
  cbn [robot body_pos_w body_quat_w hand_link_idx robot_local_grasp_pos
       robot_local_grasp_rot scene with_local_tcp] in Hhp, Hhq, Hlp_e, Hlq_e, Ho'.
  destruct (Hwrist e He) as (Hunit & Hwp & Hwq).
  destruct (Hrows e o He Ho) as [Hl1 Hl2]. cbv zeta in Hl1, Hl2.
  rewrite isaac_local_tcp in Hl1, Hl2. cbn [fst snd] in Hl1, Hl2.
  unfold y_offset_default in Hl1.
  assert (o' = o) as -> by congruence.
  assert (hp = (stage (robot_prim_path e "panda_link7")).1) as -> by congruence.
  assert (hq = (stage (robot_prim_path e "panda_link7")).2) as -> by congruence.
  rewrite Hl1 in Hlp_e. rewrite Hl2 in Hlq_e.
  injection Hlp_e as <-. injection Hlq_e as <-.
  rewrite isaac_wrist_round_trip by done.
  split; reflexivity.
Qed.

(** ** Scene setup *)

Lemma outcome_map_Forall2 {A B} (f : A -> outcome B) (l : list A) (l' : list B) :
  outcome_map f l = Returns l' <-> Forall2 (fun x y => f x = Returns y) l l'.
Proof.
  revert l'. induction l as [|x l IH]; intros l'; simpl.
  - split.
    + intros [= <-]. constructor.
    + intros Hl. inversion Hl. reflexivity.
  - destruct (f x) as [y|e] eqn:Hfx.
    + destruct (outcome_map f l) as [ys|e] eqn:Hm.
      * split.
        -- intros [= <-]. constructor; [exact Hfx | by apply IH].
        -- intros Hl. inversion Hl as [|? z ? zs Hz Hzs]; subst.
           apply IH in Hzs. congruence.
      * split; [discriminate|].
        intros Hl. inversion Hl as [|? z ? zs Hz Hzs]; subst.
        apply IH in Hzs. discriminate.
    + split; [discriminate|].
      intros Hl. inversion Hl as [|? z ? zs Hz Hzs]; subst. congruence.
Qed.

Lemma outcome_map_total {A B} (f : A -> outcome B) (g : A -> B) (l : list A) :
  Forall (fun x => f x = Returns (g x)) l -> outcome_map f l = Returns (g <$> l).
Proof.
  intros Hl. apply outcome_map_Forall2.
  apply Forall2_fmap_r, Forall_Forall2_diag. exact Hl.
Qed.

Lemma outcome_map_raises {A B} (f : A -> outcome B) (l : list A) (e : py_exn) :
  l <> [] -> Forall (fun x => f x = Raises e) l -> outcome_map f l = Raises e.
Proof.
  intros Hne Hl. destruct Hl as [|x l Hx _]; [done|]. simpl. by rewrite Hx.
Qed.

(** The lookup table, row by row. *)
Lemma assets_info_rows (self : AssemblyKitEnv)
    (kit_usd_paths : list string) (kit_model_ids : list (list nat)) :
  kit_usd_paths <> [] ->
  (forall e, (e < num_envs self)%nat ->
     (e mod length kit_usd_paths < length kit_model_ids)%nat) ->
  _get_assets_info_per_env self kit_usd_paths kit_model_ids
  = Returns ((fun e => {| kit_id := e mod length kit_usd_paths;
                          model_ids := default [] (kit_model_ids
                                                     !! (e mod length kit_usd_paths)%nat) |})
               <$> seq 0 (num_envs self)).
Proof.
  intros Hkits Hids.
  assert (Hk : (0 < length kit_usd_paths)%nat) by (destruct kit_usd_paths; simpl; [done|lia]).
  set (k := length kit_usd_paths) in *.
  unfold _get_assets_info_per_env. fold k. apply outcome_map_total.
  apply Forall_forall. intros e He. apply elem_of_seq in He. unfold py_mod.
  destruct (Nat.eqb_spec k 0) as [|_]; [lia|]. cbn [outcome_bind].
  destruct (lookup_lt_is_Some_2 kit_model_ids (e mod k)) as [ids Hids_e].
  { apply Hids. lia. }
  unfold at_index. rewrite Hids_e. reflexivity.
Qed.

(** X20: every environment is given a kit, in turn: environment [e] the
    kit [e mod num_kits], with the object ids of that kit. *)
Theorem assets_info_assigns_kits_in_turn (self : AssemblyKitEnv)
    (kit_usd_paths : list string) (kit_model_ids : list (list nat)) :
  kit_usd_paths <> [] ->
  (length kit_usd_paths <= length kit_model_ids)%nat ->
  exists infos : list AssetsInfo,
    _get_assets_info_per_env self kit_usd_paths kit_model_ids = Returns infos /\
    length infos = num_envs self /\
    forall e, (e < num_envs self)%nat ->
      exists info,
        infos !! e = Some info /\
        kit_id info = (e mod length kit_usd_paths)%nat /\
        (kit_id info < length kit_usd_paths)%nat /\
        kit_model_ids !! kit_id info = Some (model_ids info).
Proof.
  intros Hkits Hids.
  assert (Hk : (0 < length kit_usd_paths)%nat) by (destruct kit_usd_paths; simpl; [done|lia]).
  assert (Hmod : forall e, (e mod length kit_usd_paths < length kit_usd_paths)%nat)
    by (intros e; apply Nat.mod_upper_bound; lia).
  eexists. split; [apply assets_info_rows; [done|]; intros e _; specialize (Hmod e); lia|].
  split; [by rewrite length_fmap, length_seq|].
  intros e He. eexists.
  split; [by rewrite list_lookup_fmap, lookup_seq_lt|].
  split; [reflexivity|]. split; [exact (Hmod e)|]. simpl.
  destruct (lookup_lt_is_Some_2 kit_model_ids (e mod length kit_usd_paths))
    as [ids ->]; [specialize (Hmod e); lia|]. reflexivity.
Qed.

(** With fewer lists of object ids than kits, an environment whose kit has
    none makes the lookup table raise [IndexError]. *)
Lemma assets_info_index_error (self : AssemblyKitEnv)
    (kit_usd_paths : list string) (kit_model_ids : list (list nat)) :
  (length kit_model_ids < length kit_usd_paths)%nat ->
  (length kit_model_ids < num_envs self)%nat ->
  _get_assets_info_per_env self kit_usd_paths kit_model_ids
  = Raises (Exn IndexError).
Proof.
  intros Hids Henvs. unfold _get_assets_info_per_env.
  set (k := length kit_usd_paths) in *. set (m := length kit_model_ids) in *.
  set (f := fun env_id => outcome_bind (py_mod env_id k) _).
  assert (Hf_ok : forall e, (e < m)%nat -> exists info, f e = Returns info).
  { intros e He. unfold f, py_mod. destruct (Nat.eqb_spec k 0) as [|_]; [lia|].
    cbn [outcome_bind]. rewrite Nat.mod_small by lia.
    destruct (lookup_lt_is_Some_2 kit_model_ids e He) as [ids Hids_e].
    unfold at_index. rewrite Hids_e. by eexists. }
  assert (Hf_m : f m = Raises (Exn IndexError)).
  { unfold f, py_mod. destruct (Nat.eqb_spec k 0) as [|_]; [lia|].
    cbn [outcome_bind]. rewrite Nat.mod_small by lia.
    unfold at_index. by rewrite lookup_ge_None_2. }
  assert (Hprefix : forall n a l, (a + n = m)%nat ->
            outcome_map f (seq a n ++ m :: l) = Raises (Exn IndexError)).
  { induction n as [|n IH]; intros a l Ha; simpl.
    - by rewrite Hf_m.
    - destruct (Hf_ok a) as [info ->]; [lia|]. rewrite IH by lia. reflexivity. }
  replace (num_envs self) with (m + S (num_envs self - S m))%nat by lia.
  rewrite seq_app. cbn [seq]. apply Hprefix. lia.
Qed.

(** X21: when the lookup table raises. [_get_assets_info_per_env]
    returns one entry per environment unless there are environments and
    either no kit, which is a division by zero, or a kit in use without
    a list of object ids, which is an index out of range. *)
Theorem assets_info_raises_exactly (self : AssemblyKitEnv)
    (kit_usd_paths : list string) (kit_model_ids : list (list nat)) :
  match _get_assets_info_per_env self kit_usd_paths kit_model_ids with
  | Returns infos =>
      length infos = num_envs self /\
      (num_envs self = 0%nat \/
       (0 < length kit_usd_paths)%nat /\
       (Nat.min (num_envs self) (length kit_usd_paths) <= length kit_model_ids)%nat)
  | Raises e =>
      (0 < num_envs self)%nat /\
      (length kit_usd_paths = 0%nat /\ e = ZeroDivisionError \/
       (0 < length kit_usd_paths)%nat /\
       (length kit_model_ids < Nat.min (num_envs self) (length kit_usd_paths))%nat /\
       e = Exn IndexError)
  end.
Proof.
  destruct (num_envs self) as [|n] eqn:Hn.
  { unfold _get_assets_info_per_env. rewrite Hn. simpl. auto. }
  destruct kit_usd_paths as [|p ps] eqn:Hpaths.
  { unfold _get_assets_info_per_env. rewrite Hn. simpl. split; [lia|auto]. }
  rewrite <- Hpaths, <- Hn.
  assert (Hk : (0 < length kit_usd_paths)%nat) by (rewrite Hpaths; simpl; lia).
  destruct (le_lt_dec (Nat.min (num_envs self) (length kit_usd_paths))
                      (length kit_model_ids)) as [Hle|Hlt].
  - rewrite assets_info_rows.
    + rewrite length_fmap, length_seq. auto.
    + by rewrite Hpaths.
    + intros e He. pose proof (Nat.mod_upper_bound e (length kit_usd_paths)).
      pose proof (Nat.Div0.mod_le e (length kit_usd_paths)). lia.
  - rewrite assets_info_index_error by lia.
    split; [lia|]. right. auto.
Qed.

Lemma elem_of_concat {A} (x : A) (ls : list (list A)) :
  x ∈ concat ls <-> exists l, x ∈ l /\ l ∈ ls.
Proof.
  induction ls as [|a ls IH]; simpl.
  - split; [intros Hx; by apply elem_of_nil in Hx|].
    intros (l & _ & Hl). by apply elem_of_nil in Hl.
  - rewrite elem_of_app, IH. split.
    + intros [Hx|(l & Hx & Hl)].
      * exists a. split; [done|apply list_elem_of_here].
      * exists l. split; [done|by apply list_elem_of_further].
    + intros (l & Hx & Hl). apply elem_of_cons in Hl as [->|Hl]; [by left|].
      right. by exists l.
Qed.

Lemma tensor_uniform {A} (rows : list (list A)) (K : nat) :
  Forall (fun r => length r = K) rows -> tensor rows = Returns rows.
Proof.
  intros Hrows. destruct rows as [|row rest]; [reflexivity|]. simpl.
  inversion Hrows as [|? ? Hrow Hrest]; subst.
  rewrite (proj2 (forallb_forall _ _)); [reflexivity|].
  intros r Hr. apply Nat.eqb_eq. rewrite Forall_forall in Hrest.
  apply Hrest. by apply list_elem_of_In.
Qed.

Lemma tensor_ragged {A} (rows : list (list A)) (r1 r2 : list A) :
  r1 ∈ rows -> r2 ∈ rows -> length r1 <> length r2 -> tensor rows = Raises ValueError.
Proof.
  intros H1 H2 Hne. destruct rows as [|row rest]; [by apply elem_of_nil in H1|].
  simpl. destruct (forallb _ rest) eqn:Hall; [|reflexivity].
  rewrite forallb_forall in Hall.
  assert (Hlen : forall r, r ∈ row :: rest -> length r = length row).
  { intros r Hr. apply elem_of_cons in Hr as [->|Hr]; [done|].
    apply Nat.eqb_eq, Hall. by apply list_elem_of_In. }
  rewrite (Hlen r1 H1), (Hlen r2 H2) in Hne. done.
Qed.

Lemma foldl_max_bound (xs : list nat) (x : nat) :
  (x <= foldl Nat.max x xs)%nat /\
  Forall (fun y => y <= foldl Nat.max x xs)%nat xs /\
  foldl Nat.max x xs ∈ x :: xs.
Proof.
  revert x. induction xs as [|y xs IH]; intros x; simpl.
  - split; [lia|]. split; [constructor|apply list_elem_of_here].
  - destruct (IH (Nat.max x y)) as (Hx & Hxs & Hin).
    split; [lia|]. split; [constructor; [lia|exact Hxs]|].
    apply elem_of_cons in Hin as [Hin|Hin].
    + rewrite Hin. destruct (Nat.max_spec x y) as [[_ ->]|[_ ->]].
      * apply list_elem_of_further, list_elem_of_here.
      * apply list_elem_of_here.
    + by do 2 apply list_elem_of_further.
Qed.

Lemma tensor_max_bound (t : list (list nat)) :
  concat t <> [] ->
  exists largest, tensor_max t = Returns largest /\
    largest ∈ concat t /\ Forall (fun y => y <= largest)%nat (concat t).
Proof.
  intros Hne. unfold tensor_max. destruct (concat t) as [|x xs]; [done|].
  destruct (foldl_max_bound xs x) as (Hx & Hxs & Hin).
  eexists. split; [reflexivity|]. split; [exact Hin|]. by constructor.
Qed.

(** X22: [_init_model_sampling] leaves a target column with one entry
    per environment and, for the others, one column less than there are
    slots; [num_shape_types] is the largest shape id of the lookup table
    plus one, so that every id of the table is smaller. Nothing else of
    [self] changes. *)
Theorem init_model_sampling_counts_the_shape_types (self : AssemblyKitEnv)
    (mem : Uninitialised) (K : nat) :
  env_assets_info self <> [] ->
  Forall (fun row => length row = K) (env_assets_info self) ->
  (0 < K)%nat ->
  exists (current_target : list nat) (ms : ModelSampling),
    _init_model_sampling self mem
    = Returns (set__current_target current_target self, ms) /\
    length current_target = length (env_assets_info self) /\
    model_ids_matrix_per_env ms = env_assets_info self /\
    length (_current_others ms) = length (env_assets_info self) /\
    Forall (fun row => length row = (K - 1)%nat) (_current_others ms) /\
    Forall (Forall (fun id => id < num_shape_types ms)%nat) (env_assets_info self) /\
    exists row id, row ∈ env_assets_info self /\ id ∈ row /\
                   num_shape_types ms = S id.
Proof.
  intros Hne Hrows HK.
  assert (Hconcat : concat (env_assets_info self) <> []).
  { destruct (env_assets_info self) as [|row rest]; [done|].
    inversion Hrows; subst. destruct row; simpl in *; [lia|done]. }
  destruct (tensor_max_bound _ Hconcat) as (largest & Hmax & Hin & Hall).
  unfold _init_model_sampling. rewrite (tensor_uniform _ K Hrows).
  cbn [outcome_bind]. rewrite Hmax. cbn [outcome_bind].
  rewrite (shape1_ok _ K) by done. cbn [of_res outcome_bind].
  eexists _, _. split; [reflexivity|]. cbn [model_ids_matrix_per_env
    _current_others num_shape_types].
  split; [by rewrite length_fmap, length_seq|]. split; [reflexivity|].
  split; [by rewrite length_fmap, length_seq|]. split.
  { apply Forall_fmap, Forall_forall. intros e _. simpl.
    by rewrite length_fmap, length_seq. }
  split.
  - apply Forall_forall. intros row Hrow. apply Forall_forall. intros id Hid.
    rewrite Forall_forall in Hall.
    assert (id ∈ concat (env_assets_info self)).
    { apply elem_of_concat. by exists row. }
    specialize (Hall id H). lia.
  - apply elem_of_concat in Hin as (row & Hid & Hrow).
    exists row, largest. split; [exact Hrow|]. split; [exact Hid|]. lia.
Qed.

(** X23: when [_init_model_sampling] raises: with [ValueError] for a
    lookup table whose rows differ in length, which is no matrix, and
    with [RuntimeError] for one without any shape id, which has no
    largest; otherwise it returns. *)
Theorem init_model_sampling_needs_a_matrix (self : AssemblyKitEnv)
    (mem : Uninitialised) :
  match _init_model_sampling self mem with
  | Returns _ =>
      concat (env_assets_info self) <> [] /\
      exists K, Forall (fun row => length row = K) (env_assets_info self)
  | Raises e =>
      e = ValueError /\
      (exists r1 r2, r1 ∈ env_assets_info self /\ r2 ∈ env_assets_info self /\
                     length r1 <> length r2) \/
      e = Exn RuntimeError /\ concat (env_assets_info self) = []
  end.
Proof.
  unfold _init_model_sampling.
  destruct (env_assets_info self) as [|row rest] eqn:Hrows; [simpl; auto|].
  rewrite <- Hrows.
  destruct (Forall_Exists_dec (fun r : list nat => length r = length row)
              (fun r => length r <> length row)
              (fun r => Nat.eq_dec (length r) (length row)) (env_assets_info self))
    as [Huniform|Hragged].
  - rewrite (tensor_uniform _ (length row) Huniform). cbn [outcome_bind].
    unfold tensor_max.
    destruct (concat (env_assets_info self)) as [|x xs] eqn:Hconcat;
      cbn [outcome_bind]; [auto|].
    rewrite (shape1_ok _ (length row)); [|by rewrite Hrows|done].
    cbn [of_res outcome_bind]. split; [done|]. by exists (length row).
  - apply Exists_exists in Hragged as (r & Hr & Hne).
    rewrite (tensor_ragged _ r row); [|done|rewrite Hrows; apply list_elem_of_here|done].
    cbn [outcome_bind]. left. split; [reflexivity|].
    exists r, row. split; [done|]. split; [rewrite Hrows; apply list_elem_of_here|done].
Qed.

(** X24: the colour of a model is an entry of the palette, whatever is
    drawn; an empty palette makes [_get_model_cfg] raise [ValueError]. *)
Theorem model_colour_is_from_the_palette (color : list (R * R * R * R))
    (raw : nat) (model_paths : list string) (model_idx : nat) :
  match _get_model_cfg color raw model_paths model_idx with
  | Returns model_cfg =>
      exists r g b a,
        color !! (raw mod length color)%nat = Some (r, g, b, a) /\
        diffuse_color (visual_material (spawn model_cfg)) = (r, g, b) /\
        opacity (visual_material (spawn model_cfg)) = a /\
        usd_path (spawn model_cfg) = model_paths /\
        kinematic_enabled (rigid_props (spawn model_cfg)) = false /\
        prim_path model_cfg = "/World/envs/env_.*/Model_" +:+ pretty model_idx
  | Raises e => color = [] /\ e = ValueError
  end.
Proof.
  unfold _get_model_cfg, py_randint.
  destruct color as [|c color].
  - simpl. done.
  - destruct (Z.ltb_spec (Z.of_nat (length (c :: color)) - 1) 0) as [Hlt|_].
    { simpl length in Hlt. lia. }
    cbn [outcome_bind]. unfold py_index, at_index.
    replace (0 + Z.of_nat raw mod (Z.of_nat (length (c :: color)) - 1 - 0 + 1))%Z
      with (Z.of_nat (raw mod length (c :: color))).
    2:{ rewrite Nat2Z.inj_mod, Z.add_0_l. f_equal. lia. }
    rewrite Nat2Z.id.
    destruct (lookup_lt_is_Some_2 (c :: color) (raw mod length (c :: color)))
      as [[[[r g] b] a] Hrgba].
    { apply Nat.mod_upper_bound. simpl. lia. }
    rewrite Hrgba. cbn [of_res of_option outcome_bind].
    exists r, g, b, a. repeat split; reflexivity.
Qed.

(** *** From the kit files to the catalogue *)

Lemma foldr_min_uniform (K : nat) (ls : list nat) :
  Forall (fun n => n = K) ls -> foldr Nat.min K ls = K.
Proof. induction 1 as [|n ls -> _ IH]; simpl; [done|]. rewrite IH. lia. Qed.

Lemma zip_star_uniform {A} (rows : list (list A)) (K : nat) :
  rows <> [] -> Forall (fun r => length r = K) rows ->
  zip_star rows = (fun j => omap (fun r : list A => r !! j) rows) <$> seq 0 K.
Proof.
  intros Hne Hrows. destruct rows as [|row rest]; [done|].
  inversion Hrows as [|? ? Hrow Hrest]; subst. unfold zip_star.
  rewrite foldr_min_uniform; [reflexivity|]. by apply Forall_fmap.
Qed.

Lemma model_cfg_returns (color : list (R * R * R * R)) (raw : nat)
    (model_paths : list string) (model_idx : nat) :
  color <> [] ->
  exists model_cfg,
    _get_model_cfg color raw model_paths model_idx = Returns model_cfg /\
    usd_path (spawn model_cfg) = model_paths.
Proof.
  intros Hcolor. unfold _get_model_cfg, py_randint.
  destruct (Z.ltb_spec (Z.of_nat (length color) - 1) 0) as [Hlt|_].
  { destruct color; simpl in *; [done|lia]. }
  cbn [outcome_bind]. unfold py_index, at_index.
  destruct (lookup_lt_is_Some_2 color
              (Z.to_nat (0 + Z.of_nat raw mod (Z.of_nat (length color) - 1 - 0 + 1))))
    as [[[[r g] b] a] Hrgba].
  { assert (0 < Z.of_nat (length color))%Z by (destruct color; simpl in *; [done|lia]).
    pose proof (Z.mod_pos_bound (Z.of_nat raw) (Z.of_nat (length color) - 1 - 0 + 1)).
    lia. }
  rewrite Hrgba. cbn [of_res of_option outcome_bind]. by eexists.
Qed.

Lemma omap_lookup_fmap {A B} (f : A -> list B) (j : nat) (l : list A) :
  omap (fun r : list B => r !! j) (f <$> l) = omap (fun a => f a !! j) l.
Proof.
  induction l as [|a l IH]; [reflexivity|]. rewrite fmap_cons. cbn [omap list_omap].
  fold (omap (fun r : list B => r !! j) (f <$> l)).
  fold (omap (fun a => f a !! j) l). by rewrite IH.
Qed.

(** What [_setup_scene] leaves of sources which fit together. *)
Lemma setup_scene_rows (self : AssemblyKitEnv) (src : SceneSources)
    (K n_starts : nat) :
  sources_ready self src K n_starts ->
  exists (self' : AssemblyKitEnv) (ms : ModelSampling),
    _setup_scene self src = Returns (self', ms) /\
    catalogue_ready self' K n_starts /\
    length (_current_target self') = num_envs self /\
    num_envs self' = num_envs self /\ scene self' = scene self /\
    symmetry self' = symmetry self /\ robot self' = robot self /\
    robot_local_grasp_pos self' = robot_local_grasp_pos self /\
    robot_local_grasp_rot self' = robot_local_grasp_rot self /\
    hand_link_idx self' = hand_link_idx self /\
    kit_target_starting_pos self' = start_pos_proposal <$> kit_jsons src /\
    model_target_pos self' = (fun kit_json => pos <$> objects kit_json) <$> kit_jsons src /\
    model_target_rot self' = (fun kit_json => rot <$> objects kit_json) <$> kit_jsons src /\
    kit_ids_per_env self'
    = (fun e => e mod length (kit_jsons src))%nat <$> seq 0 (num_envs self) /\
    (forall e kit_json, (e < num_envs self)%nat ->
       kit_jsons src !! (e mod length (kit_jsons src))%nat = Some kit_json ->
       env_assets_info self' !! e = Some (object_id <$> objects kit_json)) /\
    (forall j, (j < K)%nat ->
       exists model_cfg,
         models self' !! j = Some (make_rigid_object src model_cfg) /\
         usd_path (spawn model_cfg)
         = model_usd_path
             <$> omap (fun kit_json => (object_id <$> objects kit_json) !! j)
                      (kit_jsons src)) /\
    Forall (Forall (fun id => id < num_shape_types ms)%nat) (env_assets_info self').
Proof.
  intros [Henvs Horigins Hkits Hpaths Hobjects HK Hstarts Hstart_rows Hcolor
          Hdefault Hstate].
  set (ids := (fun kit_json => object_id <$> objects kit_json) <$> kit_jsons src).
  assert (Hids_shape : Forall (fun r => length r = K) ids).
  { apply Forall_fmap. eapply Forall_impl; [exact Hobjects|].
    intros kj Hkj. simpl. by rewrite length_fmap. }
  assert (Hids_ne : ids <> []).
  { unfold ids. intros Hnil. apply fmap_nil_inv in Hnil. done. }
  (* the models *)
  set (paths := (fun group : list nat => model_usd_path <$> group) <$> zip_star ids).
  assert (Hpaths_len : length paths = K).
  { unfold paths. rewrite (zip_star_uniform ids K) by done.
    by rewrite !length_fmap, length_seq. }
  set (make := fun ip : nat * list string =>
                 outcome_bind
                   (_get_model_cfg (color src) (random_raw src ip.1) ip.2 ip.1)
                   (fun model_cfg => Returns (make_rigid_object src model_cfg))).
  assert (Hmodels : exists ms,
            outcome_map make (zip (seq 0 (length paths)) paths) = Returns ms /\
            Forall2 (fun ip mo => make ip = Returns mo)
                    (zip (seq 0 (length paths)) paths) ms).
  { assert (Hall : Forall (fun ip => exists mo, make ip = Returns mo)
                          (zip (seq 0 (length paths)) paths)).
    { apply Forall_forall. intros [i p] _. unfold make. cbn [fst snd].
      destruct (model_cfg_returns (color src) (random_raw src i) p i Hcolor)
        as (c & -> & _). by eexists. }
    induction Hall as [|ip l [mo Hmo] _ (ms & Hms & Hrows)].
    - exists []. split; [reflexivity|constructor].
    - exists (mo :: ms). simpl. rewrite Hmo, Hms. split; [reflexivity|].
      by constructor. }
  destruct Hmodels as (mos & Hmos & Hmos_rows).
  assert (Hmos_len : length mos = K).
  { apply Forall2_length in Hmos_rows.
    rewrite length_zip_with, length_seq in Hmos_rows. lia. }
  assert (Hmade : forall mo, mo ∈ mos -> exists c, mo = make_rigid_object src c).
  { intros mo Hmo. apply list_elem_of_lookup in Hmo as [j Hj].
    destruct (Forall2_lookup_r _ _ _ _ _ Hmos_rows Hj) as ([i p] & _ & Hip).
    unfold make in Hip. cbn [fst snd] in Hip.
    destruct (_get_model_cfg _ _ _ _) as [c|]; [|done].
    injection Hip as <-. by exists c. }
  (* the lookup table *)
  assert (Hpaths_ne : kit_usd_paths src <> []).
  { intros Hnil. rewrite Hnil in Hpaths. by destruct (kit_jsons src). }
  assert (Hinfos : _get_assets_info_per_env self (kit_usd_paths src) ids
                   = Returns ((fun e => {| kit_id := e mod length (kit_jsons src);
                                           model_ids := default [] (ids
                                             !! (e mod length (kit_jsons src))%nat) |})
                                <$> seq 0 (num_envs self))).
  { rewrite <- Hpaths. apply assets_info_rows; [done|].
    intros e _. unfold ids. rewrite length_fmap, <- Hpaths.
    apply Nat.mod_upper_bound. by destruct (kit_usd_paths src). }
  set (table := (fun e => default [] (ids !! (e mod length (kit_jsons src))%nat))
                  <$> seq 0 (num_envs self)).
  assert (Hklen : (0 < length (kit_jsons src))%nat)
    by (destruct (kit_jsons src); simpl; [done|lia]).
  assert (Htable_row : forall e, (e < num_envs self)%nat ->
            exists kj, kit_jsons src !! (e mod length (kit_jsons src))%nat = Some kj /\
                       table !! e = Some (object_id <$> objects kj)).
  { intros e He.
    destruct (lookup_lt_is_Some_2 (kit_jsons src) (e mod length (kit_jsons src)))
      as [kj Hkj]; [by apply Nat.mod_upper_bound; lia|].
    exists kj. split; [exact Hkj|]. unfold table, ids.
    rewrite list_lookup_fmap, lookup_seq_lt by done. simpl.
    by rewrite list_lookup_fmap, Hkj. }
  assert (Htable_shape : Forall (fun row => length row = K) table).
  { apply Forall_forall. intros row Hrow.
    apply list_elem_of_lookup in Hrow as [e He].
    assert (e < num_envs self)%nat.
    { apply lookup_lt_Some in He. unfold table in He.
      by rewrite length_fmap, length_seq in He. }
    destruct (Htable_row e) as (kj & Hkj & Hrow); [done|].
    assert (row = object_id <$> objects kj) as -> by congruence.
    rewrite length_fmap. rewrite Forall_forall in Hobjects.
    apply Hobjects. by eapply list_elem_of_lookup_2. }
  assert (Htable_ne : table <> []).
  { unfold table. intros Hnil. apply fmap_nil_inv in Hnil.
    destruct (num_envs self); [lia|done]. }
  assert (Hconcat : concat table <> []).
  { destruct table as [|row rest]; [done|].
    inversion Htable_shape; subst. destruct row; simpl in *; [lia|done]. }
  destruct (tensor_max_bound _ Hconcat) as (largest & Hmax & _ & Hall).
  (* the run *)
  unfold _setup_scene. cbv zeta.
  rewrite (tensor_uniform _ n_starts) by (by apply Forall_fmap).
  cbn [outcome_bind].
  rewrite (tensor_uniform _ K).
  2:{ apply Forall_fmap. eapply Forall_impl; [exact Hobjects|].
      intros kj Hkj. simpl. by rewrite length_fmap. }
  cbn [outcome_bind].
  rewrite (tensor_uniform _ K).
  2:{ apply Forall_fmap. eapply Forall_impl; [exact Hobjects|].
      intros kj Hkj. simpl. by rewrite length_fmap. }
  cbn [outcome_bind]. fold ids. fold paths. fold make.
  rewrite Hmos. cbn [outcome_bind]. rewrite Hinfos. cbn [outcome_bind].
  unfold _init_model_sampling. cbn [env_assets_info].
  rewrite <- list_fmap_compose.
  change (model_ids ∘ _) with
    (fun e => default [] (ids !! (e mod length (kit_jsons src))%nat)).
  fold table.
  rewrite (tensor_uniform _ K Htable_shape). cbn [outcome_bind].
  rewrite Hmax. cbn [outcome_bind].
  rewrite (shape1_ok _ K) by done. cbn [of_res outcome_bind].
  eexists _, _. split; [reflexivity|].
  cbn [set__current_target num_envs scene symmetry robot robot_local_grasp_pos
       robot_local_grasp_rot hand_link_idx kit_target_starting_pos model_target_pos
       model_target_rot kit_ids_per_env env_assets_info models _current_target
       num_shape_types cfg kit].
  assert (Htable_len : length table = num_envs self)
    by (unfold table; by rewrite length_fmap, length_seq).
  split.
  { split; cbn [set__current_target num_envs scene kit_target_starting_pos
                model_target_pos model_target_rot kit_ids_per_env env_assets_info
                models kit].
    - intros Hnil. apply fmap_nil_inv in Hnil. done.
    - apply Forall_fmap. eapply Forall_impl; [exact Hobjects|].
      intros kj Hkj. simpl. by rewrite length_fmap.
    - by rewrite !length_fmap.
    - apply Forall_fmap. eapply Forall_impl; [exact Hobjects|].
      intros kj Hkj. simpl. by rewrite length_fmap.
    - by rewrite !length_fmap.
    - exact Hstart_rows.
    - by apply Forall_fmap.
    - unfold arange_mod. by rewrite length_fmap, length_seq.
    - unfold arange_mod. apply Forall_fmap, Forall_forall. intros e _. simpl.
      rewrite length_fmap, Hpaths. apply Nat.mod_upper_bound. lia.
    - apply Hdefault.
    - exact Horigins.
    - exact Htable_len.
    - exact Htable_shape.
    - exact Hmos_len.
    - apply Forall_forall. intros mo Hmo. destruct (Hmade mo Hmo) as [c ->].
      apply Hdefault.
    - apply Forall_forall. intros mo Hmo. destruct (Hmade mo Hmo) as [c ->].
      apply Hstate. }
  split; [by rewrite length_fmap, length_seq|].
  do 10 (split; [reflexivity|]).
  split; [unfold arange_mod; by rewrite Hpaths|].
  split.
  { intros e kj He Hkj. destruct (Htable_row e He) as (kj' & Hkj' & Hrow).
    congruence. }
  split.
  { intros j Hj.
    destruct (lookup_lt_is_Some_2 mos j) as [mo Hmo]; [lia|].
    destruct (Forall2_lookup_r _ _ _ _ _ Hmos_rows Hmo) as ([i p] & Hip & Hmake).
    rewrite lookup_zip_with in Hip.
    destruct (seq 0 (length paths) !! j) as [i'|] eqn:Hi; [|done]. simpl in Hip.
    destruct (paths !! j) as [p'|] eqn:Hp; [|done]. injection Hip as -> ->.
    unfold make in Hmake. cbn [fst snd] in Hmake.
    destruct (model_cfg_returns (color src) (random_raw src i) p i Hcolor)
      as (c & Hc & Hc_paths).
    rewrite Hc in Hmake. injection Hmake as <-.
    exists c. split; [exact Hmo|]. rewrite Hc_paths.
    unfold paths in Hp. rewrite (zip_star_uniform ids K) in Hp by done.
    rewrite !list_lookup_fmap, lookup_seq_lt in Hp by done.
    injection Hp as <-. simpl. unfold ids. by rewrite omap_lookup_fmap. }
  apply Forall_forall. intros row Hrow. apply Forall_forall. intros id Hid.
  rewrite Forall_forall in Hall.
  assert (Hin : id ∈ concat table) by (apply elem_of_concat; by exists row).
  specialize (Hall id Hin). lia.
Qed.

Lemma omap_lookup_total {A B} (f : A -> list B) (j : nat) (d : B) (l : list A) :
  Forall (fun a => j < length (f a))%nat l ->
  omap (fun a => f a !! j) l = (fun a => default d (f a !! j)) <$> l.
Proof.
  induction 1 as [|a l Ha _ IH]; [reflexivity|].
  cbn [omap list_omap fmap list_fmap].
  destruct (lookup_lt_is_Some_2 (f a) j Ha) as [b Hb].
  rewrite Hb. simpl. f_equal. exact IH.
Qed.

(** X25: sources which fit together are set up into a catalogue the
    sampler accepts: environment [e] has the kit [e mod num_kits], the
    goal rows, the starting positions and the shape ids of that kit
    file, and an allocated target slot. *)
Theorem setup_readies_the_catalogue (self : AssemblyKitEnv) (src : SceneSources)
    (K n_starts : nat) :
  sources_ready self src K n_starts ->
  exists (self' : AssemblyKitEnv) (ms : ModelSampling),
    _setup_scene self src = Returns (self', ms) /\
    catalogue_ready self' K n_starts /\
    length (_current_target self') = num_envs self /\
    forall e kit_json, (e < num_envs self)%nat ->
      kit_jsons src !! (e mod length (kit_jsons src))%nat = Some kit_json ->
      kit_ids_per_env self' !! e = Some (e mod length (kit_jsons src))%nat /\
      env_assets_info self' !! e = Some (object_id <$> objects kit_json) /\
      forall slot, kit_goal_pos self' e slot = pos <$> objects kit_json !! slot /\
                   kit_goal_rot self' e slot = rot <$> objects kit_json !! slot.
Proof.
  intros Hsrc.
  destruct (setup_scene_rows self src K n_starts Hsrc)
    as (self' & ms & Hrun & Hcat & Hct & _ & _ & _ & _ & _ & _ & _ & _ & Hpos & Hrot
        & Hkit_ids & Hassets & _).
  exists self', ms. split; [exact Hrun|]. split; [exact Hcat|]. split; [exact Hct|].
  intros e kj He Hkj.
  assert (Hid : kit_ids_per_env self' !! e = Some (e mod length (kit_jsons src))%nat).
  { by rewrite Hkit_ids, list_lookup_fmap, lookup_seq_lt. }
  split; [exact Hid|]. split; [by apply Hassets|].
  intros slot. unfold kit_goal_pos, kit_goal_rot. rewrite Hid, Hpos, Hrot.
  cbn [mbind option_bind]. rewrite !list_lookup_fmap, Hkj. cbn [fmap option_fmap option_map mbind option_bind].
  by rewrite !list_lookup_fmap.
Qed.

(** X26: the object of slot [j] is made of one model file per kit: that
    of the [j]-th object of every kit file, in the order of the kits;
    the file of the model with id 7 is [models/model_07/model_07.usda]. *)
Theorem setup_groups_the_models_by_slot (self : AssemblyKitEnv) (src : SceneSources)
    (K n_starts j : nat) :
  sources_ready self src K n_starts -> (j < K)%nat ->
  exists (self' : AssemblyKitEnv) (ms : ModelSampling) (model_cfg : RigidObjectCfg),
    _setup_scene self src = Returns (self', ms) /\
    length (models self') = K /\
    models self' !! j = Some (make_rigid_object src model_cfg) /\
    length (usd_path (spawn model_cfg)) = length (kit_jsons src) /\
    (forall k kit_json o,
       kit_jsons src !! k = Some kit_json -> objects kit_json !! j = Some o ->
       usd_path (spawn model_cfg) !! k = Some (model_usd_path (object_id o))) /\
    model_usd_path 7
    = "/home/johann/Downloads/assembly_kit_noremesh/models/model_07/model_07.usda".
Proof.
  intros Hsrc Hj.
  destruct (setup_scene_rows self src K n_starts Hsrc)
    as (self' & ms & Hrun & Hcat & _ & _ & _ & _ & _ & _ & _ & _ & _ & _ & _ & _ & _
        & Hmodels & _).
  destruct (Hmodels j Hj) as (c & Hc & Hpaths).
  exists self', ms, c. split; [exact Hrun|]. split; [by destruct Hcat|].
  split; [exact Hc|].
  destruct Hsrc as [_ _ _ _ Hobjects _ _ _ _ _ _].
  assert (Homap := omap_lookup_total (fun kit_json => object_id <$> objects kit_json)
                    j 0%nat (kit_jsons src)).
  rewrite Homap in Hpaths.
  2:{ eapply Forall_impl; [exact Hobjects|]. intros kj Hkj. simpl in *.
      rewrite length_fmap. lia. }
  rewrite Hpaths. split; [by rewrite !length_fmap|].
  split; [|reflexivity].
  intros k kj o Hkj Ho.
  rewrite !list_lookup_fmap, Hkj. simpl. by rewrite list_lookup_fmap, Ho.
Qed.

(** X27: kit files which do not have the same number of objects cannot
    be set up: the goal rows are no tensor, and [_setup_scene] raises
    [ValueError]. *)
Theorem setup_rejects_kits_of_unequal_size (self : AssemblyKitEnv)
    (src : SceneSources) (kit1 kit2 : KitJson) :
  kit1 ∈ kit_jsons src -> kit2 ∈ kit_jsons src ->
  length (objects kit1) <> length (objects kit2) ->
  _setup_scene self src = Raises ValueError.
Proof.
  intros H1 H2 Hne. unfold _setup_scene. cbv zeta.
  assert (Hstarts : forall rows : list (list Vec3),
            tensor rows = Returns rows \/ tensor rows = Raises ValueError).
  { intros [|row rest]; [by left|]. simpl. case (forallb _ rest); auto. }
  destruct (Hstarts (start_pos_proposal <$> kit_jsons src)) as [->| ->];
    cbn [outcome_bind]; [|reflexivity].
  rewrite (tensor_ragged _ (pos <$> objects kit1) (pos <$> objects kit2));
    [reflexivity|..].
  - apply (list_elem_of_fmap_2 (fun kit_json => pos <$> objects kit_json)), H1.
  - apply (list_elem_of_fmap_2 (fun kit_json => pos <$> objects kit_json)), H2.
  - by rewrite !length_fmap.
Qed.

(** X28: from the kit files to the first step: setup, the first reset of
    all environments, the verdicts of [is_success] and the state
    observation all complete, with one verdict and one observation row
    per environment; a row has 24 columns and one per shape type counted
    at setup. *)
Theorem setup_reset_and_observe `{FrameMath} (self : AssemblyKitEnv)
    (src : SceneSources) (rng : Draws) (K n_starts : nat)
    (rgb : list (list (list (Z * Z * Z)))) :
  sources_ready self src K n_starts -> (2 <= K)%nat ->
  Forall (fun kit_json =>
            Forall (fun o => object_id o < length (symmetry self))%nat
                   (objects kit_json)) (kit_jsons src) ->
  tcp_ready self (seq 0 (num_envs self)) ->
  exists (self0 : AssemblyKitEnv) (ms : ModelSampling) (self1 : AssemblyKitEnv)
         (success : list bool) (obs : list (list R)),
    _setup_scene self src = Returns (self0, ms) /\
    sample_models_for_envs rng (seq 0 (num_envs self)) self0 = (Ok tt, self1) /\
    is_success_default self1 = Ok success /\
    length success = num_envs self /\
    _get_observations self1 (num_shape_types ms) "state" rgb = Ok (StateObs obs) /\
    length obs = num_envs self /\
    Forall (fun row => length row = (24 + num_shape_types ms)%nat) obs.
Proof.
  intros Hsrc HK Hsym Htcp.
  destruct (setup_scene_rows self src K n_starts Hsrc)
    as (self0 & ms & Hrun & Hcat & Hct & Hnum & Hscene & Hsymmetry & Hrobot & Hlp
        & Hlq & Hhand & _ & _ & _ & _ & Hassets & _ & Hshape).
  assert (Hsym0 : Forall (Forall (fun id => id < length (symmetry self0))%nat)
                         (env_assets_info self0)).
  { apply Forall_forall. intros row Hrow.
    apply list_elem_of_lookup in Hrow as [e He].
    assert (He' : (e < num_envs self)%nat).
    { apply lookup_lt_Some in He. destruct Hcat. lia. }
    destruct Hsrc as [_ _ Hkits _ _ _ _ _ _ _ _].
    destruct (lookup_lt_is_Some_2 (kit_jsons src) (e mod length (kit_jsons src)))
      as [kj Hkj].
    { apply Nat.mod_upper_bound. by destruct (kit_jsons src). }
    rewrite (Hassets e kj He' Hkj) in He. injection He as <-.
    rewrite Hsymmetry. apply Forall_fmap.
    rewrite Forall_forall in Hsym. apply Hsym. by eapply list_elem_of_lookup_2. }
  rewrite <- Hnum in Hct.
  destruct (full_reset_ready self0 rng K n_starts Hcat Hct HK Hsym0)
    as (self1 & Hreset & Hready & Hsame & Hids).
  rewrite Hnum in Hreset.
  destruct Hsame as [_ Hscene1 Hnum1 _ _ _ Hrobot1 Hlp1 Hlq1 Hhand1 _ _ _ _ _ _].
  assert (Htcp1 : tcp_ready self1 (seq 0 (num_envs self1))).
  { destruct Htcp. split;
      rewrite ?Hnum1, ?Hrobot1, ?Hlp1, ?Hlq1, ?Hhand1, ?Hscene1,
              ?Hnum, ?Hrobot, ?Hlp, ?Hlq, ?Hhand, ?Hscene; done. }
  assert (Hids1 : Forall (fun id => id < num_shape_types ms)%nat
                         (current_target_model_id self1)).
  { eapply Forall_impl; [exact Hids|]. intros id (row & Hrow & Hid).
    rewrite Forall_forall in Hshape. specialize (Hshape row Hrow).
    rewrite Forall_forall in Hshape. by apply Hshape. }
  destruct (is_success_rows self1 pos_eps_default rot_eps_default height_eps_default
              Hready) as (success & Hsuccess & Hsuccess_len & _).
  destruct (state_observation_rows self1 (num_shape_types ms) rgb Hready Htcp1 Hids1)
    as (obs & tp & tq & Hobs & _ & Hobs_len & Hobs_rows).
  exists self0, ms, self1, success, obs.
  split; [exact Hrun|]. split; [exact Hreset|]. split; [exact Hsuccess|].
  split; [lia|]. split; [exact Hobs|]. split; [lia|].
  apply Forall_forall. intros row Hrow.
  apply list_elem_of_lookup in Hrow as [e He].
  destruct (Hobs_rows e) as (? & ? & ? & ? & ? & ? & _ & _ & _ & _ & _ & _ & Hrow).
  { apply lookup_lt_Some in He. lia. }
  rewrite Hrow in He. injection He as <-.
  cbn [app length]. rewrite length_fmap, length_seq. reflexivity.
Qed.

(** *** The goals of a kit, by object id *)

Lemma foldl_insert_lookup {V} (key : KitObject -> nat) (val : KitObject -> V)
    (l : list KitObject) (d : gmap nat V) (id : nat) :
  foldl (fun (d : gmap nat V) o => <[key o := val o]> d) d l !! id
  = match last (filter (fun o => key o = id) l) with
    | Some o => Some (val o)
    | None => d !! id
    end.
Proof.
  revert d. induction l as [|o l IH]; intros d; [reflexivity|].
  cbn [foldl]. rewrite IH. rewrite filter_cons.
  destruct (decide (key o = id)) as [<-|Hne].
  - destruct (filter _ l) as [|o' l'] eqn:Hf.
    + by rewrite lookup_insert_eq.
    + rewrite (last_cons o (o' :: l')).
      destruct (last (o' :: l')); [done|by rewrite lookup_insert_eq].
  - destruct (last (filter _ l)); [reflexivity|]. by rewrite lookup_insert_ne.
Qed.

(** X29: the two dicts of [_get_kit_goals] have the object ids of the
    kit file as their keys, and under an id the goal of the last object
    of the file with that id: for a kit file whose ids are distinct,
    what the catalogue of [_setup_scene] holds in the row of the kit at
    the slot of the object. *)
Theorem kit_goals_are_keyed_by_object_id (kit_json : KitJson) (id : nat) :
  let goals := _get_kit_goals kit_json in
  (is_Some (goals.1 !! id) <-> id ∈ object_id <$> objects kit_json) /\
  (is_Some (goals.2 !! id) <-> id ∈ object_id <$> objects kit_json) /\
  (forall before o after,
     objects kit_json = before ++ o :: after ->
     object_id o = id -> id ∉ object_id <$> after ->
     goals.1 !! id = Some (pos o) /\ goals.2 !! id = Some (rot o)) /\
  (NoDup (object_id <$> objects kit_json) ->
   forall slot o, objects kit_json !! slot = Some o -> object_id o = id ->
     goals.1 !! id = (pos <$> objects kit_json) !! slot /\
     goals.2 !! id = (rot <$> objects kit_json) !! slot).
Proof.
  cbv zeta. unfold _get_kit_goals. cbn [fst snd].
  rewrite !foldl_insert_lookup, !lookup_empty.
  assert (Hlast : forall before o after,
            objects kit_json = before ++ o :: after ->
            object_id o = id -> id ∉ object_id <$> after ->
            last (filter (fun o => object_id o = id) (objects kit_json)) = Some o).
  { intros before o after -> Ho Hafter. rewrite filter_app, filter_cons.
    rewrite decide_True by done.
    assert (filter (fun o => object_id o = id) after = []) as ->.
    { destruct (filter _ after) as [|o' l'] eqn:Hf; [reflexivity|].
      assert (Ho' : o' ∈ filter (fun o => object_id o = id) after)
        by (rewrite Hf; apply list_elem_of_here).
      apply list_elem_of_filter in Ho' as [Hid Ho']. exfalso. apply Hafter.
      apply list_elem_of_fmap. by exists o'. }
    by rewrite last_snoc. }
  assert (Hsome : is_Some (last (filter (fun o => object_id o = id) (objects kit_json)))
                  <-> id ∈ object_id <$> objects kit_json).
  { split.
    - intros [o Ho]. apply last_Some in Ho as [l' Hl'].
      assert (Hin : o ∈ filter (fun o => object_id o = id) (objects kit_json)).
      { rewrite Hl'. apply elem_of_app. right. apply list_elem_of_here. }
      apply list_elem_of_filter in Hin as [Hid Hin].
      apply list_elem_of_fmap. by exists o.
    - intros Hin. apply list_elem_of_fmap in Hin as (o & Hid & Hin).
      destruct (last (filter _ (objects kit_json))) as [o'|] eqn:Hl; [by exists o'|].
      apply last_None in Hl.
      assert (Ho : o ∈ filter (fun o => object_id o = id) (objects kit_json)).
      { apply list_elem_of_filter. by split. }
      rewrite Hl in Ho. by apply elem_of_nil in Ho. }
  assert (Hmatch : forall {V} (f : KitObject -> V) (x : option KitObject),
            is_Some (match x with Some o => Some (f o) | None => None end)
            <-> is_Some x).
  { intros V f [o|]; split; intros [y Hy]; try discriminate.
    - by exists o.
    - by exists (f o). }
  split; [|split; [|split]].
  - by rewrite Hmatch.
  - by rewrite Hmatch.
  - intros before o after Hobjects Ho Hafter.
    by rewrite (Hlast before o after Hobjects Ho Hafter).
  - intros Hnodup slot o Hslot Ho.
    apply list_elem_of_split_length in Hslot as (before & after & Hobjects & Hlen).
    rewrite (Hlast before o after Hobjects Ho).
    + rewrite !list_lookup_fmap, Hobjects, Hlen.
      rewrite list_lookup_middle by done. split; reflexivity.
    + rewrite Hobjects, fmap_app, fmap_cons in Hnodup.
      apply NoDup_app in Hnodup as (_ & _ & Hnodup).
      apply NoDup_cons in Hnodup as [Hnotin _]. by rewrite <- Ho.
Qed.

(** ** The properties at the concrete scenes *)

Lemma demo_env_catalogue_ready : catalogue_ready demo_env 2 1.
Proof. split; simpl; repeat constructor; done. Qed.

Lemma demo_env_shapes_have_periods :
  Forall (Forall (fun id => id < length (symmetry demo_env))%nat)
         (env_assets_info demo_env).
Proof. simpl. repeat constructor. Qed.

Lemma placed_env_tcp_ready : tcp_ready placed_env (seq 0 (num_envs placed_env)).
Proof. split; simpl; repeat constructor. Qed.

Lemma placed_env_shape_types :
  Forall (fun id => id < 2)%nat (current_target_model_id placed_env).
Proof. simpl. repeat constructor. Qed.

Lemma demo_env_tcp_ready_1 : tcp_ready demo_env [1%nat].
Proof. split; simpl; repeat constructor. Qed.

Lemma demo_sources_ready : sources_ready demo_env demo_sources 2 1.
Proof. split; simpl; repeat constructor; done. Qed.

Lemma demo_kit_shapes_have_periods :
  Forall (fun kit_json =>
            Forall (fun o => object_id o < length (symmetry demo_env))%nat
                   (objects kit_json)) (kit_jsons demo_sources).
Proof. simpl. repeat constructor. Qed.

Lemma demo_wrist_path (e : nat) :
  (e < 2)%nat ->
  robot_prim_path e "panda_link7"
  = (if (e =? 0)%nat then "/World/envs/env_0/Robot/panda_link7"
     else "/World/envs/env_1/Robot/panda_link7")%string.
Proof. intros He. destruct e as [|[|e]]; [vm_compute; reflexivity..|lia]. Qed.

Lemma demo_stage_wrists (e : nat) :
  (e < num_envs demo_env)%nat ->
  let wrist := demo_stage (robot_prim_path e "panda_link7") in
  unit_quat wrist.2 /\
  (row ← body_pos_w (robot demo_env) !! e; row !! hand_link_idx demo_env)
  = Some wrist.1 /\
  (row ← body_quat_w (robot demo_env) !! e; row !! hand_link_idx demo_env)
  = Some wrist.2.
Proof.
  intros He. cbv zeta. rewrite demo_wrist_path by exact He.
  destruct e as [|[|e]]; [..|simpl in He; lia];
    (split; [unfold unit_quat; simpl; lra|split; reflexivity]).
Qed.

(** X1, on a concrete scene: a reset of environment 0 of the demo scene
    keeps environment 1. *)
Lemma prefix_reset_keeps_other_environments_witness :
  exists self',
    @sample_models_for_envs isaac_frame_math demo_draws (seq 0 1) demo_env
    = (Ok tt, self') /\
    same_setup demo_env self' /\
    forall e, (1 <= e)%nat ->
      _current_target self' !! e = _current_target demo_env !! e /\
      forall j, object_pose self' j e = object_pose demo_env j e.
Proof.
  apply (@prefix_reset_keeps_other_environments isaac_frame_math demo_env
           demo_draws 2 1 1);
    [exact demo_env_sampler_ready | lia | simpl; lia].
Defined.

(** X2, on a concrete scene: the target of environment 0 in the full
    reset of the demo scene. *)
Lemma reset_places_target_on_a_start_proposal_witness :
  exists (self' : AssemblyKitEnv) (kp : Vec3) (kit_id : nat)
         (starts : list Vec3) (offset : Vec3),
    @sample_models_for_envs isaac_frame_math demo_draws (seq 0 2) demo_env
    = (Ok tt, self') /\
    _current_target self' !! 0%nat = Some (draw_choice demo_draws 0 mod 2)%nat /\
    kit_world_pos demo_env 0 = Some kp /\
    kit_ids_per_env demo_env !! 0%nat = Some kit_id /\
    kit_target_starting_pos demo_env !! kit_id = Some starts /\
    starts !! (draw_sampled_idx demo_draws 0 mod 1)%nat = Some offset /\
    object_pose self' (draw_choice demo_draws 0 mod 2)%nat 0
      = Some (vadd kp offset,
              isaac_quat_from_euler_xyz 0 0 (draw_rot_t demo_draws 0 * 2 * PI)).
Proof.
  apply (@reset_places_target_on_a_start_proposal isaac_frame_math demo_env
           demo_draws 2 1 2 0);
    [exact demo_env_sampler_ready | lia | simpl; lia | lia].
Defined.

(** X3, on a concrete scene: the distractors of environment 0 in the
    full reset of the demo scene. *)
Lemma reset_leaves_unstaged_distractors_on_their_goals_witness :
  exists (self' : AssemblyKitEnv) (kp : Vec3) (staged : nat),
    @sample_models_for_envs isaac_frame_math demo_draws (seq 0 2) demo_env
    = (Ok tt, self') /\
    kit_world_pos demo_env 0 = Some kp /\
    staged_slot 2 demo_draws 0 = Some staged /\
    (staged < 2)%nat /\ staged <> (draw_choice demo_draws 0 mod 2)%nat /\
    forall j, (j < 2)%nat -> j <> (draw_choice demo_draws 0 mod 2)%nat ->
      exists (g : Vec3) (r : R),
        kit_goal_pos demo_env 0 j = Some g /\
        kit_goal_rot demo_env 0 j = Some r /\
        object_pose self' j 0
        = Some (vadd kp (if decide (draw_do_pick demo_draws 0 < 0.5 /\ j = staged)
                         then (- table_offset (cfg demo_env), 0.2, 0.1) else g),
                isaac_quat_from_euler_xyz 0 0 r).
Proof.
  apply (@reset_leaves_unstaged_distractors_on_their_goals isaac_frame_math
           demo_env demo_draws 2 1 2 0);
    [exact demo_env_sampler_ready | lia | simpl; lia | lia].
Defined.

(** X4, on a concrete scene: the first reset of the demo scene. *)
Lemma full_reset_readies_the_evaluator_witness :
  exists (self' : AssemblyKitEnv) (l : list bool),
    @sample_models_for_envs isaac_frame_math demo_draws
      (seq 0 (num_envs demo_env)) demo_env = (Ok tt, self') /\
    evaluator_ready self' /\
    @is_success_default isaac_frame_math self' = Ok l /\
    length l = num_envs demo_env.
Proof.
  apply (@full_reset_readies_the_evaluator isaac_frame_math demo_env demo_draws 2 1);
    [exact demo_env_catalogue_ready | reflexivity | lia
    | exact demo_env_shapes_have_periods].
Defined.

(** X5, on a concrete scene: a reset of no environment of the demo
    scene, and the evaluator. *)
Lemma partial_reset_breaks_the_evaluator_witness :
  exists self' : AssemblyKitEnv,
    @sample_models_for_envs isaac_frame_math demo_draws (seq 0 0) demo_env
    = (Ok tt, self') /\
    length (target_goal_pos self') = 0%nat /\
    @is_success isaac_frame_math self' 0.02 (radians 4) 0.003 = Raise RuntimeError.
Proof.
  apply (@partial_reset_breaks_the_evaluator isaac_frame_math demo_env demo_draws
           2 1 0 0.02 (radians 4) 0.003);
    [exact demo_env_sampler_ready | lia | simpl; lia | lia | simpl; lia].
Defined.

(** X6, on a concrete scene: a reset of an environment 5 of the demo
    scene. *)
Lemma reset_of_unknown_environment_changes_nothing_witness :
  @sample_models_for_envs isaac_frame_math demo_draws [5%nat] demo_env
  = (Raise IndexError, demo_env).
Proof.
  apply (@reset_of_unknown_environment_changes_nothing isaac_frame_math demo_env
           demo_draws [5%nat] 5);
    [apply list_elem_of_here | simpl; lia].
Defined.

(** X7, on a concrete scene: the placed scene under the default and
    under looser tolerances. *)
Lemma looser_tolerances_keep_success_witness :
  exists l l' : list bool,
    @is_success isaac_frame_math placed_env 0.02 (radians 4) 0.003 = Ok l /\
    @is_success isaac_frame_math placed_env 0.05 (radians 4) 0.01 = Ok l' /\
    forall i, l !! i = Some true -> l' !! i = Some true.
Proof.
  apply (@looser_tolerances_keep_success isaac_frame_math placed_env
           0.02 (radians 4) 0.003 0.05 (radians 4) 0.01);
    [exact placed_env_ready | lra | lra | lra].
Defined.

(** X8, on a concrete scene: the target poses of the placed scene. *)
Lemma target_pose_is_environment_local_witness :
  exists l : list Pose,
    @get_target_model_pose placed_env = Ok l /\
    length l = num_envs placed_env /\
    forall (i slot : nat) (model : RigidObject) (P : Pose) (o : Vec3),
      _current_target placed_env !! i = Some slot ->
      models placed_env !! slot = Some model ->
      root_state_w model !! i = Some P ->
      env_origins (scene placed_env) !! i = Some o ->
      l !! i = Some ((vx P.1 - vx o, vy P.1 - vy o, vz P.1 - vz o), P.2).
Proof.
  apply (@target_pose_is_environment_local isaac_frame_math placed_env);
    [reflexivity | simpl; repeat constructor | simpl; repeat constructor
    | reflexivity].
Defined.

(** X9, on a concrete scene: the demo scene with the stale target
    column. *)
Lemma target_slot_without_object_raises_witness :
  @get_target_model_pose stale_target_env = Raise IndexError.
Proof.
  apply (@target_slot_without_object_raises isaac_frame_math stale_target_env 7);
    [apply list_elem_of_further, list_elem_of_here | simpl; lia].
Defined.

(** X10, on a concrete scene: environment 0 of the placed scene, against
    goals three periods on. *)
Lemma rot_error_ignores_whole_periods_witness :
  exists l : list R,
    @is_success_rot_diff isaac_frame_math placed_env
      [placed_pose_0; placed_pose_1] = Ok l /\
    let yaw := (isaac_euler_xyz_from_quat quat_identity).2 in
    let d := remainder (Rabs (yaw - (PI + IZR 3 * PI))) PI in
    l !! 0%nat = Some (if decide (d > PI / 2) then PI - d else d).
Proof.
  apply (@rot_error_ignores_whole_periods isaac_frame_math placed_env
           [placed_pose_0; placed_pose_1] 0 placed_pose_0 PI 1%nat PI 3);
    [exact placed_env_ready | reflexivity .. | exact PI_RGT_0].
Defined.

(** X11, on a concrete scene: the TCP of environment 1 of the demo
    scene, alone and among all. *)
Lemma tcp_of_subset_is_rows_of_all_witness :
  exists (p : list Vec3) (q : list Quat) (p_all : list Vec3) (q_all : list Quat),
    @_compute_tcp_world isaac_frame_math demo_env (Some [1%nat]) = Ok (p, q) /\
    @_compute_tcp_world isaac_frame_math demo_env None = Ok (p_all, q_all) /\
    length p = length [1%nat] /\ length q = length [1%nat] /\
    length p_all = num_envs demo_env /\ length q_all = num_envs demo_env /\
    forall k e, [1%nat] !! k = Some e ->
      p !! k = p_all !! e /\ q !! k = q_all !! e.
Proof.
  apply (@tcp_of_subset_is_rows_of_all isaac_frame_math demo_env [1%nat]);
    exact demo_env_tcp_ready_1.
Defined.

(** X12, on a concrete scene: the TCP of an environment 4 of the demo
    scene. *)
Lemma tcp_of_unknown_environment_raises_witness :
  @_compute_tcp_world isaac_frame_math demo_env (Some [4%nat]) = Raise IndexError.
Proof.
  apply (@tcp_of_unknown_environment_raises isaac_frame_math demo_env [4%nat] 4);
    [apply list_elem_of_here | simpl; lia].
Defined.

(** X13, on a concrete scene: the state observation of the placed scene. *)
Lemma state_observation_layout_witness :
  exists (obs : list (list R)) (tcp_pos : list Vec3) (tcp_rot : list Quat),
    @_get_observations isaac_frame_math placed_env 2 "state" demo_rgb
    = Ok (StateObs obs) /\
    @_compute_tcp_world isaac_frame_math placed_env None = Ok (tcp_pos, tcp_rot) /\
    length obs = num_envs placed_env /\
    forall e, (e < num_envs placed_env)%nat ->
      exists (tp : Vec3) (tq : Quat) (P : Pose) (g : Vec3) (r : R) (id : nat),
        tcp_pos !! e = Some tp /\ tcp_rot !! e = Some tq /\
        target_pose_of placed_env e = Some P /\
        target_goal_pos placed_env !! e = Some g /\
        target_goal_rot placed_env !! e = Some r /\
        current_target_model_id placed_env !! e = Some id /\
        obs !! e
        = Some ([vx tp; vy tp; vz tp]
                ++ [tq.1.1.1; tq.1.1.2; tq.1.2; tq.2]
                ++ [vx P.1; vy P.1; vz P.1; P.2.1.1.1; P.2.1.1.2; P.2.1.2; P.2.2]
                ++ [vx P.1 - vx tp; vy P.1 - vy tp; vz P.1 - vz tp]
                ++ [vx g; vy g; vz g]
                ++ [r]
                ++ [vx g - vx P.1; vy g - vy P.1; vz g - vz P.1]
                ++ ((fun j => if (j =? id)%nat then 1 else 0) <$> seq 0 2)).
Proof.
  apply (@state_observation_layout isaac_frame_math placed_env 2 demo_rgb);
    [exact placed_env_ready | exact placed_env_tcp_ready
    | exact placed_env_shape_types].
Defined.

(** X14, on a concrete scene: success and the state observation of the
    placed scene. *)
Lemma success_shows_in_the_observation_witness :
  exists (obs : list (list R)) (success : list bool),
    @_get_observations isaac_frame_math placed_env 2 "state" demo_rgb
    = Ok (StateObs obs) /\
    @is_success_default isaac_frame_math placed_env = Ok success /\
    forall (e : nat) (row : list R) (dx dy z : R),
      obs !! e = Some row ->
      row !! 21%nat = Some dx -> row !! 22%nat = Some dy -> row !! 9%nat = Some z ->
      success !! e = Some true ->
      sqrt (dx * dx + dy * dy) < 0.02 /\ z < 0.003.
Proof.
  apply (@success_shows_in_the_observation isaac_frame_math placed_env 2 demo_rgb);
    [exact placed_env_ready | exact placed_env_tcp_ready
    | exact placed_env_shape_types].
Defined.

(** X15, on a concrete scene: the pixel observation of the placed scene. *)
Lemma pixel_observation_is_normalised_witness :
  exists pixels : list (list (list (R * R * R))),
    @_get_observations isaac_frame_math placed_env 2 "rgb" demo_rgb
    = Ok (PixelObs pixels) /\
    Forall2 (Forall2 (Forall2 (fun (px : Z * Z * Z) (c : R * R * R) =>
               c = (IZR px.1.1 / 255, IZR px.1.2 / 255, IZR px.2 / 255))))
            demo_rgb pixels /\
    Forall (Forall (Forall (fun c : R * R * R =>
              0 <= c.1.1 <= 1 /\ 0 <= c.1.2 <= 1 /\ 0 <= c.2 <= 1))) pixels.
Proof.
  apply (@pixel_observation_is_normalised isaac_frame_math placed_env 2 "rgb" demo_rgb);
    [exact placed_env_ready | exact placed_env_tcp_ready
    | exact placed_env_shape_types | discriminate
    | repeat constructor; simpl; lia].
Defined.

(** X16, on a concrete scene: a reset of environment 0 of the demo
    scene, and the observation. *)
Lemma partial_reset_breaks_the_observation_witness :
  exists self' : AssemblyKitEnv,
    @sample_models_for_envs isaac_frame_math demo_draws (seq 0 1) demo_env
    = (Ok tt, self') /\
    @_get_observations isaac_frame_math self' 2 "state" demo_rgb
    = Raise RuntimeError.
Proof.
  apply (@partial_reset_breaks_the_observation isaac_frame_math demo_env demo_draws
           2 1 1 2 "state" demo_rgb);
    [exact demo_env_sampler_ready | lia | simpl; lia | exact demo_env_tcp_ready].
Defined.

(** X18, on a concrete scene: the local TCPs of the demo stage. *)
Lemma one_local_tcp_per_environment_witness :
  match @init_local_tcp isaac_frame_math isaac_frame_inverse demo_stage demo_env with
  | Ok local =>
      (0 < num_envs demo_env)%nat /\
      length local.1 = num_envs demo_env /\ length local.2 = num_envs demo_env
  | Raise e => num_envs demo_env = 0%nat /\ e = RuntimeError
  end.
Proof.
  apply (@one_local_tcp_per_environment isaac_frame_math isaac_frame_inverse
           demo_stage demo_env).
  simpl. lia.
Defined.

(** X19, on a concrete scene: the TCP of the demo scene, right after
    construction on the demo stage. *)
Lemma tcp_after_construction_is_the_finger_midpoint_witness :
  exists (local : list Vec3 * list Quat) (p : list Vec3) (q : list Quat),
    @init_local_tcp isaac_frame_math isaac_frame_inverse demo_stage demo_env
    = Ok local /\
    @_compute_tcp_world isaac_frame_math (with_local_tcp local demo_env) None
    = Ok (p, q) /\
    forall e o, (e < num_envs demo_env)%nat ->
      env_origins (scene demo_env) !! e = Some o ->
      let wrist := demo_stage (robot_prim_path e "panda_link7") in
      let lfinger := demo_stage (robot_prim_path e "panda_leftfinger") in
      let rfinger := demo_stage (robot_prim_path e "panda_rightfinger") in
      let mid : Vec3 := ((vx lfinger.1 + vx rfinger.1) / 2,
                         (vy lfinger.1 + vy rfinger.1) / 2,
                         (vz lfinger.1 + vz rfinger.1) / 2) in
      p !! e = Some (vsub (vadd mid (quat_apply wrist.2 (0, 0.04, 0))) o) /\
      q !! e = Some lfinger.2.
Proof.
  apply (tcp_after_construction_is_the_finger_midpoint demo_stage demo_env);
    [simpl; lia | reflexivity | reflexivity | reflexivity | exact demo_stage_wrists].
Defined.

(** X20, on a concrete scene: the lookup table of the demo scene, of one
    kit. *)
Lemma assets_info_assigns_kits_in_turn_witness :
  exists infos : list AssetsInfo,
    _get_assets_info_per_env demo_env ["kits/kit_0/kit_0.usda"%string] [[0; 1]%nat]
    = Returns infos /\
    length infos = num_envs demo_env /\
    forall e, (e < num_envs demo_env)%nat ->
      exists info,
        infos !! e = Some info /\
        kit_id info = (e mod length ["kits/kit_0/kit_0.usda"%string])%nat /\
        (kit_id info < length ["kits/kit_0/kit_0.usda"%string])%nat /\
        [[0; 1]%nat] !! kit_id info = Some (model_ids info).
Proof.
  apply (assets_info_assigns_kits_in_turn demo_env ["kits/kit_0/kit_0.usda"%string]
           [[0; 1]%nat]);
    [discriminate | simpl; lia].
Defined.

(** X22, on a concrete scene: the sampling buffers of the demo scene. *)
Lemma init_model_sampling_counts_the_shape_types_witness :
  exists (current_target : list nat) (ms : ModelSampling),
    _init_model_sampling demo_env demo_memory
    = Returns (set__current_target current_target demo_env, ms) /\
    length current_target = length (env_assets_info demo_env) /\
    model_ids_matrix_per_env ms = env_assets_info demo_env /\
    length (_current_others ms) = length (env_assets_info demo_env) /\
    Forall (fun row => length row = (2 - 1)%nat) (_current_others ms) /\
    Forall (Forall (fun id => id < num_shape_types ms)%nat) (env_assets_info demo_env) /\
    exists row id, row ∈ env_assets_info demo_env /\ id ∈ row /\
                   num_shape_types ms = S id.
Proof.
  apply (init_model_sampling_counts_the_shape_types demo_env demo_memory 2);
    [discriminate | simpl; repeat constructor | lia].
Defined.

(** X25, on a concrete scene: setup of the demo scene from its one kit
    file. *)
Lemma setup_readies_the_catalogue_witness :
  exists (self' : AssemblyKitEnv) (ms : ModelSampling),
    _setup_scene demo_env demo_sources = Returns (self', ms) /\
    catalogue_ready self' 2 1 /\
    length (_current_target self') = num_envs demo_env /\
    forall e kit_json, (e < num_envs demo_env)%nat ->
      kit_jsons demo_sources !! (e mod length (kit_jsons demo_sources))%nat
      = Some kit_json ->
      kit_ids_per_env self' !! e = Some (e mod length (kit_jsons demo_sources))%nat /\
      env_assets_info self' !! e = Some (object_id <$> objects kit_json) /\
      forall slot, kit_goal_pos self' e slot = pos <$> objects kit_json !! slot /\
                   kit_goal_rot self' e slot = rot <$> objects kit_json !! slot.
Proof.
  apply (setup_readies_the_catalogue demo_env demo_sources 2 1).
  exact demo_sources_ready.
Defined.

(** X26, on a concrete scene: the object of slot 1 of the demo scene. *)
Lemma setup_groups_the_models_by_slot_witness :
  exists (self' : AssemblyKitEnv) (ms : ModelSampling) (model_cfg : RigidObjectCfg),
    _setup_scene demo_env demo_sources = Returns (self', ms) /\
    length (models self') = 2%nat /\
    models self' !! 1%nat = Some (make_rigid_object demo_sources model_cfg) /\
    length (usd_path (spawn model_cfg)) = length (kit_jsons demo_sources) /\
    (forall k kit_json o,
       kit_jsons demo_sources !! k = Some kit_json ->
       objects kit_json !! 1%nat = Some o ->
       usd_path (spawn model_cfg) !! k = Some (model_usd_path (object_id o))) /\
    model_usd_path 7
    = "/home/johann/Downloads/assembly_kit_noremesh/models/model_07/model_07.usda"%string.
Proof.
  apply (setup_groups_the_models_by_slot demo_env demo_sources 2 1 1);
    [exact demo_sources_ready | lia].
Defined.

(** X27, on a concrete scene: setup from a kit of two objects and a kit
    of one. *)
Lemma setup_rejects_kits_of_unequal_size_witness :
  _setup_scene demo_env uneven_sources = Raises ValueError.
Proof.
  apply (setup_rejects_kits_of_unequal_size demo_env uneven_sources
           demo_kit_json small_kit_json);
    [apply list_elem_of_here | apply list_elem_of_further, list_elem_of_here
    | simpl; lia].
Defined.

(** X28, on a concrete scene: the demo scene from its kit file to its
    first observation. *)
Lemma setup_reset_and_observe_witness :
  exists (self0 : AssemblyKitEnv) (ms : ModelSampling) (self1 : AssemblyKitEnv)
         (success : list bool) (obs : list (list R)),
    _setup_scene demo_env demo_sources = Returns (self0, ms) /\
    @sample_models_for_envs isaac_frame_math demo_draws (seq 0 (num_envs demo_env)) self0
    = (Ok tt, self1) /\
    @is_success_default isaac_frame_math self1 = Ok success /\
    length success = num_envs demo_env /\
    @_get_observations isaac_frame_math self1 (num_shape_types ms) "state" demo_rgb
    = Ok (StateObs obs) /\
    length obs = num_envs demo_env /\
    Forall (fun row => length row = (24 + num_shape_types ms)%nat) obs.
Proof.
  apply (@setup_reset_and_observe isaac_frame_math demo_env demo_sources demo_draws
           2 1 demo_rgb);
    [exact demo_sources_ready | lia | exact demo_kit_shapes_have_periods
    | exact demo_env_tcp_ready].
Defined.

Lemma sampled_pose_same_setup `{FrameMath} (self other : AssemblyKitEnv)
    (rng : Draws) (K n_starts e j : nat) :
  same_setup self other ->
  sampled_pose other rng K n_starts e j = sampled_pose self rng K n_starts e j.
Proof.
  intros [Hcfg Hscene _ _ _ _ _ _ _ _ Hkit Hstarts Hpos Hrot Hids _].
  unfold sampled_pose, kit_world_pos, kit_goal_pos, kit_goal_rot, side_pos.
  by rewrite Hcfg, Hscene, Hkit, Hstarts, Hpos, Hrot, Hids.
Qed.

(** X30: a reset of all environments forgets the past.  Two environments
    of the same setup, whatever poses, targets and goals they held, are
    left by the same draws with the same object poses, the same targets
    and the same goal buffers. *)
Theorem full_reset_forgets_the_past `{FrameMath}
    (self other : AssemblyKitEnv) (rng : Draws) (K n_starts : nat) :
  catalogue_ready self K n_starts -> catalogue_ready other K n_starts ->
  same_setup self other ->
  length (_current_target self) = num_envs self ->
  length (_current_target other) = num_envs other ->
  (2 <= K)%nat ->
  exists s s' : AssemblyKitEnv,
    sample_models_for_envs rng (seq 0 (num_envs self)) self = (Ok tt, s) /\
    sample_models_for_envs rng (seq 0 (num_envs self)) other = (Ok tt, s') /\
    (forall e j, (e < num_envs self)%nat -> (j < K)%nat ->
        object_pose s' j e = object_pose s j e) /\
    _current_target s' = _current_target s /\
    current_target_model_id s' = current_target_model_id s /\
    target_goal_pos s' = target_goal_pos s /\
    target_goal_rot s' = target_goal_rot s.
Proof.
  intros Hcat Hcat' Hsame Hct Hct' HK.
  assert (Hnum : num_envs other = num_envs self) by by destruct Hsame.
  destruct (sample_prefix_state self rng K n_starts (num_envs self))
    as (s & Hrun & Hposes & _ & Htarget & Hlen_pos & Hlen_rot & Hgoals & Hsetup
        & _ & _ & Hlen_ids & Hids);
    [done | done | rewrite drop_ge by lia; constructor | done | lia |].
  destruct (sample_prefix_state other rng K n_starts (num_envs self))
    as (s' & Hrun' & Hposes' & _ & Htarget' & Hlen_pos' & Hlen_rot' & Hgoals'
        & Hsetup' & _ & _ & Hlen_ids' & Hids');
    [done | done | rewrite drop_ge by lia; constructor | done | lia |].
  assert (Htargets : _current_target s' = _current_target s).
  { rewrite Htarget, Htarget', !drop_ge by lia. reflexivity. }
  exists s, s'. split; [exact Hrun|]. split; [exact Hrun'|].
  split; [|split; [exact Htargets|split; [|split]]].
  - intros e j He Hj. rewrite Hposes, Hposes' by done.
    by apply sampled_pose_same_setup.
  - apply list_eq. intros e. destruct (decide (e < num_envs self)%nat) as [He|He].
    + rewrite Hids, Hids' by lia. unfold target_shape_of. rewrite Htargets.
      replace (env_assets_info s') with (env_assets_info s); [reflexivity|].
      destruct Hsetup, Hsetup', Hsame. congruence.
    + rewrite !lookup_ge_None_2 by lia. reflexivity.
  - apply list_eq. intros k. destruct (decide (k < num_envs self)%nat) as [Hk|Hk].
    + destruct (Hgoals k Hk) as [-> _]. destruct (Hgoals' k Hk) as [-> _].
      unfold kit_goal_pos. destruct Hsame as [_ _ _ _ _ _ _ _ _ _ _ _ Hpos _ Hkids _].
      by rewrite Hpos, Hkids.
    + rewrite !lookup_ge_None_2 by lia. reflexivity.
  - apply list_eq. intros k. destruct (decide (k < num_envs self)%nat) as [Hk|Hk].
    + destruct (Hgoals k Hk) as [_ ->]. destruct (Hgoals' k Hk) as [_ ->].
      unfold kit_goal_rot. destruct Hsame as [_ _ _ _ _ _ _ _ _ _ _ _ _ Hrot Hkids _].
      by rewrite Hrot, Hkids.
    + rewrite !lookup_ge_None_2 by lia. reflexivity.
Qed.

Lemma full_reset_state_catalogue_ready : catalogue_ready full_reset_state 2 1.
Proof. split; simpl; repeat constructor; done. Qed.

Lemma full_reset_state_same_setup : same_setup demo_env full_reset_state.
Proof. split; reflexivity. Qed.

(** X30, on a concrete scene: the demo scene, fresh and after a first
    reset, under the same draws. *)
Lemma full_reset_forgets_the_past_witness :
  exists s s' : AssemblyKitEnv,
    @sample_models_for_envs isaac_frame_math demo_draws
      (seq 0 (num_envs demo_env)) demo_env = (Ok tt, s) /\
    @sample_models_for_envs isaac_frame_math demo_draws
      (seq 0 (num_envs demo_env)) full_reset_state = (Ok tt, s') /\
    (forall e j, (e < num_envs demo_env)%nat -> (j < 2)%nat ->
        object_pose s' j e = object_pose s j e) /\
    _current_target s' = _current_target s /\
    current_target_model_id s' = current_target_model_id s /\
    target_goal_pos s' = target_goal_pos s /\
    target_goal_rot s' = target_goal_rot s.
Proof.
  apply (@full_reset_forgets_the_past isaac_frame_math demo_env full_reset_state
           demo_draws 2 1);
    [exact demo_env_catalogue_ready | exact full_reset_state_catalogue_ready
    | exact full_reset_state_same_setup | reflexivity | reflexivity | lia].
Defined.
